(* ===== verification/_CoqProject ===== *)
-Q . S2P
Prelude.v
JsString.v
Async.v
Model.v
Backend.v
Supabase.v
FeedbackCard.v
NewFeedbackDialog.v
Index.v
Page.v
App.v
AppDemo.v
AppFeed.v
AppBusy.v
AppShape.v
AppRefine.v
AppLoad.v
AppDrain.v
AppSeq.v
AppSnap.v
AppSession.v
