(* ===== verification/Prelude.v ===== *)
(** * GCTalk: a verification development for the feedback feed

    GCTalk (directory [feedback-festa-main]) is a React single-page
    application over a hosted backend (Supabase).  Its logic lives in three
    source files:

    - [src/pages/Index.tsx], the feed loader: on mount it checks the session
      ([checkAuth]), subscribes to session changes, loads the feed
      ([loadFeedbacks]: one query, newest first) and holds it as view state;
      it also signs out ([handleSignOut]) and renders the page.
    - [src/components/NewFeedbackDialog.tsx], the composer: [handleSubmit]
      resolves the current user, inserts one feedback row and, on success,
      closes the dialog and calls back into the loader.
    - [src/components/FeedbackCard.tsx], one card of the feed and its
      commenter: [handleSubmitComment] (guard on the trimmed text, user
      lookup, insert, reload callback), [getInitials], the category tables
      and the card's rendering.

    The backend itself (authentication, the three tables, the query with its
    joins) is not part of the sources: it is modelled from the
    specification (sections 3 and 6).

    ** How the program is modelled

    Every handler of the sources is an [async] function: it runs
    synchronously up to an [await] on a call of the Supabase client, is
    suspended, and is resumed with the response.  The development models a
    handler as a term of a small resumption monad ([Async.Proc]): [Ret],
    [Do e k] (a synchronous effect: a [useState] setter, a toast, a
    navigation, a props callback) and [Await c k] (a client call [c] and
    the continuation that receives its response).  A handler definition
    then reads line by line like the source; the values its closure
    captures (props and the state of the render in which the event fired)
    and the fields it reads from the submitted form are its arguments.
    The state of a component is a record of its [useState] hooks, and an
    effect acts on it through the component's [*_apply] function.

    Strings on which the code computes ([trim], [split], indexing, [slice],
    keys of the category tables) are sequences of UTF-16 code units
    ([list N]), as in JavaScript; text that is only displayed (toasts,
    labels, class names) is kept as [string] literals with the source's
    bytes.  Rendering is a function from props and state to a record of
    what is shown; it is partial where React throws.

    ** Files

    - [Prelude] (this file): shared tactics, the hint database [gct], list
      lemmas ([dropWhile], [dropWhileEnd]), and the fact that stdpp's
      [merge_sort] commutes with a map that respects the order.
    - [JsString]: the JavaScript built-ins the sources call ([trim],
      [split], [join], [slice], truthiness, property lookup on an object
      literal, which falls through to [Object.prototype]), and the class
      [Unicode] for [toUpperCase], which the sources only call.
    - [Async]: the resumption monad, its laws up to [proc_equiv]; [sync],
      the synchronous segment of a handler; [trace] and [result], a run
      against a table of responses; [exec], a run against a server with
      state; [final] and [at_calls], the state after a run and at its
      suspension points; [wire] and [detach], a component's callback that
      starts a procedure of its parent without awaiting it.
    - [Model]: the records of the sources ([Profile], [Comment],
      [Feedback], the insert payloads) and the signature of the client
      calls ([Call]).
    - [Backend]: the contract of the backend as a class, [BackendSpec]:
      the observations (session, profiles, feed, clock), [serve], and the
      laws the application relies on.
    - [Supabase]: a model of the tables that provides the contract
      ([supabase_spec]): [supabase_serve], the query [select_feed] with
      its joins and ordering, the invariant [backend_wf].
    - [FeedbackCard], [NewFeedbackDialog], [Index]: one file per source
      file: state record, effects, handlers, rendering, the events of
      the component with the guards under which the screen lets each
      start its handler ([card_handler], [dialog_handler],
      [signOut_handler]), and the theorems on every branch of every
      handler.
    - [Page]: the handlers with the callbacks that Index.tsx passes to its
      children wired in, run against any backend that satisfies
      [BackendSpec]; the end-to-end scenarios of the specification.
    - [App]: the running application.  Its state ([App.App]) is the
      backend, the mounted page with its children, the listeners
      registered for session changes ([subs]), the handlers in flight
      and the toasts shown.  The page ([PageInst]) is the state of
      Index.tsx with the children its JSX renders (lines 98-173): the
      dialog of the header, the dialog of the empty card, one card per
      key; [reconcile] mounts and unmounts them as the state changes.  A
      component instance is a place with a generation, so that a setter
      called by a handler whose component, or page, is gone reaches
      nothing.  A handler in flight ([Task]) is a continuation waiting
      for a response that is requested or has been computed and not yet
      delivered.  [step] is the transition function on events: the mount,
      which calls [checkAuth] and registers the listener of the page
      (Index.tsx lines 39-63, [mount]); every user event of the JSX
      under the guards of the screen ([handler], which wires the
      handlers of the components to the callbacks of the page); a
      session change, on which the client calls every registered
      listener ([notify]); the backend answering a request ([AServe])
      and a response reaching its handler ([ADeliver]), in any order.
      A navigation unmounts the page and releases its subscription
      ([unmount], line 62).  [reachable] is the set of states of the
      application; [sub_inv], that exactly the mounted page is
      subscribed, holds in all of them, and under it a step has one of
      four shapes ([step_spec], with [starts] the relation that says
      which handler an event starts).
    - [AppDemo]: concrete runs on the table model, checked by
      [check_run], at which the theorems are instantiated.
    - [AppFeed], [AppBusy], [AppShape], [AppLoad]: invariants of
      [reachable]: who sets the feed; the busy flags and the writers in
      flight; the well-formedness of the page; the loader of a page on
      the loading screen.
    - [AppRefine]: the abstract machine of the busy flags ([wstep]) and
      the refinement of it by [step].
    - [AppDrain]: the measure [load] on the handlers in flight and the
      scheduler [drain].
    - [AppSeq]: the schedule that runs one handler at a time, under
      which [App] computes what [Page] does.
    - [AppSnap]: the feed on the page as a snapshot of the feed of the
      backend ([snapshot_of], a preorder up to the order of the
      entries), which only grows; the feedback of the comments in
      flight.
    - [AppSession]: session changes, signing out, and handlers whose
      page is gone.

    ** What the theorems show

    - built-ins: [trim] yields the empty string exactly on all-whitespace
      input and is idempotent; [join] inverts [split];
    - commenter and composer: a write is issued exactly when the guard
      passes and a user is resolved; the row written carries the resolved
      user as author and the captured text as typed; the busy flag is set
      at every suspension point and back to [false] at the end of every
      run; inputs are cleared exactly on success; exactly one toast per
      run that passes the guard; the reload callback exactly on success;
    - loader: with no session nothing is queried and the page redirects;
      a failed query leaves the feed unchanged; a successful one replaces
      it wholesale; the loading flag is cleared either way;
    - rendering: [getInitials] against a reference definition; a card
      renders for every category but [__proto__], with a label exactly
      for the four offered ones; the page shows one card per feedback;
    - backend model: the query returns a sorted permutation of the joined
      table; every call preserves [backend_wf]; an accepted feedback is
      added to the feed, an accepted comment is appended under its
      feedback and leaves the order alone;
    - scenarios ([Page]), for every backend satisfying the contract: a
      published feedback heads the reloaded feed; a comment appears under
      its feedback with its author; mounting shows the stored feed in
      order, or keeps the feed and shows the load error when the query
      fails; refused writes and writes without a session change nothing;
      signing out ends the session;
    - running application ([App*]), for every interleaving of user
      events, answers and deliveries: only the delivery of a successful
      feed query changes the feed shown ([feed_set_only_by_loader]); no
      instance has two writers in flight and a busy flag is set exactly
      while its writer is in flight ([one_writer_per_instance],
      [busy_iff_writing]), so a disabled button lets nothing through;
      the writers in flight refine a set that a submission enters and a
      delivery leaves ([writer_refines]); the page shows a sorted feed
      with unique keys and exactly the children of its state
      ([reachable_wf]); answers and deliveries run out
      ([backend_events_bounded]) and draining them resets every busy
      flag and ends the loading screen ([drain_idle]); one handler at
      a time, the application computes the sequential run
      ([alone_is_sequential]) and what was typed in the form is what
      the first card shows ([publish_round_trip]); there is a run in
      which reloads overtake one another and the page is left with an
      older feed ([stale_response_race]), but what the page shows was
      always stored: its feed is a snapshot of the feed of the backend
      and its cards are cards of feedback that exists
      ([shown_is_stored]), so a comment in flight is never refused for
      a missing feedback ([comment_target_stored]) and the next comment
      that goes through leaves the page with exactly the feed of the
      backend ([comment_round_trip]);
    - sessions and pages that are gone ([AppSession]): a session change
      runs the listener of the mounted page and of no other, leaves the
      page when the session is lost and keeps every child otherwise
      ([session_change]); signing out leaves no page, no listener and
      no session ([sign_out_leaves]); the answer for a handler whose
      page instance is not the one mounted sets nothing on the page
      mounted now ([stale_delivery]); and a submission in flight when
      the user signs out still stores its feedback and shows its toast
      ([write_after_leaving]).

    ** Bounds

    Handlers are finite terms, so [trace], [result] and [exec] are
    structural and need no fuel: every run ends.  Identifiers and
    timestamps are unbounded naturals ([N]): the sources treat identifiers
    as opaque keys and never compute on timestamps.  The circumstances of
    the calls of a run are an infinite sequence [nat → Env], so a run
    never lacks one.  [App.step] is a total function to [option]; the
    only fuel of the development is that of [AppDrain.drain], and
    [load a], at most six events per handler in flight (three calls, an
    answer and a delivery each), is proved to be enough.  The runs of
    [AppDemo], [AppSnap] and [AppSession] have at most 25 events and
    are evaluated by [vm_compute].

    ** Not modelled

    A handler that calls back into the loader is one task with the
    reload it started: the remainder of the writer after the callback
    makes no call, so the order in which the two would resume is not
    observable.  Effects of one synchronous segment are applied one by
    one, each followed by a re-render, where React may batch them; no
    segment of the sources' handlers unmounts a child and mounts it
    again, which is where the two would differ.  When the client
    reports a session change, and with which session, is the choice of
    the environment ([ASessionChange]): the model does not tie it to the
    session of the backend, so it covers a sign-out in another tab as
    well as the report that follows the page's own sign-out.  The mount
    effect depends on [navigate] (line 63); the model mounts the page
    once per visit and does not re-run the effect while the page is
    mounted.  Every source line with logic is modelled; what the map
    leaves out of the three files is their imports and the signatures of
    the components.  Also left out, as code the sources only call or
    that is not under [src/]: styling (class names other than the
    category colours), the component library (Radix dialog and select
    internals), the sign-in page and the router beyond the call
    [navigate("/auth")] and the return to the page, the locale-aware
    date formatting (a function of the class [DateFns]), and the network
    itself (a response is either delivered or the call fails; there is
    no timeout). *)

From Stdlib Require Export NArith String Ascii Lia.
From stdpp Require Export base tactics option list strings sets gmap
  sorting relations.

(** ** Tactics *)

(** [case_scrut] destructs the scrutinee of a [match] (or an [if]) found in
    the goal or, failing that, in a hypothesis, keeping the equation. *)
Ltac case_scrut :=
  match goal with
  | |- context [match ?x with _ => _ end] =>
      lazymatch type of x with
      | sumbool _ _ => destruct x
      | _ => let E := fresh "E" in destruct x eqn:E
      end
  | H : context [match ?x with _ => _ end] |- _ =>
      lazymatch type of x with
      | sumbool _ _ => destruct x
      | _ => let E := fresh "E" in destruct x eqn:E
      end
  end.

(** [invert H]: inversion that cleans up after itself. *)
Ltac invert H := inversion H; clear H; simplify_eq.

(** [bool_prop] moves boolean connectives of the hypotheses and the goal to
    propositions. *)
Ltac bool_prop :=
  repeat match goal with
  | H : _ && _ = true |- _ => apply andb_true_iff in H as [? ?]
  | H : _ || _ = true |- _ => apply orb_true_iff in H
  | H : _ || _ = false |- _ => apply orb_false_iff in H as [? ?]
  | H : _ && _ = false |- _ => apply andb_false_iff in H
  | H : negb _ = true |- _ => apply negb_true_iff in H
  | H : negb _ = false |- _ => apply negb_false_iff in H
  | |- _ && _ = true => apply andb_true_iff
  | |- _ || _ = false => apply orb_false_iff
  | |- negb _ = true => apply negb_true_iff
  | |- negb _ = false => apply negb_false_iff
  end.

(** The development's hint database: structural lemmas of the components are
    added to it where they are proved. *)
Create HintDb gct discriminated.
Create Rewrite HintDb gct.

(** ** Lists: dropping a prefix or a suffix by a predicate *)

Section drop_while.
Context {A : Type} (p : A → bool).
Implicit Types (l k : list A) (x : A).

(** The longest suffix of [l] whose head fails [p]. *)
Fixpoint dropWhile (l : list A) : list A :=
  match l with
  | [] => []
  | x :: l' => if p x then dropWhile l' else l
  end.

(** Dropping from the end: [reverse], drop, [reverse]. *)
Definition dropWhileEnd (l : list A) : list A :=
  reverse (dropWhile (reverse l)).

Lemma dropWhile_nil_iff l : dropWhile l = [] ↔ Forall (λ x, p x = true) l.
Proof.
  induction l as [|x l IH]; simpl; [by split|].
  destruct (p x) eqn:E.
  - rewrite IH. split; [by constructor|by inversion 1].
  - split; [done|]. inversion 1; congruence.
Qed.

Lemma dropWhile_head l x k : dropWhile l = x :: k → p x = false.
Proof.
  induction l as [|y l IH]; simpl; [done|].
  destruct (p y) eqn:E; [done|]. by intros [= <- <-].
Qed.

Lemma dropWhile_fixed l x : p x = false → dropWhile (x :: l) = x :: l.
Proof. simpl. by intros ->. Qed.

Lemma dropWhile_idemp l : dropWhile (dropWhile l) = dropWhile l.
Proof.
  destruct (dropWhile l) as [|x k] eqn:E; [done|].
  apply dropWhile_fixed. eapply dropWhile_head, E.
Qed.

Lemma dropWhile_app_l l k :
  Forall (λ x, p x = true) l → dropWhile (l ++ k) = dropWhile k.
Proof. induction 1 as [|x l Hx _ IH]; simpl; [done|]. by rewrite Hx. Qed.

Lemma dropWhile_app_r l k x :
  dropWhile l = x :: k → ∀ k', dropWhile (l ++ k') = x :: k ++ k'.
Proof.
  induction l as [|y l IH]; simpl; [done|].
  destruct (p y); [done|]. by intros [= <- <-].
Qed.

Lemma dropWhile_suffix l : dropWhile l `suffix_of` l.
Proof.
  induction l as [|x l IH]; simpl; [done|].
  destruct (p x); [by apply suffix_cons_r|done].
Qed.

Lemma dropWhileEnd_nil_iff l :
  dropWhileEnd l = [] ↔ Forall (λ x, p x = true) l.
Proof.
  unfold dropWhileEnd.
  rewrite <-(reverse_involutive []), (inj_iff reverse), reverse_nil.
  by rewrite dropWhile_nil_iff, Forall_reverse.
Qed.

Lemma dropWhileEnd_snoc l x :
  p x = false → dropWhileEnd (l ++ [x]) = l ++ [x].
Proof.
  intros Hx. unfold dropWhileEnd.
  by rewrite reverse_snoc, dropWhile_fixed, reverse_cons, reverse_involutive.
Qed.

Lemma dropWhileEnd_prefix l : dropWhileEnd l `prefix_of` l.
Proof.
  unfold dropWhileEnd. destruct (dropWhile_suffix (reverse l)) as [k Hk].
  exists (reverse k).
  by rewrite <-(reverse_involutive l), Hk at 1; rewrite reverse_app.
Qed.

Lemma dropWhileEnd_last l x k : dropWhileEnd l = k ++ [x] → p x = false.
Proof.
  unfold dropWhileEnd. intros H.
  apply (f_equal reverse) in H.
  rewrite reverse_involutive, reverse_snoc in H.
  eapply dropWhile_head, H.
Qed.

Lemma dropWhileEnd_idemp l : dropWhileEnd (dropWhileEnd l) = dropWhileEnd l.
Proof.
  unfold dropWhileEnd. by rewrite reverse_involutive, dropWhile_idemp.
Qed.

End drop_while.

#[export] Hint Rewrite @dropWhile_idemp @dropWhileEnd_idemp : gct.

(** ** Sorting *)

(** Merge sort commutes with a map that preserves the order. *)
Section merge_sort_fmap.
Context {A B : Type} (R : relation A) (R' : relation B).
Context `{!RelDecision R, !RelDecision R'} (f : A → B).
Context (Hf : ∀ x y, R' (f x) (f y) ↔ R x y).
Implicit Types (l : list A) (st : list (option (list A))).

(** The map on the stack of sorted runs that merge sort keeps. *)
Definition stack_fmap st : list (option (list B)) :=
  fmap (M:=option) (fmap (M:=list) f) <$> st.

Lemma list_merge_fmap l1 l2 :
  list_merge R' (f <$> l1) (f <$> l2) = f <$> list_merge R l1 l2.
Proof.
  revert l2. induction l1 as [|x1 l1 IH1]; intros l2.
  { by rewrite fmap_nil, !list_merge_nil_l. }
  induction l2 as [|x2 l2 IH2]; [by rewrite fmap_nil, !list_merge_nil_r|].
  rewrite !fmap_cons, !list_merge_cons, (decide_ext _ _ _ _ (Hf x1 x2)).
  case_decide; rewrite fmap_cons; f_equal; [|done].
  by rewrite <-IH1.
Qed.

Lemma merge_list_to_stack_fmap st l :
  merge_list_to_stack R' (stack_fmap st) (f <$> l)
  = stack_fmap (merge_list_to_stack R st l).
Proof.
  revert l. induction st as [|[l'|] st IH]; intros l; simpl; [done| |done].
  by rewrite list_merge_fmap, IH.
Qed.

Lemma merge_stack_fmap st :
  merge_stack R' (stack_fmap st) = f <$> merge_stack R st.
Proof.
  induction st as [|[l'|] st IH]; simpl; [done| |done].
  by rewrite IH, list_merge_fmap.
Qed.

Lemma merge_sort_aux_fmap st l :
  merge_sort_aux R' (stack_fmap st) (f <$> l)
  = f <$> merge_sort_aux R st l.
Proof.
  revert st. induction l as [|x l IH]; intros st; simpl.
  { apply merge_stack_fmap. }
  by rewrite <-IH, <-merge_list_to_stack_fmap.
Qed.

Lemma merge_sort_fmap l : merge_sort R' (f <$> l) = f <$> merge_sort R l.
Proof. apply (merge_sort_aux_fmap []). Qed.

End merge_sort_fmap.

(** The head of a sorted list is the only element that nothing else
    precedes. *)
Lemma StronglySorted_head_unique {A} (R : relation A) x h t :
  StronglySorted R (h :: t) → x ∈ h :: t →
  (∀ y, y ∈ h :: t → R y x → y = x) → h = x.
Proof.
  intros Hs Hx Hmax. apply elem_of_cons in Hx as [->|Hx]; [done|].
  apply StronglySorted_inv in Hs as [_ Hall].
  apply Hmax; [by left|]. by eapply Forall_forall in Hall.
Qed.
