(* ===== verification/JsString.v ===== *)
(** * JsString: the JavaScript built-ins the sources call

    A JavaScript string is a sequence of UTF-16 code units; it is modelled
    as [list N].  This file defines the built-ins that the handlers and the
    card's rendering use on such strings, with the behaviour ECMAScript
    gives them:

    - [truthy] (the test [!s] on a string), [trim] (FeedbackCard.tsx:66 and
      178), [split], the index [n[0]], [join], [slice] (FeedbackCard.tsx:
      97-102);
    - [lookup_literal], the lookup [obj[key]] on an object literal, which
      falls through to [Object.prototype] (FeedbackCard.tsx:120-121);
    - the class [Unicode] for [toUpperCase], a function of the runtime that
      the sources only call, with an ASCII instance used to evaluate
      examples.

    The lemmas are the facts the components rely on: when [trim] is empty,
    that [join] inverts [split], bounds on [slice]. *)

From S2P Require Import Prelude.

#[local] Open Scope N_scope.

(** ** Strings and literals *)

(** A string is a list of code units. *)
Abbreviation jsstring := (list N) (only parsing).

(** An ASCII literal as a JavaScript string: one code unit per character.
    It is applied to literals of the sources that are pure ASCII (object
    keys, the separator [" "]). *)
Definition js (s : string) : jsstring :=
  N_of_ascii <$> list_ascii_of_string s.

(** [!s] is [true] exactly for the empty string. *)
Definition truthy (s : jsstring) : bool :=
  match s with [] => false | _ :: _ => true end.

(** ** [String.prototype.trim] *)

(** ECMAScript's WhiteSpace and LineTerminator code points: TAB, LF, VT, FF,
    CR, SP, NBSP, U+1680, U+2000..U+200A, LS, PS, U+202F, U+205F, U+3000 and
    the byte order mark U+FEFF. *)
Definition isWhiteSpace (c : N) : bool :=
  ((9 <=? c) && (c <=? 13)) || (c =? 32) || (c =? 160) || (c =? 5760)
  || ((8192 <=? c) && (c <=? 8202)) || (c =? 8232) || (c =? 8233)
  || (c =? 8239) || (c =? 8287) || (c =? 12288) || (c =? 65279).

Definition trimStart (s : jsstring) : jsstring := dropWhile isWhiteSpace s.

Definition trimEnd (s : jsstring) : jsstring := dropWhileEnd isWhiteSpace s.

Definition trim (s : jsstring) : jsstring := trimEnd (trimStart s).

(** A string of white space only. *)
Definition blank (s : jsstring) : Prop := Forall (λ c, isWhiteSpace c = true) s.

#[export] Instance blank_dec s : Decision (blank s).
Proof. unfold blank. apply _. Defined.

(** ** [split], indexing, [join], [slice] *)

(** [s.split(sep)] for a separator of one code unit: the pieces between the
    occurrences of [sep]; never the empty array. *)
Fixpoint split (sep : N) (s : jsstring) : list jsstring :=
  match s with
  | [] => [[]]
  | c :: s' =>
      if c =? sep then [] :: split sep s'
      else match split sep s' with
           | w :: ws => (c :: w) :: ws
           | [] => [[c]]
           end
  end.

(** [s[0]]: the first code unit as a string, or [undefined] ([None]). *)
Definition charAt0 (s : jsstring) : option jsstring :=
  match s with [] => None | c :: _ => Some [c] end.

(** [Array.prototype.join]: an [undefined] element contributes the empty
    string. *)
Fixpoint join (sep : jsstring) (l : list (option jsstring)) : jsstring :=
  match l with
  | [] => []
  | [x] => default [] x
  | x :: l' => default [] x ++ sep ++ join sep l'
  end.

(** [s.slice(b, e)] for indices [0 <= b <= e]. *)
Definition slice (b e : nat) (s : jsstring) : jsstring :=
  take (e - b) (drop b s).

(** ** [toUpperCase] *)

(** [String.prototype.toUpperCase] is a function of the runtime (it follows
    the Unicode case mappings).  The sources only call it; the development
    is parametric in it and records the one fact that it uses. *)
Class Unicode := {
  toUpperCase : jsstring → jsstring;
  toUpperCase_nil : toUpperCase [] = []
}.

(** The restriction to ASCII letters, to evaluate examples. *)
Definition ascii_toUpperCase (s : jsstring) : jsstring :=
  (λ c, if (97 <=? c) && (c <=? 122) then c - 32 else c) <$> s.

Definition ascii_unicode : Unicode :=
  {| toUpperCase := ascii_toUpperCase; toUpperCase_nil := eq_refl |}.

(** ** Property lookup on an object literal *)

(** What [obj[key]] can evaluate to when [obj] is a literal whose own
    properties are strings: an own property, nothing, or a member inherited
    from [Object.prototype] (a function, or the prototype object itself for
    [__proto__]). *)
Inductive JsValue :=
| VUndefined
| VString (s : string)
| VFunction
| VObject.

#[export] Instance JsValue_eq_dec : EqDecision JsValue.
Proof. solve_decision. Defined.

(** The function-valued properties of [Object.prototype]. *)
Definition objectPrototypeMethods : list jsstring :=
  js <$> ["constructor"; "__defineGetter__"; "__defineSetter__";
          "hasOwnProperty"; "__lookupGetter__"; "__lookupSetter__";
          "isPrototypeOf"; "propertyIsEnumerable"; "toString"; "valueOf";
          "toLocaleString"]%string.

Definition lookup_prototype (key : jsstring) : JsValue :=
  if decide (key = js "__proto__") then VObject
  else if decide (key ∈ objectPrototypeMethods) then VFunction
  else VUndefined.

Fixpoint lookup_literal (own : list (string * string)) (key : jsstring)
  : JsValue :=
  match own with
  | [] => lookup_prototype key
  | (k, v) :: own' =>
      if decide (key = js k) then VString v else lookup_literal own' key
  end.

(** ** Lemmas: [trim] *)

Lemma trim_nil_iff s : trim s = [] ↔ blank s.
Proof.
  unfold trim, trimEnd, trimStart, blank.
  rewrite dropWhileEnd_nil_iff, <-dropWhile_nil_iff, dropWhile_idemp.
  apply dropWhile_nil_iff.
Qed.

Lemma truthy_trim s : truthy (trim s) = bool_decide (¬ blank s).
Proof.
  destruct (trim s) eqn:E; simpl; symmetry.
  - apply bool_decide_eq_false. rewrite <-trim_nil_iff. tauto.
  - apply bool_decide_eq_true. rewrite <-trim_nil_iff. congruence.
Qed.

(** The guard [!s.trim()]. *)
Lemma not_truthy_trim s : negb (truthy (trim s)) = bool_decide (blank s).
Proof.
  rewrite truthy_trim. destruct (decide (blank s)).
  - by rewrite bool_decide_eq_false_2, bool_decide_eq_true_2 by tauto.
  - by rewrite bool_decide_eq_true_2, bool_decide_eq_false_2 by tauto.
Qed.

Lemma trimStart_trimEnd_comm_head s c k :
  trimStart s = c :: k → trimStart (trimEnd (c :: k)) = trimEnd (c :: k).
Proof.
  intros E. apply dropWhile_head in E.
  destruct (dropWhileEnd_prefix isWhiteSpace (c :: k)) as [k' Hk'].
  unfold trimStart, trimEnd.
  destruct (dropWhileEnd isWhiteSpace (c :: k)) as [|c' k''] eqn:E'; [done|].
  simplify_eq/=. by rewrite E.
Qed.

Lemma trim_idemp s : trim (trim s) = trim s.
Proof.
  unfold trim. destruct (trimStart s) as [|c k] eqn:E; [done|].
  rewrite (trimStart_trimEnd_comm_head s c k E).
  apply dropWhileEnd_idemp.
Qed.

Lemma trim_blank s : blank s → trim s = [].
Proof. apply trim_nil_iff. Qed.

Lemma trim_fixed c s d :
  isWhiteSpace c = false → isWhiteSpace d = false →
  trim (c :: s ++ [d]) = c :: s ++ [d].
Proof.
  intros Hc Hd. unfold trim, trimStart, trimEnd.
  rewrite dropWhile_fixed by done.
  by rewrite (app_comm_cons s [d] c), dropWhileEnd_snoc.
Qed.

(** ** Lemmas: [split] and [join] *)

Lemma split_nonempty sep s : split sep s ≠ [].
Proof. destruct s as [|c s]; simpl; [done|]. by repeat case_scrut. Qed.

Lemma split_cons_sep sep s : split sep (sep :: s) = [] :: split sep s.
Proof. simpl. by rewrite N.eqb_refl. Qed.

Lemma split_cons_other sep c s w ws :
  c ≠ sep → split sep s = w :: ws → split sep (c :: s) = (c :: w) :: ws.
Proof. intros Hc Hs. simpl. rewrite Hs. by apply N.eqb_neq in Hc as ->. Qed.

Lemma join_cons sep x y l :
  join sep (x :: y :: l) = default [] x ++ sep ++ join sep (y :: l).
Proof. done. Qed.

(** [s.split(sep).join(sep)] is [s]. *)
Lemma join_split sep s : join [sep] (Some <$> split sep s) = s.
Proof.
  induction s as [|c s IH]; [done|]. simpl split.
  pose proof (split_nonempty sep s) as Hne.
  destruct (N.eqb_spec c sep) as [->|Hc].
  - destruct (split sep s) as [|w ws] eqn:E; [done|].
    rewrite fmap_cons, fmap_cons, join_cons, <-fmap_cons, IH. done.
  - destruct (split sep s) as [|w ws] eqn:E; [done|].
    destruct ws as [|w' ws]; simpl in *; by rewrite <-IH.
Qed.

(** No piece contains the separator. *)
Lemma split_no_sep sep s : Forall (λ w, sep ∉ w) (split sep s).
Proof.
  induction s as [|c s IH]; simpl.
  - constructor; [apply not_elem_of_nil|constructor].
  - destruct (N.eqb_spec c sep) as [->|Hc].
    + constructor; [apply not_elem_of_nil|done].
    + destruct (split sep s) as [|w ws].
      * constructor; [|constructor]. rewrite list_elem_of_singleton. congruence.
      * apply Forall_cons in IH as [Hw Hws]. constructor; [|done].
        rewrite elem_of_cons. intros [?|?]; [congruence|done].
Qed.

(** A string without the separator is one piece. *)
Lemma split_one sep s : sep ∉ s → split sep s = [s].
Proof.
  induction s as [|c s IH]; [done|]. intros H.
  rewrite (split_cons_other sep c s s []); [done|set_solver|].
  apply IH. set_solver.
Qed.

Lemma split_app sep s t :
  sep ∉ s → split sep (s ++ sep :: t) = s :: split sep t.
Proof.
  induction s as [|c s IH]; intros H; simpl app.
  - apply split_cons_sep.
  - apply split_cons_other; [set_solver|]. apply IH. set_solver.
Qed.

(** ** Lemmas: [slice], [charAt0] *)

Lemma length_slice b e s : (length (slice b e s) ≤ e - b)%nat.
Proof. unfold slice. rewrite length_take. lia. Qed.

Lemma slice_0 e s : slice 0 e s = take e s.
Proof. unfold slice. by rewrite drop_0, Nat.sub_0_r. Qed.

Lemma charAt0_length s w : charAt0 s = Some w → length w = 1%nat.
Proof. destruct s; simpl; [done|]. by intros [= <-]. Qed.

(** ** Lemmas: lookup on a literal *)

(** A key that is none of the literal's own keys is looked up in the
    prototype. *)
Lemma lookup_literal_other own key :
  Forall (λ kv, key ≠ js kv.1) own →
  lookup_literal own key = lookup_prototype key.
Proof.
  induction 1 as [|[k v] own Hk _ IH]; [done|]. simpl in *.
  by rewrite decide_False.
Qed.
