(* ===== verification/Async.v ===== *)
(** * Async: handlers as resumptions

    An [async] function of the sources runs until it [await]s a call, is
    suspended, and continues with the response.  [Proc C E A] is the type of
    such computations: [C R] is a call that is answered with an [R], [E] is
    the type of the synchronous effects of a component (its [useState]
    setters, toasts, navigation, props callbacks), [A] the result.

    - [Ret], [Do], [Await] and [bind] with stdpp's monad notation, so that a
      handler is written in the order of its source lines;
    - [sync]: the synchronous segment of a computation, the effects up to
      the next [await] and what is left; this is what the event loop runs
      atomically;
    - [trace] and [result]: a whole run against a table of responses, as the
      list of effects and answered calls;
    - [proc_equiv], equality of all runs, with the monad laws and the
      [Proper] instances that let one rewrite under [bind]. *)

From S2P Require Import Prelude.

Section proc.
Context {C : Type → Type} {E : Type}.

(** ** Computations *)

Inductive Proc (A : Type) : Type :=
| Ret (a : A)
| Do (e : E) (k : Proc A)
| Await {R : Type} (c : C R) (k : R → Proc A).

#[global] Arguments Ret {A} a.
#[global] Arguments Do {A} e k.
#[global] Arguments Await {A R} c k.

Fixpoint bind {A B} (p : Proc A) (f : A → Proc B) : Proc B :=
  match p with
  | Ret a => f a
  | Do e k => Do e (bind k f)
  | Await c k => Await c (λ r, bind (k r) f)
  end.

(** One effect; one awaited call. *)
Definition perform (e : E) : Proc unit := Do e (Ret tt).

Definition await {R} (c : C R) : Proc R := Await c Ret.

(** ** The synchronous segment *)

(** Where a computation stands when the event loop gets control back:
    finished, or suspended on a call with its continuation. *)
Inductive Suspended (A : Type) : Type :=
| Finished (a : A)
| Waiting {R : Type} (c : C R) (k : R → Proc A).

#[global] Arguments Finished {A} a.
#[global] Arguments Waiting {A R} c k.

(** The effects performed before the first [await], in order, and the
    point reached. *)
Fixpoint sync {A} (p : Proc A) : list E * Suspended A :=
  match p with
  | Ret a => ([], Finished a)
  | Do e k => let '(es, s) := sync k in (e :: es, s)
  | Await c k => ([], Waiting c k)
  end.

(** ** Whole runs *)

(** One entry of a run: an effect, or a call with the response it got. *)
Inductive Event : Type :=
| EvDo (e : E)
| EvCall {R : Type} (c : C R) (r : R).

(** A table of responses: what each call is answered with. *)
Definition Oracle : Type := ∀ R, C R → R.

Fixpoint trace {A} (o : Oracle) (p : Proc A) : list Event :=
  match p with
  | Ret _ => []
  | Do e k => EvDo e :: trace o k
  | Await c k => EvCall c (o _ c) :: trace o (k (o _ c))
  end.

Fixpoint result {A} (o : Oracle) (p : Proc A) : A :=
  match p with
  | Ret a => a
  | Do _ k => result o k
  | Await c k => result o (k (o _ c))
  end.

(** The effects of a run, the calls left out. *)
Definition effects (t : list Event) : list E :=
  omap (λ ev, match ev with EvDo e => Some e | EvCall _ _ => None end) t.

(** The number of calls a run awaits. *)
Definition is_call (ev : Event) : bool :=
  match ev with EvDo _ => false | EvCall _ _ => true end.

Definition calls (t : list Event) : nat := length (filter is_call t).

(** ** Equivalence: the same runs *)

Definition proc_equiv {A} (p q : Proc A) : Prop :=
  ∀ o, trace o p = trace o q ∧ result o p = result o q.

#[global] Instance proc_equiv_equivalence A : Equivalence (@proc_equiv A).
Proof.
  split.
  - by intros p o.
  - intros p q H o. by destruct (H o) as [-> ->].
  - intros p q r H1 H2 o. destruct (H1 o) as [-> ->]. apply H2.
Qed.

Lemma trace_bind {A B} o (p : Proc A) (f : A → Proc B) :
  trace o (bind p f) = trace o p ++ trace o (f (result o p)).
Proof. induction p as [a|e k IH|R c k IH]; simpl; [done|by f_equal..]. Qed.

Lemma result_bind {A B} o (p : Proc A) (f : A → Proc B) :
  result o (bind p f) = result o (f (result o p)).
Proof. induction p as [a|e k IH|R c k IH]; simpl; done. Qed.

#[global] Instance bind_proper A B :
  Proper (proc_equiv ==> pointwise_relation A proc_equiv ==> proc_equiv)
         (@bind A B).
Proof.
  intros p q Hpq f g Hfg o. rewrite !trace_bind, !result_bind.
  destruct (Hpq o) as [-> ->]. by destruct (Hfg (result o q) o) as [-> ->].
Qed.

#[global] Instance trace_proper A o : Proper (proc_equiv ==> eq) (@trace A o).
Proof. intros p q H. apply H. Qed.

#[global] Instance result_proper A o : Proper (proc_equiv ==> eq) (@result A o).
Proof. intros p q H. apply H. Qed.

(** The monad laws. *)
Lemma bind_ret_l {A B} (a : A) (f : A → Proc B) : bind (Ret a) f = f a.
Proof. done. Qed.

Lemma bind_ret_r {A} (p : Proc A) : proc_equiv (bind p Ret) p.
Proof.
  intros o. rewrite trace_bind, result_bind. simpl. by rewrite app_nil_r.
Qed.

Lemma bind_assoc {A B D} (p : Proc A) (f : A → Proc B) (g : B → Proc D) :
  proc_equiv (bind (bind p f) g) (bind p (λ a, bind (f a) g)).
Proof.
  intros o. split.
  - by rewrite !trace_bind, !result_bind, app_assoc.
  - by rewrite !result_bind.
Qed.

(** ** The synchronous segment and whole runs *)

(** A run starts with the effects of the synchronous segment; if the
    computation is then suspended, the run goes on with the continuation
    applied to the response. *)
Lemma trace_sync {A} o (p : Proc A) :
  trace o p =
  (EvDo <$> (sync p).1) ++
  match (sync p).2 with
  | Finished _ => []
  | Waiting c k => EvCall c (o _ c) :: trace o (k (o _ c))
  end.
Proof.
  induction p as [a|e k IH|R c k IH]; simpl; [done| |done].
  rewrite IH. by destruct (sync k).
Qed.

(** The synchronous segment of [bind p f]: if [p] finishes without
    awaiting, the segment runs on into [f]; otherwise it is the segment of
    [p], and [f] is appended to the continuation. *)
Lemma sync_bind {A B} (p : Proc A) (f : A → Proc B) :
  sync (bind p f) =
  match sync p with
  | (es, Finished a) => (es ++ (sync (f a)).1, (sync (f a)).2)
  | (es, Waiting c k) => (es, Waiting c (λ r, bind (k r) f))
  end.
Proof.
  induction p as [a|e k IH|R c k IH]; simpl; [by destruct (sync (f a))| |done].
  rewrite IH. by destruct (sync k) as [es []].
Qed.

Lemma effects_app (t1 t2 : list Event) :
  effects (t1 ++ t2) = effects t1 ++ effects t2.
Proof. apply omap_app. Qed.

Lemma effects_cons_do e (t : list Event) : effects (EvDo e :: t) = e :: effects t.
Proof. done. Qed.

Lemma effects_cons_call {R} (c : C R) r (t : list Event) :
  effects (EvCall c r :: t) = effects t.
Proof. done. Qed.

End proc.

#[global] Arguments Proc : clear implicits.
#[global] Arguments Suspended : clear implicits.
#[global] Arguments Event : clear implicits.
#[global] Arguments Oracle : clear implicits.

(** stdpp's monad notation ([x ← p; q] and [p ;; q]) for computations. *)
#[export] Instance proc_mret {C E} : MRet (Proc C E) := λ A, Ret.
#[export] Instance proc_mbind {C E} : MBind (Proc C E) := λ A B f p, bind p f.

#[export] Hint Rewrite @trace_bind @result_bind @effects_app : gct.

(** ** Folding the effects of a run into a state *)

Section apply.
Context {C : Type → Type} {E St : Type} (ap : E → St → St).

(** The state after performing the effects [es] in order. *)
Definition apply_all (es : list E) (st : St) : St :=
  foldl (λ s e, ap e s) st es.

Lemma apply_all_app es1 es2 st :
  apply_all (es1 ++ es2) st = apply_all es2 (apply_all es1 st).
Proof. apply foldl_app. Qed.

Lemma apply_all_cons e es st : apply_all (e :: es) st = apply_all es (ap e st).
Proof. done. Qed.

(** The state after a run that started in [st]. *)
Definition final (t : list (Event C E)) (st : St) : St :=
  apply_all (effects t) st.

(** [P] holds of the state at every point where the run is suspended on a
    call. *)
Fixpoint at_calls (P : St → bool) (t : list (Event C E)) (st : St) : bool :=
  match t with
  | [] => true
  | EvDo e :: t' => at_calls P t' (ap e st)
  | EvCall _ _ :: t' => P st && at_calls P t' st
  end.

Lemma final_nil st : final [] st = st.
Proof. done. Qed.

Lemma final_app t1 t2 st : final (t1 ++ t2) st = final t2 (final t1 st).
Proof. unfold final. by rewrite effects_app, apply_all_app. Qed.

Lemma at_calls_app P t1 t2 st :
  at_calls P (t1 ++ t2) st = at_calls P t1 st && at_calls P t2 (final t1 st).
Proof.
  revert st. induction t1 as [|[e|R c r] t1 IH]; intros st; simpl; [done|..].
  - by rewrite IH.
  - by rewrite IH, andb_assoc.
Qed.

(** A property of the state that every effect preserves is preserved by
    any sequence of effects. *)
Lemma apply_all_preserves (P : St → Prop) es st :
  (∀ e s, e ∈ es → P s → P (ap e s)) → P st → P (apply_all es st).
Proof.
  revert st. induction es as [|e es IH]; intros st Hstep Hst; [done|].
  rewrite apply_all_cons. apply IH.
  - intros e' s He'. apply Hstep. by right.
  - apply Hstep; [by left|done].
Qed.

End apply.

#[export] Hint Rewrite @final_app @at_calls_app : gct.

(** ** Runs against a server with state *)

(** [exec srv p s] runs [p] to its end against a server in state [s] that
    answers each call when it is awaited: the run, the result and the
    server afterwards.  Nothing else talks to the server meanwhile. *)
Section server.
Context {C : Type → Type} {E S : Type} (srv : ∀ R, C R → S → R * S).

Fixpoint exec {A} (p : Proc C E A) (s : S) : list (Event C E) * A * S :=
  match p with
  | Ret a => ([], a, s)
  | Do e k => let '(t, a, s') := exec k s in (EvDo e :: t, a, s')
  | Await c k =>
      let '(t, a, s') := exec (k (srv _ c s).1) (srv _ c s).2 in
      (EvCall c (srv _ c s).1 :: t, a, s')
  end.

Definition exec_trace {A} (p : Proc C E A) (s : S) : list (Event C E) :=
  (exec p s).1.1.

Definition exec_server {A} (p : Proc C E A) (s : S) : S := (exec p s).2.

Lemma exec_trace_do {A} e (k : Proc C E A) s :
  exec_trace (Do e k) s = EvDo e :: exec_trace k s.
Proof. unfold exec_trace. simpl. by destruct (exec k s) as [[??]?]. Qed.

Lemma exec_trace_await {A R} (c : C R) (k : R → Proc C E A) s :
  exec_trace (Await c k) s
  = EvCall c (srv _ c s).1 :: exec_trace (k (srv _ c s).1) (srv _ c s).2.
Proof. unfold exec_trace. simpl. by destruct (exec _ _) as [[??]?]. Qed.

Lemma exec_server_do {A} e (k : Proc C E A) s :
  exec_server (Do e k) s = exec_server k s.
Proof. unfold exec_server. simpl. by destruct (exec k s) as [[??]?]. Qed.

Lemma exec_server_await {A R} (c : C R) (k : R → Proc C E A) s :
  exec_server (Await c k) s = exec_server (k (srv _ c s).1) (srv _ c s).2.
Proof. unfold exec_server. simpl. by destruct (exec _ _) as [[??]?]. Qed.

(** A run that awaits nothing leaves the server alone. *)
Lemma exec_server_calls {A} (p : Proc C E A) s :
  calls (exec_trace p s) = 0 → exec_server p s = s.
Proof.
  revert s. induction p as [a|e k IH|R c k IH]; intros s; [done|..].
  - rewrite exec_trace_do, exec_server_do. apply IH.
  - by rewrite exec_trace_await.
Qed.

End server.

(** A server without state is a table of responses. *)
Lemma exec_stateless {C E S A} (o : Oracle C) (p : Proc C E A) (s : S) :
  exec (λ R c s, (o R c, s)) p s = (trace o p, result o p, s).
Proof.
  induction p as [a|e k IH|R c k IH]; simpl; [done|..].
  - by rewrite IH.
  - by rewrite IH.
Qed.

#[export] Hint Rewrite @exec_trace_do @exec_trace_await
  @exec_server_do @exec_server_await : gct.

(** ** Wiring a component into its parent *)

(** A component performs effects of its own type [E]; its parent sees
    them as effects of type [E'], and gives it callbacks: effects of the
    component that run a procedure of the parent. *)
Section wiring.
Context {C : Type → Type} {E E' : Type}.

Definition perform_all (es : list E') : Proc C E' unit :=
  foldr Do (Ret tt) es.

(** A procedure that awaits nothing. *)
Fixpoint call_free {A} (p : Proc C E' A) : bool :=
  match p with
  | Ret _ => true
  | Do _ k => call_free k
  | Await _ _ => false
  end.

(** A call of an async function that is not awaited: the callee runs up
    to its first [await]; the caller goes on; the callee resumes when the
    response arrives.  [rest], the caller's remainder, is meant to be
    [call_free]: otherwise the order in which the two resume depends on
    the order of the responses, which a single procedure cannot say. *)
Definition detach {A} (child : Proc C E' unit) (rest : Proc C E' A)
  : Proc C E' A :=
  perform_all (sync child).1 ;;
  a ← rest ;
  match (sync child).2 with
  | Finished _ => mret a
  | Waiting c k => r ← await c ; k r ;; mret a
  end.

(** [wire f cb p]: the procedure [p] of the component as the parent sees
    it.  [cb e] is the parent's procedure that the effect [e] calls, if
    [e] is a callback. *)
Fixpoint wire {A} (f : E → E') (cb : E → option (Proc C E' unit))
    (p : Proc C E A) : Proc C E' A :=
  match p with
  | Ret a => Ret a
  | Do e k =>
      Do (f e) (match cb e with
                | Some child => detach child (wire f cb k)
                | None => wire f cb k
                end)
  | Await c k => Await c (λ r, wire f cb (k r))
  end.

(** No callback: the effects are renamed and nothing else changes. *)
Definition map_effects {A} (f : E → E') (p : Proc C E A) : Proc C E' A :=
  wire f (λ _, None) p.

Definition map_event (f : E → E') (ev : Event C E) : Event C E' :=
  match ev with
  | EvDo e => EvDo (f e)
  | EvCall c r => EvCall c r
  end.

Lemma trace_map_effects {A} f o (p : Proc C E A) :
  trace o (map_effects f p) = map_event f <$> trace o p.
Proof.
  unfold map_effects.
  induction p as [a|e k IH|R c k IH]; csimpl; by rewrite ?IH.
Qed.

Lemma result_map_effects {A} f o (p : Proc C E A) :
  result o (map_effects f p) = result o p.
Proof.
  unfold map_effects. induction p as [a|e k IH|R c k IH]; simpl; by rewrite ?IH.
Qed.

Lemma effects_map_event f (t : list (Event C E)) :
  effects (map_event f <$> t) = f <$> effects t.
Proof.
  unfold effects. induction t as [|[e|R c r] t IH]; csimpl; by rewrite ?IH.
Qed.

Lemma trace_perform_all o es :
  trace o (perform_all es) = EvDo <$> es.
Proof. induction es as [|e es IH]; simpl; by f_equal. Qed.

End wiring.

(** ** Case analysis on the responses of a run *)

(** [oracle_cases o] destructs every response of [o] that the goal
    inspects, one call after the other. *)
Ltac oracle_cases o :=
  repeat (match goal with
          | |- context [o ?R ?c] =>
              let r := fresh "r" in
              let E := fresh "Hr" in
              destruct (o R c) as [r|] eqn:E
          end; simpl).
