(* ===== verification/Model.v ===== *)
(** * Model: the data of the sources and the calls of the client

    The records the three source files declare or build:

    - [Profile], [Comment], [Feedback]: the interfaces of Index.tsx:12-31
      and FeedbackCard.tsx:13-21 (the shape of one row of the feed query);
    - [CommentInsert], [FeedbackInsert]: the object literals passed to
      [insert] (FeedbackCard.tsx:79-83, NewFeedbackDialog.tsx:39-44);
    - [User], [Session]: the parts of the client library's objects that the
      sources read ([user.id], [session.user]);
    - [Call]: the calls of the Supabase client that the handlers await, each
      indexed by the type of what the handler destructures from the
      response.

    Identifiers (UUID strings in the sources) are opaque keys: only
    equality is used on them (React keys, foreign keys), so they are
    naturals here.  [created_at] is an ISO timestamp string in the sources,
    which pass it to [new Date] and never compare it; it is the number that
    the backend orders by. *)

From S2P Require Import Prelude JsString Async.

Abbreviation Id := N (only parsing).
Abbreviation Timestamp := N (only parsing).

(** ** Rows of the feed query *)

(** [profiles: { full_name: string; class: string }]. *)
Record Profile := {
  full_name : jsstring;
  class : jsstring
}.

(** One element of [comments] (Index.tsx:22-30; FeedbackCard.tsx:13-21). *)
Record Comment := {
  cm_id : Id;
  cm_content : jsstring;
  cm_created_at : Timestamp;
  cm_profiles : Profile
}.

(** [interface Feedback] (Index.tsx:12-31). *)
Record Feedback := {
  fb_id : Id;
  fb_title : jsstring;
  fb_content : jsstring;
  fb_category : jsstring;
  fb_created_at : Timestamp;
  fb_profiles : Profile;
  fb_comments : list Comment
}.

#[export] Instance Profile_eq_dec : EqDecision Profile.
Proof. solve_decision. Defined.
#[export] Instance Comment_eq_dec : EqDecision Comment.
Proof. solve_decision. Defined.
#[export] Instance Feedback_eq_dec : EqDecision Feedback.
Proof. solve_decision. Defined.

(** ** What the handlers read of the client's objects *)

(** [user.id] is all the sources read of a user. *)
Record User := { uid : Id }.

(** [session.user]. *)
Record Session := { session_user : User }.

#[export] Instance User_eq_dec : EqDecision User.
Proof. solve_decision. Defined.
#[export] Instance Session_eq_dec : EqDecision Session.
Proof. solve_decision. Defined.

(** ** Rows written *)

(** [{ feedback_id: id, user_id: user.id, content: newComment }]. *)
Record CommentInsert := {
  ci_feedback_id : Id;
  ci_user_id : Id;
  ci_content : jsstring
}.

(** [{ user_id: user.id, category, title, content }]. *)
Record FeedbackInsert := {
  fi_user_id : Id;
  fi_category : jsstring;
  fi_title : jsstring;
  fi_content : jsstring
}.

#[export] Instance CommentInsert_eq_dec : EqDecision CommentInsert.
Proof. solve_decision. Defined.
#[export] Instance FeedbackInsert_eq_dec : EqDecision FeedbackInsert.
Proof. solve_decision. Defined.

(** ** The client's calls *)

(** The [error] member of a response: the sources only test whether it is
    there. *)
Inductive ApiError := ApiErr.

#[export] Instance ApiError_eq_dec : EqDecision ApiError.
Proof. solve_decision. Defined.

(** [{ data, error }] of the feed query. *)
Record QueryResponse := {
  data : option (list Feedback);
  error : option ApiError
}.

(** The calls, with what the handler binds from the response:
    - [supabase.auth.getSession()]: [data.session] (Index.tsx:41);
    - [supabase.auth.getUser()]: [data.user] (FeedbackCard.tsx:69,
      NewFeedbackDialog.tsx:29);
    - [supabase.auth.signOut()]: [error] (Index.tsx:89);
    - [from("feedback").select(...).order("created_at", desc)]:
      [{ data, error }] (Index.tsx:66-78);
    - [from("feedback").insert(row)] and [from("comments").insert(row)]:
      [error] (NewFeedbackDialog.tsx:37-44, FeedbackCard.tsx:77-83). *)
Inductive Call : Type → Type :=
| GetSession : Call (option Session)
| GetUser : Call (option User)
| SignOut : Call (option ApiError)
| SelectFeedback : Call QueryResponse
| InsertFeedback (row : FeedbackInsert) : Call (option ApiError)
| InsertComment (row : CommentInsert) : Call (option ApiError).

(** A call that writes a row. *)
Definition is_write {R} (c : Call R) : bool :=
  match c with
  | InsertFeedback _ | InsertComment _ => true
  | _ => false
  end.

(** A call that reads the feed. *)
Definition is_query {R} (c : Call R) : bool :=
  match c with SelectFeedback => true | _ => false end.

(** The rows a run writes, in order. *)
Definition Written : Type := FeedbackInsert + CommentInsert.

Definition written_by {R} (c : Call R) : option Written :=
  match c with
  | InsertFeedback row => Some (inl row)
  | InsertComment row => Some (inr row)
  | _ => None
  end.

Definition writes {E} (t : list (Event Call E)) : list Written :=
  omap (λ ev, match ev with
              | EvDo _ => None
              | EvCall c _ => written_by c
              end) t.

(** The number of feed queries a run issues. *)
Definition is_query_event {E} (ev : Event Call E) : bool :=
  match ev with EvDo _ => false | EvCall c _ => is_query c end.

Definition queries {E} (t : list (Event Call E)) : nat :=
  length (filter is_query_event t).

(** ** Notifications *)

(** A toast of the notification library: [toast.error(m)] or
    [toast.success(m)]. *)
Inductive Toast :=
| ToastError (m : string)
| ToastSuccess (m : string).

#[export] Instance Toast_eq_dec : EqDecision Toast.
Proof. solve_decision. Defined.

(** ** Tables of responses *)

(** A table of responses given by one answer per kind of call; an insert is
    answered by a function of the row. *)
Record Answers := {
  on_getSession : option Session;
  on_getUser : option User;
  on_signOut : option ApiError;
  on_select : QueryResponse;
  on_insertFeedback : FeedbackInsert → option ApiError;
  on_insertComment : CommentInsert → option ApiError
}.

Definition answer (a : Answers) : Oracle Call :=
  λ R c,
    match c in Call R return R with
    | GetSession => on_getSession a
    | GetUser => on_getUser a
    | SignOut => on_signOut a
    | SelectFeedback => on_select a
    | InsertFeedback row => on_insertFeedback a row
    | InsertComment row => on_insertComment a row
    end.

(** Every table of responses is given by such answers. *)
Lemma answer_surjective (o : Oracle Call) :
  ∃ a, ∀ R (c : Call R), o R c = answer a R c.
Proof.
  exists {| on_getSession := o _ GetSession; on_getUser := o _ GetUser;
            on_signOut := o _ SignOut; on_select := o _ SelectFeedback;
            on_insertFeedback := λ row, o _ (InsertFeedback row);
            on_insertComment := λ row, o _ (InsertComment row) |}.
  by intros R [].
Qed.

Lemma writes_app {E} (t1 t2 : list (Event Call E)) :
  writes (t1 ++ t2) = writes t1 ++ writes t2.
Proof. apply omap_app. Qed.

Lemma queries_app {E} (t1 t2 : list (Event Call E)) :
  queries (t1 ++ t2) = queries t1 + queries t2.
Proof. unfold queries. by rewrite filter_app, length_app. Qed.

#[export] Hint Rewrite @writes_app @queries_app : gct.
