(* ===== verification/Backend.v ===== *)
(** * Backend: what the application relies on

    The contract between the application and the backend collaborator
    (specification, section 6), as a class.  A backend state answers the
    six calls of the client; the contract is stated in terms of three
    observations of it: the session, the profile of an identity, and the
    feed (what the loader's query returns when it goes through).

    - [Env]: the circumstances of one call that the client does not
      control: whether it goes through, the server's clock, the
      identifier the database generates;
    - [newer]: the order of the feed ([created_at] descending);
    - [posted], [commented], [with_comment]: the feedback a new row shows
      as, the comment a new row shows as, and a feed entry with one more
      comment;
    - [BackendSpec]: the operations and their laws;
    - consequences of the laws that the scenarios use: the entry that was
      just posted heads the feed when the clock has advanced.

    The theorems of [Scenarios] and [App] are proved against this class;
    [Supabase] gives a model of the tables and shows that it satisfies
    it. *)

From S2P Require Import Prelude JsString Async Model.

#[local] Open Scope N_scope.

(** ** Circumstances of a call *)

Record Env := {
  env_ok : bool;
  env_now : Timestamp;
  env_id : Id
}.

(** ** The order of the feed *)

(** [f] is not older than [g]. *)
Definition newer (f g : Feedback) : Prop := fb_created_at g ≤ fb_created_at f.

#[export] Instance newer_dec : RelDecision newer.
Proof. intros f g. unfold newer. apply _. Defined.

#[export] Instance newer_total : Total newer.
Proof. intros f g. unfold newer. lia. Qed.

#[export] Instance newer_trans : Transitive newer.
Proof. intros f g h. unfold newer. lia. Qed.

#[export] Instance newer_refl : Reflexive newer.
Proof. intros f. unfold newer. lia. Qed.

(** ** What a write adds *)

(** The feed entry of a row just inserted: the author's profile, no
    comment yet. *)
Definition posted (ε : Env) (row : FeedbackInsert) (author : Profile)
  : Feedback :=
  {| fb_id := env_id ε;
     fb_title := fi_title row;
     fb_content := fi_content row;
     fb_category := fi_category row;
     fb_created_at := env_now ε;
     fb_profiles := author;
     fb_comments := [] |}.

Definition commented (ε : Env) (row : CommentInsert) (author : Profile)
  : Comment :=
  {| cm_id := env_id ε;
     cm_content := ci_content row;
     cm_created_at := env_now ε;
     cm_profiles := author |}.

(** The entry [f] with the comment [c] appended if [f] is the feedback
    [fid], and [f] itself otherwise. *)
Definition with_comment (fid : Id) (c : Comment) (f : Feedback) : Feedback :=
  if decide (fb_id f = fid)
  then {| fb_id := fb_id f; fb_title := fb_title f;
          fb_content := fb_content f; fb_category := fb_category f;
          fb_created_at := fb_created_at f; fb_profiles := fb_profiles f;
          fb_comments := fb_comments f ++ [c] |}
  else f.

(** The two responses of the feed query. *)
Definition rows_response (l : list Feedback) : QueryResponse :=
  {| data := Some l; error := None |}.

Definition error_response : QueryResponse :=
  {| data := None; error := Some ApiErr |}.

(** ** The contract *)

Class BackendSpec (B : Type) := {
  (** One call: the response and the backend afterwards. *)
  serve : ∀ {R}, Call R → Env → B → R * B;
  (** Observations. *)
  session_of : B → option Session;
  profile_of : B → Id → Profile;
  feed_of : B → list Feedback;
  clock_of : B → Timestamp;
  (** The invariant of the backend, and the circumstances a database can
      produce (a new identifier, a clock that does not run backwards). *)
  wf : B → Prop;
  admissible : Env → B → Prop;

  serve_wf {R} (c : Call R) ε b :
    wf b → admissible ε b → wf (serve c ε b).2;
  serve_profile {R} (c : Call R) ε b :
    profile_of (serve c ε b).2 = profile_of b;
  (** Nothing in the feed is dated after the clock, which a call moves to
      the time of the call at most. *)
  feed_clock b f : wf b → f ∈ feed_of b → fb_created_at f ≤ clock_of b;
  admissible_clock ε b : admissible ε b → clock_of b ≤ env_now ε;
  admissible_fresh ε b : admissible ε b → env_id ε ∉ fb_id <$> feed_of b;
  (** The feed is ordered, newest first, and its identifiers are unique. *)
  feed_sorted b : wf b → StronglySorted newer (feed_of b);
  feed_nodup b : wf b → NoDup (fb_id <$> feed_of b);

  (** Authentication. *)
  serve_getSession ε b : serve GetSession ε b = (session_of b, b);
  serve_getUser ε b :
    serve GetUser ε b
    = (if env_ok ε then session_user <$> session_of b else None, b);
  serve_signOut_response ε b :
    (serve SignOut ε b).1 = if env_ok ε then None else Some ApiErr;
  serve_signOut_session ε b :
    session_of (serve SignOut ε b).2
    = if env_ok ε then None else session_of b;
  serve_signOut_feed ε b : feed_of (serve SignOut ε b).2 = feed_of b;

  (** The query: all rows when it goes through; it changes nothing. *)
  serve_select ε b :
    serve SelectFeedback ε b
    = (if env_ok ε then rows_response (feed_of b) else error_response, b);

  (** Writes go through exactly when the call does and there is a
      session (and, for a comment, the feedback exists); a refused write
      changes nothing; an accepted one adds exactly the row given. *)
  serve_insert_feedback_response ε row b :
    (serve (InsertFeedback row) ε b).1 = None
    ↔ env_ok ε = true ∧ is_Some (session_of b);
  serve_insert_feedback_refused ε row b e :
    (serve (InsertFeedback row) ε b).1 = Some e →
    (serve (InsertFeedback row) ε b).2 = b;
  serve_insert_feedback_accepted ε row b :
    wf b → admissible ε b →
    (serve (InsertFeedback row) ε b).1 = None →
    let b' := (serve (InsertFeedback row) ε b).2 in
    session_of b' = session_of b ∧
    clock_of b' = env_now ε ∧
    feed_of b' ≡ₚ posted ε row (profile_of b (fi_user_id row)) :: feed_of b;
  serve_insert_comment_response ε row b :
    (serve (InsertComment row) ε b).1 = None
    ↔ env_ok ε = true ∧ is_Some (session_of b) ∧
      ci_feedback_id row ∈ fb_id <$> feed_of b;
  serve_insert_comment_refused ε row b e :
    (serve (InsertComment row) ε b).1 = Some e →
    (serve (InsertComment row) ε b).2 = b;
  serve_insert_comment_accepted ε row b :
    (serve (InsertComment row) ε b).1 = None →
    let b' := (serve (InsertComment row) ε b).2 in
    session_of b' = session_of b ∧
    feed_of b'
    = with_comment (ci_feedback_id row)
                   (commented ε row (profile_of b (ci_user_id row)))
      <$> feed_of b
}.

#[global] Arguments serve {B _ R} c ε b.

(** ** Facts about feeds *)

Lemma newer_with_comment fid c f g :
  newer (with_comment fid c f) (with_comment fid c g) ↔ newer f g.
Proof. unfold newer, with_comment. by repeat case_decide. Qed.

Lemma fb_id_with_comment fid c f : fb_id (with_comment fid c f) = fb_id f.
Proof. unfold with_comment. by case_decide. Qed.

Lemma fb_created_at_with_comment fid c f :
  fb_created_at (with_comment fid c f) = fb_created_at f.
Proof. unfold with_comment. by case_decide. Qed.

Lemma with_comment_same c f :
  fb_comments (with_comment (fb_id f) c f) = fb_comments f ++ [c].
Proof. unfold with_comment. by rewrite decide_True. Qed.

Lemma with_comment_other fid c f : fb_id f ≠ fid → with_comment fid c f = f.
Proof. unfold with_comment. intros. by rewrite decide_False. Qed.

(** Adding a comment keeps the feed ordered. *)
Lemma StronglySorted_with_comment fid c l :
  StronglySorted newer l → StronglySorted newer (with_comment fid c <$> l).
Proof.
  induction 1 as [|f l Hl IH Hf]; csimpl; constructor; [done|].
  rewrite Forall_fmap. eapply Forall_impl; [done|].
  intros g. by rewrite <-(newer_with_comment fid c f g).
Qed.

(** ** Consequences of the contract *)

Section spec.
Context `{BackendSpec B}.
Implicit Types (b : B) (ε : Env).

(** The clock has advanced since the newest entry. *)
Definition strictly_later ε b : Prop := clock_of b < env_now ε.

(** A call that goes through, with a new identifier and a later time. *)
Definition goes_through ε b : Prop :=
  env_ok ε = true ∧ admissible ε b.

(** After an accepted feedback, the feed starts with the new entry if the
    clock has advanced, and the rest is the old feed up to the order of
    entries with equal dates. *)
Lemma feed_after_post ε row b :
  wf b → admissible ε b → strictly_later ε b →
  (serve (InsertFeedback row) ε b).1 = None →
  ∃ rest,
    feed_of (serve (InsertFeedback row) ε b).2
    = posted ε row (profile_of b (fi_user_id row)) :: rest ∧
    rest ≡ₚ feed_of b.
Proof.
  intros Hwf Hadm Hlater Hok.
  destruct (serve_insert_feedback_accepted ε row b Hwf Hadm Hok)
    as (_ & _ & Hperm).
  pose proof (feed_sorted _ (serve_wf (InsertFeedback row) ε b Hwf Hadm))
    as Hsorted.
  destruct (feed_of (serve _ ε b).2) as [|h rest] eqn:E.
  { by apply Permutation_nil_cons in Hperm. }
  assert (h = posted ε row (profile_of b (fi_user_id row))) as ->.
  { eapply StronglySorted_head_unique; [done|by rewrite Hperm; left|].
    intros y Hy Hnew. rewrite Hperm in Hy.
    apply elem_of_cons in Hy as [->|Hy]; [done|].
    apply (feed_clock b y Hwf) in Hy.
    unfold newer, strictly_later in *. simpl in *. lia. }
  exists rest. split; [done|]. by apply (inj (cons _)) in Hperm.
Qed.

(** Two queries with nothing in between return the same response. *)
Lemma select_twice ε1 ε2 b :
  env_ok ε1 = env_ok ε2 →
  (serve SelectFeedback ε2 (serve SelectFeedback ε1 b).2).1
  = (serve SelectFeedback ε1 b).1.
Proof. intros Hok. rewrite !serve_select. simpl. by rewrite Hok. Qed.

(** An accepted comment appears once, last, under its feedback, and
    nowhere else. *)
Lemma feed_after_comment ε row b f :
  (serve (InsertComment row) ε b).1 = None →
  f ∈ feed_of b →
  ∃ f', f' ∈ feed_of (serve (InsertComment row) ε b).2 ∧
        fb_id f' = fb_id f ∧
        fb_comments f' =
          if decide (fb_id f = ci_feedback_id row)
          then fb_comments f
               ++ [commented ε row (profile_of b (ci_user_id row))]
          else fb_comments f.
Proof.
  intros Hok Hf.
  destruct (serve_insert_comment_accepted ε row b Hok) as [_ ->].
  eexists. split; [by apply list_elem_of_fmap_2|].
  unfold with_comment. by case_decide.
Qed.

End spec.
