(* ===== verification/Supabase.v ===== *)
(** * Supabase: the backend collaborator

    The sources only call the backend; this file models it from the
    specification (sections 3 and 6): three record kinds (profile,
    feedback, comment), the session of the client, and one operation per
    call of the client.

    - [FeedbackRow], [CommentRow], [Backend]: the tables and the session;
    - [select_feed]: the query of the loader: every feedback row joined
      with its author's profile and with its comments, each joined with
      its author's profile, ordered by [created_at], newest first;
    - [supabase_serve]: one call against the backend: the response and
      the backend afterwards;
    - [backend_wf]: identifiers are unique, comments refer to stored
      feedback, no row is dated after the clock;
    - [supabase_spec]: this model provides the contract [BackendSpec]
      that the application's theorems are proved against.

    Lemmas: the query returns a permutation of the joined table that is
    sorted; [supabase_serve] preserves [backend_wf]; reads and failed
    writes leave the backend alone; a successful insert adds exactly the
    row given, dated by the clock; a comment is appended to the feedback
    it refers to and the order of the feed is unchanged. *)

From S2P Require Import Prelude JsString Async Model Backend.

#[local] Open Scope N_scope.

(** ** Tables *)

Record FeedbackRow := {
  fr_id : Id;
  fr_user_id : Id;
  fr_category : jsstring;
  fr_title : jsstring;
  fr_content : jsstring;
  fr_created_at : Timestamp
}.

Record CommentRow := {
  cr_id : Id;
  cr_feedback_id : Id;
  cr_user_id : Id;
  cr_content : jsstring;
  cr_created_at : Timestamp
}.

(** The tables hold their rows in the order of insertion.  Every identity
    has a profile, which this application never changes. *)
Record Backend := {
  profiles : Id → Profile;
  feedback_tbl : list FeedbackRow;
  comments_tbl : list CommentRow;
  session : option Session;
  clock : Timestamp
}.

(** ** The feed query *)

Definition join_comment (b : Backend) (c : CommentRow) : Comment :=
  {| cm_id := cr_id c;
     cm_content := cr_content c;
     cm_created_at := cr_created_at c;
     cm_profiles := profiles b (cr_user_id c) |}.

Definition comments_of (b : Backend) (fid : Id) : list CommentRow :=
  filter (λ c, cr_feedback_id c = fid) (comments_tbl b).

Definition join_feedback (b : Backend) (f : FeedbackRow) : Feedback :=
  {| fb_id := fr_id f;
     fb_title := fr_title f;
     fb_content := fr_content f;
     fb_category := fr_category f;
     fb_created_at := fr_created_at f;
     fb_profiles := profiles b (fr_user_id f);
     fb_comments := join_comment b <$> comments_of b (fr_id f) |}.

(** [select *, profiles(...), comments(..., profiles(...))
     order by created_at desc]. *)
Definition select_feed (b : Backend) : list Feedback :=
  merge_sort newer (join_feedback b <$> feedback_tbl b).

(** ** Writes *)

Definition new_feedback_row (ε : Env) (row : FeedbackInsert) : FeedbackRow :=
  {| fr_id := env_id ε;
     fr_user_id := fi_user_id row;
     fr_category := fi_category row;
     fr_title := fi_title row;
     fr_content := fi_content row;
     fr_created_at := env_now ε |}.

Definition new_comment_row (ε : Env) (row : CommentInsert) : CommentRow :=
  {| cr_id := env_id ε;
     cr_feedback_id := ci_feedback_id row;
     cr_user_id := ci_user_id row;
     cr_content := ci_content row;
     cr_created_at := env_now ε |}.

Definition insert_feedback (ε : Env) (row : FeedbackInsert) (b : Backend)
  : Backend :=
  {| profiles := profiles b;
     feedback_tbl := feedback_tbl b ++ [new_feedback_row ε row];
     comments_tbl := comments_tbl b;
     session := session b;
     clock := env_now ε |}.

Definition insert_comment (ε : Env) (row : CommentInsert) (b : Backend)
  : Backend :=
  {| profiles := profiles b;
     feedback_tbl := feedback_tbl b;
     comments_tbl := comments_tbl b ++ [new_comment_row ε row];
     session := session b;
     clock := env_now ε |}.

Definition sign_out (b : Backend) : Backend :=
  {| profiles := profiles b;
     feedback_tbl := feedback_tbl b;
     comments_tbl := comments_tbl b;
     session := None;
     clock := clock b |}.

(** A write is let through when the call goes through and there is a
    session ("must be logged in to write"). *)
Definition may_write (ε : Env) (b : Backend) : bool :=
  env_ok ε && bool_decide (is_Some (session b)).

(** A comment must refer to a stored feedback. *)
Definition feedback_exists (b : Backend) (fid : Id) : bool :=
  bool_decide (fid ∈ fr_id <$> feedback_tbl b).

(** ** One call *)

Definition supabase_serve {R} (c : Call R) (ε : Env) (b : Backend)
  : R * Backend :=
  match c in Call R return R * Backend with
  | GetSession => (session b, b)
  | GetUser => (if env_ok ε then session_user <$> session b else None, b)
  | SignOut =>
      if env_ok ε then (None, sign_out b) else (Some ApiErr, b)
  | SelectFeedback =>
      (if env_ok ε then rows_response (select_feed b) else error_response, b)
  | InsertFeedback row =>
      if may_write ε b then (None, insert_feedback ε row b)
      else (Some ApiErr, b)
  | InsertComment row =>
      if may_write ε b && feedback_exists b (ci_feedback_id row)
      then (None, insert_comment ε row b)
      else (Some ApiErr, b)
  end.

(** ** Well-formedness *)

(** The identifiers in use. *)
Definition ids (b : Backend) : list Id :=
  (fr_id <$> feedback_tbl b) ++ (cr_id <$> comments_tbl b).

Record backend_wf (b : Backend) : Prop := {
  wf_ids : NoDup (ids b);
  wf_fk : ∀ c, c ∈ comments_tbl b → cr_feedback_id c ∈ fr_id <$> feedback_tbl b;
  wf_feedback_clock : ∀ f, f ∈ feedback_tbl b → fr_created_at f ≤ clock b;
  wf_comment_clock : ∀ c, c ∈ comments_tbl b → cr_created_at c ≤ clock b
}.

(** The circumstances a database can produce: the identifier is new and
    the clock does not run backwards. *)
Definition fresh_env (ε : Env) (b : Backend) : Prop :=
  (env_id ε ∉ ids b) ∧ (clock b ≤ env_now ε).

(** An empty database with a session state. *)
Definition empty_backend (pr : Id → Profile) (s : option Session) : Backend :=
  {| profiles := pr; feedback_tbl := []; comments_tbl := [];
     session := s; clock := 0 |}.

(** ** The query *)

Lemma select_feed_perm b :
  select_feed b ≡ₚ (join_feedback b <$> feedback_tbl b).
Proof. apply merge_sort_Permutation. Qed.

Lemma select_feed_sorted b : StronglySorted newer (select_feed b).
Proof. apply StronglySorted_merge_sort; apply _. Qed.

Lemma select_feed_ids b :
  (fb_id <$> select_feed b) ≡ₚ (fr_id <$> feedback_tbl b).
Proof. by rewrite select_feed_perm, <-list_fmap_compose. Qed.

Lemma select_feed_elem_of b f :
  f ∈ select_feed b ↔ ∃ r, f = join_feedback b r ∧ r ∈ feedback_tbl b.
Proof. by rewrite select_feed_perm, list_elem_of_fmap. Qed.

Lemma select_feed_length b : length (select_feed b) = length (feedback_tbl b).
Proof. by rewrite select_feed_perm, length_fmap. Qed.

Lemma select_feed_nodup b : backend_wf b → NoDup (fb_id <$> select_feed b).
Proof.
  intros [Hids _ _ _]. rewrite select_feed_ids.
  by apply NoDup_app in Hids as [? _].
Qed.

(** ** [supabase_serve] *)

(** A call that is not a write leaves the tables and the clock alone. *)
Lemma supabase_read_only {R} (c : Call R) ε b :
  is_write c = false →
  feedback_tbl (supabase_serve c ε b).2 = feedback_tbl b ∧
  comments_tbl (supabase_serve c ε b).2 = comments_tbl b ∧
  clock (supabase_serve c ε b).2 = clock b.
Proof. intros Hw. destruct c; simpl in *; try done; by case_match. Qed.

(** No call changes a profile. *)
Lemma supabase_profiles {R} (c : Call R) ε b :
  profiles (supabase_serve c ε b).2 = profiles b.
Proof. destruct c; simpl; try done; by case_match. Qed.

Lemma may_write_iff ε b :
  may_write ε b = true ↔ env_ok ε = true ∧ is_Some (session b).
Proof. unfold may_write. by rewrite andb_true_iff, bool_decide_eq_true. Qed.

Lemma feedback_exists_iff b fid :
  feedback_exists b fid = true ↔ fid ∈ fb_id <$> select_feed b.
Proof.
  unfold feedback_exists. by rewrite bool_decide_eq_true, select_feed_ids.
Qed.

Lemma supabase_insert_feedback_ok ε row b :
  (supabase_serve (InsertFeedback row) ε b).1 = None →
  (supabase_serve (InsertFeedback row) ε b).2 = insert_feedback ε row b.
Proof. simpl. by case_match. Qed.

Lemma supabase_insert_comment_ok ε row b :
  (supabase_serve (InsertComment row) ε b).1 = None →
  (supabase_serve (InsertComment row) ε b).2 = insert_comment ε row b.
Proof. simpl. by case_match. Qed.

(** A refused call leaves the backend as it was. *)
Lemma supabase_insert_feedback_err ε row b e :
  (supabase_serve (InsertFeedback row) ε b).1 = Some e →
  (supabase_serve (InsertFeedback row) ε b).2 = b.
Proof. simpl. by case_match. Qed.

Lemma supabase_insert_comment_err ε row b e :
  (supabase_serve (InsertComment row) ε b).1 = Some e →
  (supabase_serve (InsertComment row) ε b).2 = b.
Proof. simpl. by case_match. Qed.

(** ** Well-formedness is preserved *)

Lemma empty_backend_wf pr s : backend_wf (empty_backend pr s).
Proof. split; simpl; [constructor|by intros ? ?%elem_of_nil..]. Qed.

Lemma insert_feedback_wf ε row b :
  backend_wf b → fresh_env ε b → backend_wf (insert_feedback ε row b).
Proof.
  intros [Hids Hfk Hfc Hcc] [Hfresh Hclock]. split; simpl.
  - unfold ids in *. simpl. rewrite fmap_app. simpl.
    rewrite <-(assoc_L (++)). simpl.
    apply NoDup_app in Hids as (Hf & Hdisj & Hc).
    rewrite not_elem_of_app in Hfresh. destruct Hfresh as [Hf1 Hf2].
    apply NoDup_app. split_and!; [done| |by apply NoDup_cons].
    intros x Hx. rewrite elem_of_cons. intros [->|?]; [done|].
    by eapply Hdisj.
  - intros c Hc. rewrite fmap_app, elem_of_app. left. by apply Hfk.
  - intros f [Hf| ->%list_elem_of_singleton]%elem_of_app; simpl; [|lia].
    specialize (Hfc f Hf). lia.
  - intros c Hc. specialize (Hcc c Hc). lia.
Qed.

Lemma insert_comment_wf ε row b :
  backend_wf b → fresh_env ε b →
  ci_feedback_id row ∈ fr_id <$> feedback_tbl b →
  backend_wf (insert_comment ε row b).
Proof.
  intros [Hids Hfk Hfc Hcc] [Hfresh Hclock] Hrow. split; simpl.
  - unfold ids in *. simpl. rewrite fmap_app, (assoc_L (++)). simpl.
    apply NoDup_app. split_and!; [done| |apply NoDup_singleton].
    intros x Hx ->%list_elem_of_singleton. done.
  - intros c [Hc| ->%list_elem_of_singleton]%elem_of_app; [by apply Hfk|done].
  - intros f Hf. specialize (Hfc f Hf). lia.
  - intros c [Hc| ->%list_elem_of_singleton]%elem_of_app; simpl; [|lia].
    specialize (Hcc c Hc). lia.
Qed.

Lemma sign_out_wf b : backend_wf b → backend_wf (sign_out b).
Proof. by intros []. Qed.

Lemma supabase_serve_wf {R} (c : Call R) ε b :
  backend_wf b → fresh_env ε b → backend_wf (supabase_serve c ε b).2.
Proof.
  intros Hwf Hadm. destruct c; simpl; try done;
    repeat case_match; simpl; try done.
  - by apply sign_out_wf.
  - by apply insert_feedback_wf.
  - apply insert_comment_wf; [done..|].
    unfold feedback_exists in *. bool_prop. by case_bool_decide.
Qed.

(** ** The effect of a write on the feed *)

Lemma comments_of_insert_feedback ε row b fid :
  comments_of (insert_feedback ε row b) fid = comments_of b fid.
Proof. done. Qed.

Lemma join_feedback_insert_feedback ε row b f :
  join_feedback (insert_feedback ε row b) f = join_feedback b f.
Proof. done. Qed.

Lemma comments_of_fresh ε b :
  backend_wf b → fresh_env ε b → comments_of b (env_id ε) = [].
Proof.
  intros Hwf [Hfresh _]. apply elem_of_nil_inv. intros c.
  unfold comments_of. rewrite list_elem_of_filter. intros [Heq Hc].
  apply Hfresh, elem_of_app. left. rewrite <-Heq. by apply (wf_fk b).
Qed.

Lemma join_new_feedback_row ε row b :
  backend_wf b → fresh_env ε b →
  join_feedback (insert_feedback ε row b) (new_feedback_row ε row)
  = posted ε row (profiles b (fi_user_id row)).
Proof.
  intros Hwf Hadm. unfold join_feedback, posted. simpl.
  by rewrite comments_of_insert_feedback, comments_of_fresh.
Qed.

(** After a feedback is inserted the query returns the rows it returned
    before and the new one. *)
Lemma select_feed_insert_feedback ε row b :
  backend_wf b → fresh_env ε b →
  select_feed (insert_feedback ε row b)
  ≡ₚ posted ε row (profiles b (fi_user_id row)) :: select_feed b.
Proof.
  intros Hwf Hadm. rewrite !select_feed_perm. simpl.
  rewrite fmap_app. simpl. rewrite join_new_feedback_row by done.
  by rewrite <-Permutation_cons_append.
Qed.

(** A comment is added to the feedback it refers to and to no other. *)
Lemma join_feedback_insert_comment ε row b f :
  join_feedback (insert_comment ε row b) f
  = with_comment (ci_feedback_id row)
                 (commented ε row (profiles b (ci_user_id row)))
                 (join_feedback b f).
Proof.
  unfold join_feedback, with_comment, comments_of. simpl.
  rewrite filter_app, filter_cons, filter_nil. simpl.
  case_decide as Hid; case_decide as Hid'; try congruence.
  - by rewrite fmap_app.
  - by rewrite app_nil_r.
Qed.

(** After a comment is inserted the query returns the same feed, in the
    same order, with the comment appended to the feedback it refers to. *)
Lemma select_feed_insert_comment ε row b :
  select_feed (insert_comment ε row b)
  = with_comment (ci_feedback_id row)
                 (commented ε row (profiles b (ci_user_id row)))
    <$> select_feed b.
Proof.
  unfold select_feed.
  rewrite <-(merge_sort_fmap newer newer _ (newer_with_comment _ _)).
  f_equal. simpl. rewrite <-list_fmap_compose.
  apply list_fmap_ext. intros _ f _. apply join_feedback_insert_comment.
Qed.

Lemma select_feed_clock b f :
  backend_wf b → f ∈ select_feed b → fb_created_at f ≤ clock b.
Proof.
  intros Hwf (r & -> & Hr)%select_feed_elem_of.
  by apply (wf_feedback_clock b Hwf).
Qed.

Lemma fresh_env_feed ε b : fresh_env ε b → env_id ε ∉ fb_id <$> select_feed b.
Proof.
  intros [Hfresh _]. rewrite select_feed_ids. intros Hin.
  apply Hfresh, elem_of_app. by left.
Qed.

(** ** The model provides the contract *)

#[export, refine] Instance supabase_spec : BackendSpec Backend := {
  serve := @supabase_serve;
  session_of := session;
  profile_of := profiles;
  feed_of := select_feed;
  clock_of := clock;
  wf := backend_wf;
  admissible := fresh_env
}.
Proof.
  - intros. by apply supabase_serve_wf.
  - intros. apply supabase_profiles.
  - apply select_feed_clock.
  - by intros ε b [_ ?].
  - apply fresh_env_feed.
  - intros. apply select_feed_sorted.
  - apply select_feed_nodup.
  - done.
  - done.
  - intros. simpl. by case_match.
  - intros. simpl. by case_match.
  - intros. simpl. by case_match.
  - done.
  - intros ε row b. rewrite <-may_write_iff. simpl. by case_match.
  - apply supabase_insert_feedback_err.
  - intros ε row b Hwf Hadm Hok.
    rewrite (supabase_insert_feedback_ok _ _ _ Hok). simpl.
    split_and!; [done..|]. by apply select_feed_insert_feedback.
  - intros ε row b.
    rewrite <-feedback_exists_iff, (assoc _), <-may_write_iff,
      <-andb_true_iff.
    simpl. by case_match.
  - apply supabase_insert_comment_err.
  - intros ε row b Hok. rewrite (supabase_insert_comment_ok _ _ _ Hok).
    simpl. split; [done|]. apply select_feed_insert_comment.
Defined.
