(* ===== verification/FeedbackCard.v ===== *)
(** * FeedbackCard: one card of the feed and its commenter

    Models src/components/FeedbackCard.tsx:

    - [FeedbackCardProps] (lines 23-35), [categoryColors] and
      [categoryLabels] (37-49), the state [CardState] of the three
      [useState] hooks (61-63) with the effects [CardEffect] that set it;
    - [handleSubmitComment] (65-94), as a computation over the client's
      calls; its arguments are what its closure captures: the prop [id] and
      the state [newComment] of the render in which the button was clicked;
    - [getInitials] (96-103);
    - [FeedbackCard_render] (105-189): what the card shows, as data: texts,
      the badge, the count, the comment panel when it is open, and whether
      the send button is disabled (178).  Rendering can throw: React
      refuses an object as a child, which is what the label lookup yields
      for one category string;
    - [CardEvent], [card_handler]: what the user can do with a card
      (lines 133, 172, 177) and the guard under which each event starts
      its handler: the panel is shown, the send button is enabled.

    Theorems: the exact condition under which a comment is written and the
    row that is written; the busy flag along and after every run; when the
    input is cleared and the feed reloaded; [getInitials] against a
    reference definition and its bound; the categories on which rendering
    throws. *)

From S2P Require Import Prelude JsString Async Model.

(** ** Props, tables, state *)

(** The props other than the callback [onCommentAdded], which is the effect
    of that name. *)
Record FeedbackCardProps := {
  p_id : Id;
  p_title : jsstring;
  p_content : jsstring;
  p_category : jsstring;
  p_author : Profile;
  p_created_at : Timestamp;
  p_comments : list Comment
}.

Definition categoryColors : list (string * string) :=
  [("professores", "bg-blue-500/10 text-blue-700 dark:text-blue-300");
   ("materias", "bg-purple-500/10 text-purple-700 dark:text-purple-300");
   ("atividades", "bg-green-500/10 text-green-700 dark:text-green-300");
   ("geral", "bg-orange-500/10 text-orange-700 dark:text-orange-300")]%string.

Definition categoryLabels : list (string * string) :=
  [("professores", "Professores");
   ("materias", "Matérias");
   ("atividades", "Atividades");
   ("geral", "Geral")]%string.

(** [showComments], [newComment], [isSubmitting]. *)
Record CardState := {
  showComments : bool;
  newComment : jsstring;
  isSubmitting : bool
}.

(** [useState(false)], [useState("")], [useState(false)]. *)
Definition initialCardState : CardState :=
  {| showComments := false; newComment := []; isSubmitting := false |}.

(** What a handler of the card does besides awaiting calls. *)
Inductive CardEffect :=
| setShowComments (b : bool)
| setNewComment (s : jsstring)
| setIsSubmitting (b : bool)
| toast_error (m : string)
| toast_success (m : string)
| onCommentAdded.

#[export] Instance CardEffect_eq_dec : EqDecision CardEffect.
Proof. solve_decision. Defined.

#[export] Instance CardState_eq_dec : EqDecision CardState.
Proof. solve_decision. Defined.

(** The effect of a setter on the state; toasts and the callback leave it
    alone. *)
Definition card_apply (e : CardEffect) (st : CardState) : CardState :=
  match e with
  | setShowComments b =>
      {| showComments := b; newComment := newComment st;
         isSubmitting := isSubmitting st |}
  | setNewComment s =>
      {| showComments := showComments st; newComment := s;
         isSubmitting := isSubmitting st |}
  | setIsSubmitting b =>
      {| showComments := showComments st; newComment := newComment st;
         isSubmitting := b |}
  | toast_error _ | toast_success _ | onCommentAdded => st
  end.

(** The toast an effect shows, if it is one. *)
Definition card_toast (e : CardEffect) : option Toast :=
  match e with
  | toast_error m => Some (ToastError m)
  | toast_success m => Some (ToastSuccess m)
  | _ => None
  end.

(** ** Handlers *)

Definition handleSubmitComment (id : Id) (newComment : jsstring)
  : Proc Call CardEffect unit :=
  if negb (truthy (trim newComment)) then mret tt
  else
    perform (setIsSubmitting true) ;;
    user ← await GetUser ;
    match user with
    | None =>
        perform (toast_error "Você precisa estar logado para comentar") ;;
        perform (setIsSubmitting false) ;;
        mret tt
    | Some user =>
        error ← await (InsertComment {| ci_feedback_id := id;
                                        ci_user_id := uid user;
                                        ci_content := newComment |}) ;
        match error with
        | Some _ => perform (toast_error "Erro ao enviar comentário")
        | None =>
            perform (toast_success "Comentário enviado!") ;;
            perform (setNewComment []) ;;
            perform onCommentAdded
        end ;;
        perform (setIsSubmitting false)
    end.

(** [onClick={() => setShowComments(!showComments)}] (line 133). *)
Definition toggleComments (showComments : bool) : Proc Call CardEffect unit :=
  perform (setShowComments (negb showComments)).

(** [onChange={(e) => setNewComment(e.target.value)}] (line 172). *)
Definition onChangeComment (value : jsstring) : Proc Call CardEffect unit :=
  perform (setNewComment value).

(** [disabled={isSubmitting || !newComment.trim()}] (line 178). *)
Definition sendDisabled (st : CardState) : bool :=
  isSubmitting st || negb (truthy (trim (newComment st))).

(** What the user can do with a card: toggle the comments (line 133),
    type in the textarea (172), press the send button (177). *)
Inductive CardEvent :=
| CToggle
| CType (text : jsstring)
| CSend.

(** The handler that an event starts on the card [id] in the state
    [st]: none when the element is not shown (the textarea and the
    button are inside the open panel, 141) or the button is disabled. *)
Definition card_handler (id : Id) (e : CardEvent) (st : CardState)
  : option (Proc Call CardEffect unit) :=
  match e with
  | CToggle => Some (toggleComments (showComments st))
  | CType text =>
      if showComments st then Some (onChangeComment text) else None
  | CSend =>
      if showComments st && negb (sendDisabled st)
      then Some (handleSubmitComment id (newComment st))
      else None
  end.

(** ** [getInitials] and rendering *)

(** [formatDistanceToNow(new Date(created_at), { addSuffix: true, locale })]
    of the date library: a function of the timestamp (and of the clock),
    which the sources only call. *)
Class DateFns := { formatDistanceToNow : Timestamp → string }.

(** What React makes of a value placed as a child: a string is shown,
    [undefined] and a function show nothing, an object that is not an
    element makes rendering throw ([None]). *)
Definition render_child (v : JsValue) : option (option string) :=
  match v with
  | VString s => Some (Some s)
  | VUndefined | VFunction => Some None
  | VObject => None
  end.

(** One comment of the open panel (lines 144-165). *)
Record CommentView := {
  cmv_key : Id;
  cmv_initials : jsstring;
  cmv_full_name : jsstring;
  cmv_class : jsstring;
  cmv_content : jsstring;
  cmv_when : string
}.

(** The panel shown when [showComments] (lines 141-186): the comments, the
    textarea's value, the send button's [disabled]. *)
Record CommentsPanel := {
  cp_comments : list CommentView;
  cp_textarea : jsstring;
  cp_send_disabled : bool
}.

(** The card (lines 106-188). *)
Record CardView := {
  cv_initials : jsstring;
  cv_full_name : jsstring;
  cv_class : jsstring;
  cv_badge_class : JsValue;
  cv_badge_label : option string;
  cv_title : jsstring;
  cv_content : jsstring;
  cv_when : string;
  cv_count : nat;
  cv_count_noun : string;
  cv_panel : option CommentsPanel
}.

Section render.
Context `{Unicode} `{DateFns}.

Definition getInitials (name : jsstring) : jsstring :=
  slice 0 2 (toUpperCase (join [] (charAt0 <$> split 32 name))).

(** [comments.map((comment) => ...)] (lines 143-166). *)
Definition render_comment (c : Comment) : CommentView :=
  {| cmv_key := cm_id c;
     cmv_initials := getInitials (full_name (cm_profiles c));
     cmv_full_name := full_name (cm_profiles c);
     cmv_class := class (cm_profiles c);
     cmv_content := cm_content c;
     cmv_when := formatDistanceToNow (cm_created_at c) |}.

(** [{comments.length === 1 ? "comentário" : "comentários"}] (line 137). *)
Definition commentNoun (n : nat) : string :=
  if decide (n = 1) then "comentário" else "comentários".

Definition FeedbackCard_render (p : FeedbackCardProps) (st : CardState)
  : option CardView :=
  label ← render_child (lookup_literal categoryLabels (p_category p));
  Some {|
    cv_initials := getInitials (full_name (p_author p));
    cv_full_name := full_name (p_author p);
    cv_class := class (p_author p);
    cv_badge_class := lookup_literal categoryColors (p_category p);
    cv_badge_label := label;
    cv_title := p_title p;
    cv_content := p_content p;
    cv_when := formatDistanceToNow (p_created_at p);
    cv_count := length (p_comments p);
    cv_count_noun := commentNoun (length (p_comments p));
    cv_panel :=
      if showComments st
      then Some {| cp_comments := render_comment <$> p_comments p;
                   cp_textarea := newComment st;
                   cp_send_disabled := sendDisabled st |}
      else None
  |}.

End render.

(** ** Specification-level definitions *)

(** The row that the handler writes for the user [u]. *)
Definition comment_row (id : Id) (u : User) (s : jsstring) : CommentInsert :=
  {| ci_feedback_id := id; ci_user_id := uid u; ci_content := s |}.

(** The run ends with the comment stored: the text is not blank, a user is
    resolved and the insert reports no error. *)
Definition comment_accepted (o : Oracle Call) (id : Id) (s : jsstring) : bool :=
  bool_decide (¬ blank s) &&
  match o _ GetUser with
  | None => false
  | Some u => bool_decide (o _ (InsertComment (comment_row id u s)) = None)
  end.

(** The first code unit of every word of [s], a word being a maximal run
    without a space; [at_start] says whether the position is the start of
    a word. *)
Fixpoint word_starts (at_start : bool) (s : jsstring) : jsstring :=
  match s with
  | [] => []
  | c :: s' =>
      if (c =? 32)%N then word_starts true s'
      else if at_start then c :: word_starts false s'
      else word_starts false s'
  end.

(** The four categories the composer offers. *)
Definition offered_categories : list jsstring :=
  js <$> ["professores"; "materias"; "atividades"; "geral"]%string.

(** Unfolds the handler and splits on its guard and on the responses. *)
Ltac comment_cases o :=
  unfold handleSubmitComment, comment_accepted, comment_row;
  rewrite ?not_truthy_trim;
  repeat case_bool_decide; try tauto; simpl;
  oracle_cases o; simpl; try done.

(** ** The commenter: what a run of [handleSubmitComment] does *)

(** C3. A run of [handleSubmitComment] writes nothing when the text is
    blank (empty after [trim]) or no user is resolved; otherwise it writes
    exactly one comment row, which carries the card's [id], the resolved
    user as author, and the text as typed (not trimmed). *)
Theorem handleSubmitComment_writes o id s :
  writes (trace o (handleSubmitComment id s)) =
  if decide (blank s) then []
  else match o _ GetUser with
       | None => []
       | Some u => [inr (comment_row id u s)]
       end.
Proof. case_decide; comment_cases o. Qed.

(** C6. The run is empty (no effect, no call, not even the user lookup)
    exactly when the text is blank. *)
Theorem handleSubmitComment_noop_iff o id s :
  trace o (handleSubmitComment id s) = [] ↔ blank s.
Proof. split; [|intros Hb]; comment_cases o. Qed.

(** C9. The state during and after a run.  Whenever a run is suspended
    on a call, the busy flag is set: the send button is disabled for as
    long as a request of this card is in flight.  After the run the
    state is unchanged for a blank text; otherwise the busy flag is
    [false], [showComments] is untouched, and the input is cleared
    exactly when the comment was accepted and kept otherwise. *)
Theorem handleSubmitComment_state o id s st :
  let t := trace o (handleSubmitComment id s) in
  at_calls card_apply isSubmitting t st = true ∧
  final card_apply t st =
  if decide (blank s) then st
  else {| showComments := showComments st;
          newComment := if comment_accepted o id s then [] else newComment st;
          isSubmitting := false |}.
Proof. split; [|case_decide]; comment_cases o. Qed.

(** C37. The reload callback [onCommentAdded] is invoked once when the
    comment was accepted and not at all otherwise, and a run that passes
    the guard shows exactly one toast: the success toast when the comment
    was accepted, the unauthenticated error when no user is resolved, the
    insert error otherwise. *)
Theorem handleSubmitComment_feedback o id s :
  let es := effects (trace o (handleSubmitComment id s)) in
  filter (λ e, e = onCommentAdded) es
    = (if comment_accepted o id s then [onCommentAdded] else []) ∧
  omap card_toast es
    = if decide (blank s) then []
      else if comment_accepted o id s
           then [ToastSuccess "Comentário enviado!"]
           else match o _ GetUser with
                | None => [ToastError "Você precisa estar logado para comentar"]
                | Some _ => [ToastError "Erro ao enviar comentário"]
                end.
Proof. case_decide; comment_cases o. Qed.

(** The send button is disabled while a request is in flight or the text
    is blank. *)
Lemma sendDisabled_iff st :
  sendDisabled st = true ↔ isSubmitting st = true ∨ blank (newComment st).
Proof.
  unfold sendDisabled. rewrite not_truthy_trim, orb_true_iff.
  by rewrite bool_decide_eq_true.
Qed.

(** An enabled send button starts a run that is suspended on the user
    lookup with the busy flag set: the click that the button lets through
    is never a no-op. *)
Lemma sendDisabled_false_sync st id :
  sendDisabled st = false →
  ∃ k, sync (handleSubmitComment id (newComment st))
       = ([setIsSubmitting true], Waiting GetUser k).
Proof.
  unfold sendDisabled, handleSubmitComment.
  intros [_ ->]%orb_false_iff. by eexists.
Qed.

(** ** [getInitials] *)

Lemma join_nil_cons x (l : list (option jsstring)) :
  join [] (x :: l) = default [] x ++ join [] l.
Proof. destruct l; simpl; [by rewrite app_nil_r|done]. Qed.

(** Joining the first code units of the pieces of [s] gives the word
    starts of [s]; the first piece contributes only if it is not empty. *)
Lemma join_charAt0_split s w ws :
  split 32 s = w :: ws →
  join [] (charAt0 <$> ws) = word_starts false s ∧
  default [] (charAt0 w) ++ word_starts false s = word_starts true s.
Proof.
  revert w ws. induction s as [|c s IH]; intros w ws; simpl.
  { by intros [= <- <-]. }
  pose proof (split_nonempty 32 s) as Hne.
  destruct (split 32 s) as [|w' ws'] eqn:Es; [done|].
  destruct (IH w' ws' eq_refl) as [IH1 IH2].
  destruct (N.eqb_spec c 32) as [->|Hc]; intros [= <- <-]; [|done].
  by rewrite fmap_cons, join_nil_cons, IH1.
Qed.

Section initials.
Context `{Unicode}.

(** C35. [getInitials] agrees with the reference definition: it is the
    first two code units of the upper-cased string of word starts of the
    name, words being separated by spaces (runs of spaces and leading or
    trailing spaces contribute nothing). *)
Theorem getInitials_word_starts name :
  getInitials name = take 2 (toUpperCase (word_starts true name)).
Proof.
  unfold getInitials. rewrite slice_0. do 2 f_equal.
  pose proof (split_nonempty 32 name) as Hne.
  destruct (split 32 name) as [|w ws] eqn:Es; [done|].
  destruct (join_charAt0_split name w ws Es) as [H1 H2].
  by rewrite fmap_cons, join_nil_cons, H1.
Qed.


End initials.

(** [getInitials("Ana Silva")] is ["AS"] (with the ASCII case mapping). *)
Example getInitials_ana_silva :
  @getInitials ascii_unicode (js "Ana Silva") = js "AS".
Proof. reflexivity. Qed.

(** ** Rendering *)

Lemma lookup_categoryLabels_other key :
  key ∉ offered_categories →
  lookup_literal categoryLabels key = lookup_prototype key.
Proof.
  intros Hk. apply lookup_literal_other.
  repeat (constructor; [intros ->; apply Hk; simpl;
                        repeat first [by left | right]|]).
  constructor.
Qed.

Lemma lookup_categoryLabels_offered key :
  key ∈ offered_categories →
  ∃ label, lookup_literal categoryLabels key = VString label.
Proof.
  unfold offered_categories. rewrite !fmap_cons, !elem_of_cons, elem_of_nil.
  intros [->|[->|[->|[->|[]]]]]; by eexists.
Qed.

Section render_facts.
Context `{Unicode} `{DateFns}.

(** Rendering a card throws exactly when its category is the string
    [__proto__]: for every other category, offered or not, the card is
    rendered. *)
Lemma FeedbackCard_render_throws_iff p st :
  FeedbackCard_render p st = None ↔ p_category p = js "__proto__".
Proof.
  unfold FeedbackCard_render.
  destruct (decide (p_category p ∈ offered_categories)) as [Hin|Hout].
  - destruct (lookup_categoryLabels_offered _ Hin) as [label ->]. simpl.
    split; [done|]. intros Heq. rewrite Heq in Hin.
    by apply (bool_decide_eq_false_1 (js "__proto__" ∈ offered_categories)) in Hin.
  - rewrite (lookup_categoryLabels_other _ Hout). unfold lookup_prototype.
    repeat case_decide; simpl; by split.
Qed.

(** A card with one of the four offered categories shows the label of
    the table; one with any other category that renders shows no label
    (the fail-open policy). *)
Lemma FeedbackCard_render_label p st v :
  FeedbackCard_render p st = Some v →
  cv_badge_label v =
  match lookup_literal categoryLabels (p_category p) with
  | VString s => Some s
  | _ => None
  end ∧
  (p_category p ∉ offered_categories → cv_badge_label v = None).
Proof.
  unfold FeedbackCard_render. intros Hv.
  assert (render_child (lookup_literal categoryLabels (p_category p))
          = Some (cv_badge_label v)) as Hl.
  { destruct (render_child _); by simplify_eq/=. }
  clear Hv. split.
  - by destruct (lookup_literal categoryLabels _); simplify_eq/=.
  - intros Hout. rewrite (lookup_categoryLabels_other _ Hout) in Hl.
    unfold lookup_prototype in Hl. by repeat case_decide; simplify_eq/=.
Qed.

(** C34. The category of a card.  Rendering a card throws exactly when
    its category is the string [__proto__]; for every other category,
    offered or not, the card is rendered: with the label of the table
    for the four offered categories, and with no label for any other
    (the fail-open policy). *)
Theorem FeedbackCard_render_category p st :
  match FeedbackCard_render p st with
  | None => p_category p = js "__proto__"
  | Some v =>
      p_category p ≠ js "__proto__" ∧
      cv_badge_label v =
        match lookup_literal categoryLabels (p_category p) with
        | VString s => Some s
        | _ => None
        end ∧
      (p_category p ∉ offered_categories → cv_badge_label v = None)
  end.
Proof.
  destruct (FeedbackCard_render p st) as [v|] eqn:Hv.
  - split; [|by apply (FeedbackCard_render_label p st)].
    intros Hc. apply (FeedbackCard_render_throws_iff p st) in Hc.
    by rewrite Hv in Hc.
  - by apply (FeedbackCard_render_throws_iff p st).
Qed.

(** The panel is there exactly when [showComments], with one entry per
    comment in the order of the prop, and the button state of
    [sendDisabled]. *)
Lemma FeedbackCard_render_panel p st v :
  FeedbackCard_render p st = Some v →
  cv_panel v =
  (if showComments st
   then Some {| cp_comments := render_comment <$> p_comments p;
                cp_textarea := newComment st;
                cp_send_disabled := sendDisabled st |}
   else None) ∧
  cv_count v = length (p_comments p).
Proof.
  unfold FeedbackCard_render. intros Hv.
  destruct (render_child _); by simplify_eq/=.
Qed.

End render_facts.

(** A card of the category [geral], rendered with the ASCII case mapping
    and a date formatter that prints nothing, shows the label "Geral". *)
Definition demo_dates : DateFns := {| formatDistanceToNow := λ _, ""%string |}.

Definition demo_props : FeedbackCardProps :=
  {| p_id := 1%N; p_title := js "Festa"; p_content := js "Foi boa";
     p_category := js "geral";
     p_author := {| full_name := js "Ana Silva"; class := js "3A" |};
     p_created_at := 0%N; p_comments := [] |}.

Example FeedbackCard_render_demo :
  ∃ v, @FeedbackCard_render ascii_unicode demo_dates demo_props
         initialCardState = Some v ∧
       cv_badge_label v = Some "Geral"%string.
Proof.
  eexists. split; [reflexivity|].
  exact (proj1 (@FeedbackCard_render_label ascii_unicode demo_dates
                  demo_props initialCardState _ eq_refl)).
Qed.
