(* ===== verification/NewFeedbackDialog.v ===== *)
(** * NewFeedbackDialog: the composer

    Models src/components/NewFeedbackDialog.tsx:

    - the state [DialogState] of the three [useState] hooks (lines 17-19)
      and the effects [DialogEffect] of the handlers;
    - [handleSubmit] (21-56): its arguments are the state [category] that
      its closure captures and the values of the form fields [title] and
      [content] that it reads from the submitted form (25-27);
    - the other event handlers of the JSX (59, 78, 111), the items of the
      select (83-86), the constraints that the form puts on a submission
      ([required] on the three fields, 78, 96, 105) and the submit button
      (116-119);
    - [NewFeedbackDialog_render] (58-125): what the dialog shows, as data;
    - [DialogEvent], [dialog_handler]: what the user can do with the
      dialog and the guard under which each event starts its handler:
      the form is inside the open dialog, the browser submits it only
      when valid, and the submit button is enabled.

    Theorems: when a feedback row is written and which row; the state
    after a run (closed and category reset on success, untouched on
    failure apart from the busy flag); the busy flag while suspended; the
    toasts and the reload callback; that the handler itself accepts any
    category string. *)

From S2P Require Import Prelude JsString Async Model.

(** ** State and effects *)

(** [open], [isSubmitting], [category]. *)
Record DialogState := {
  open : bool;
  isSubmitting : bool;
  category : jsstring
}.

(** [useState(false)], [useState(false)], [useState("")]. *)
Definition initialDialogState : DialogState :=
  {| open := false; isSubmitting := false; category := [] |}.

Inductive DialogEffect :=
| preventDefault
| setOpen (b : bool)
| setIsSubmitting (b : bool)
| setCategory (s : jsstring)
| toast_error (m : string)
| toast_success (m : string)
| onFeedbackAdded.

#[export] Instance DialogEffect_eq_dec : EqDecision DialogEffect.
Proof. solve_decision. Defined.

#[export] Instance DialogState_eq_dec : EqDecision DialogState.
Proof. solve_decision. Defined.

Definition dialog_apply (e : DialogEffect) (st : DialogState) : DialogState :=
  match e with
  | setOpen b =>
      {| open := b; isSubmitting := isSubmitting st; category := category st |}
  | setIsSubmitting b =>
      {| open := open st; isSubmitting := b; category := category st |}
  | setCategory s =>
      {| open := open st; isSubmitting := isSubmitting st; category := s |}
  | preventDefault | toast_error _ | toast_success _ | onFeedbackAdded => st
  end.

Definition dialog_toast (e : DialogEffect) : option Toast :=
  match e with
  | toast_error m => Some (ToastError m)
  | toast_success m => Some (ToastSuccess m)
  | _ => None
  end.

(** ** Handlers *)

Definition handleSubmit (category title content : jsstring)
  : Proc Call DialogEffect unit :=
  perform preventDefault ;;
  perform (setIsSubmitting true) ;;
  user ← await GetUser ;
  match user with
  | None =>
      perform (toast_error "Você precisa estar logado") ;;
      perform (setIsSubmitting false) ;;
      mret tt
  | Some user =>
      error ← await (InsertFeedback {| fi_user_id := uid user;
                                       fi_category := category;
                                       fi_title := title;
                                       fi_content := content |}) ;
      match error with
      | Some _ => perform (toast_error "Erro ao publicar feedback")
      | None =>
          perform (toast_success "Feedback publicado com sucesso!") ;;
          perform (setOpen false) ;;
          perform onFeedbackAdded ;;
          perform (setCategory [])
      end ;;
      perform (setIsSubmitting false)
  end.

(** [onOpenChange={setOpen}] (line 59). *)
Definition onOpenChange (b : bool) : Proc Call DialogEffect unit :=
  perform (setOpen b).

(** [onValueChange={setCategory}] (line 78). *)
Definition onValueChange (value : jsstring) : Proc Call DialogEffect unit :=
  perform (setCategory value).

(** [onClick={() => setOpen(false)}] of the cancel button (line 111). *)
Definition onCancel : Proc Call DialogEffect unit :=
  perform (setOpen false).

(** ** The form *)

(** The [SelectItem]s: value and label (lines 83-86). *)
Definition selectItems : list (string * string) :=
  [("professores", "Professores");
   ("materias", "Matérias");
   ("atividades", "Atividades");
   ("geral", "Geral")]%string.

(** The three fields are [required]: the browser submits the form only when
    none of them is empty (lines 78, 96, 105). *)
Definition formValid (category title content : jsstring) : bool :=
  truthy category && truthy title && truthy content.

(** [disabled={isSubmitting}] of the submit button (line 116). *)
Definition submitDisabled (st : DialogState) : bool := isSubmitting st.

(** [{isSubmitting ? "Publicando..." : "Publicar"}] (line 119). *)
Definition submitLabel (st : DialogState) : string :=
  if isSubmitting st then "Publicando..." else "Publicar".

(** What the dialog shows: the trigger button always; the form when
    [open], with the select's value and items and the submit button. *)
Record DialogForm := {
  df_category : jsstring;
  df_items : list (string * string);
  df_submit_disabled : bool;
  df_submit_label : string
}.

Record DialogView := {
  dv_trigger : string;
  dv_form : option DialogForm
}.

Definition NewFeedbackDialog_render (st : DialogState) : DialogView :=
  {| dv_trigger := "Novo Feedback";
     dv_form :=
       if open st
       then Some {| df_category := category st;
                    df_items := selectItems;
                    df_submit_disabled := submitDisabled st;
                    df_submit_label := submitLabel st |}
       else None |}.

(** ** Events *)

(** What the user can do with the dialog: open or close it (line 59),
    pick an item of the select (78), cancel (111), submit the form with
    its two fields (75). *)
Inductive DialogEvent :=
| DOpen (b : bool)
| DCategory (value : jsstring)
| DCancel
| DSubmit (title content : jsstring).

(** The handler that an event starts in the state [st]: none when the
    element is not shown (the form is inside the open dialog), the item
    is not one of the select, the browser refuses the form or the
    button is disabled. *)
Definition dialog_handler (e : DialogEvent) (st : DialogState)
  : option (Proc Call DialogEffect unit) :=
  match e with
  | DOpen b => Some (onOpenChange b)
  | DCategory value =>
      if open st && bool_decide (value ∈ (js ∘ fst) <$> selectItems)
      then Some (onValueChange value)
      else None
  | DCancel => if open st then Some onCancel else None
  | DSubmit title content =>
      if open st && formValid (category st) title content
         && negb (submitDisabled st)
      then Some (handleSubmit (category st) title content)
      else None
  end.

(** ** Specification-level definitions *)

(** The row that the handler writes for the user [u]. *)
Definition feedback_row (u : User) (category title content : jsstring)
  : FeedbackInsert :=
  {| fi_user_id := uid u; fi_category := category;
     fi_title := title; fi_content := content |}.

(** The run ends with the feedback stored. *)
Definition feedback_accepted (o : Oracle Call) (category title content : jsstring)
  : bool :=
  match o _ GetUser with
  | None => false
  | Some u =>
      bool_decide
        (o _ (InsertFeedback (feedback_row u category title content)) = None)
  end.

Ltac submit_cases o :=
  unfold handleSubmit, feedback_accepted, feedback_row; simpl;
  oracle_cases o; simpl; try done.

(** ** The composer: what a run of [handleSubmit] does *)

(** C4. A run of [handleSubmit] writes nothing when no user is resolved,
    and otherwise exactly one feedback row: its author is the resolved
    user, its category, title and content are the captured ones,
    whatever strings they are (the handler validates none of them). *)
Theorem handleSubmit_writes o cat title content :
  writes (trace o (handleSubmit cat title content)) =
  match o _ GetUser with
  | None => []
  | Some u => [inl (feedback_row u cat title content)]
  end.
Proof. submit_cases o. Qed.

(** C10. The state during and after a run.  Whenever a run of
    [handleSubmit] is suspended on a call, the busy flag is set, so the
    submit button is disabled.  After the run the busy flag is [false];
    on success the dialog is closed and the category reset to the empty
    string; on failure [open] and [category] are as they were. *)
Theorem handleSubmit_state o cat title content st :
  let t := trace o (handleSubmit cat title content) in
  at_calls dialog_apply submitDisabled t st = true ∧
  final dialog_apply t st =
  if feedback_accepted o cat title content
  then {| open := false; isSubmitting := false; category := [] |}
  else {| open := open st; isSubmitting := false; category := category st |}.
Proof. split; submit_cases o. Qed.

(** C38. [onFeedbackAdded] is invoked once exactly when the feedback was
    accepted, and every run shows exactly one toast: success when
    accepted, the unauthenticated error when no user is resolved, the
    publish error otherwise. *)
Theorem handleSubmit_feedback o cat title content :
  let es := effects (trace o (handleSubmit cat title content)) in
  filter (λ e, e = onFeedbackAdded) es
    = (if feedback_accepted o cat title content
       then [onFeedbackAdded] else []) ∧
  omap dialog_toast es
    = if feedback_accepted o cat title content
      then [ToastSuccess "Feedback publicado com sucesso!"]
      else match o _ GetUser with
           | None => [ToastError "Você precisa estar logado"]
           | Some _ => [ToastError "Erro ao publicar feedback"]
           end.
Proof. submit_cases o. Qed.

(** The synchronous segment of a submission sets the busy flag and stops at
    the user lookup. *)
Lemma handleSubmit_sync cat title content :
  ∃ k, sync (handleSubmit cat title content)
       = ([preventDefault; setIsSubmitting true], Waiting GetUser k).
Proof. by eexists. Qed.

(** A valid form has a category, a title and a content that are not
    empty; nothing more is required of them. *)
Lemma formValid_iff cat title content :
  formValid cat title content = true ↔ cat ≠ [] ∧ title ≠ [] ∧ content ≠ [].
Proof.
  unfold formValid. rewrite !andb_true_iff.
  by destruct cat, title, content; simpl; intuition.
Qed.

(** The form is shown exactly when the dialog is open. *)
Lemma NewFeedbackDialog_render_form st :
  is_Some (dv_form (NewFeedbackDialog_render st)) ↔ open st = true.
Proof.
  unfold NewFeedbackDialog_render. simpl.
  destruct (open st); split; (done || by inversion 1 || by eexists).
Qed.
