(* ===== verification/Page.v ===== *)
(** * Page: the components wired together, run against a backend

    src/pages/Index.tsx gives [loadFeedbacks] to each dialog as
    [onFeedbackAdded] (lines 142, 153) and to each card as [onCommentAdded]
    (line 166).  The writers call it without awaiting it
    (NewFeedbackDialog.tsx line 50, FeedbackCard.tsx line 90): the query is
    issued at once, the writer finishes, and the feed is replaced when the
    response arrives.

    - [PageEffect]: the effects of the three components, told apart;
    - [page_handleSubmit], [page_handleSubmitComment], [page_checkAuth],
      [page_handleSignOut]: the handlers with their callbacks wired in;
    - [backend_srv]: a backend that satisfies [BackendSpec] as a server
      for [exec], its circumstances taken from a sequence [ρ];
    - [index_after], [dialog_after], [card_after], [page_toasts]: what a
      run leaves in each component and shows to the user.

    Theorems: the scenarios of the specification, for any backend that
    satisfies the contract: a published feedback heads the reloaded feed,
    a comment appears under its feedback with its author, the mount load
    shows the stored feed in order, a refused write changes neither the
    backend nor the feed, and after sign-out no write reaches the
    backend.  [handler_tac] walks a handler through every effect and
    every response; the files on the running application use it to show
    the properties of the structure of each handler. *)

From S2P Require Import Prelude JsString Async Model Backend Supabase.
From S2P Require Import FeedbackCard NewFeedbackDialog Index.

(** ** Effects of the page *)

Inductive PageEffect :=
| on_index (e : IndexEffect)
| on_dialog (e : DialogEffect)
| on_card (id : Id) (e : CardEffect).

Definition index_part (e : PageEffect) : option IndexEffect :=
  match e with on_index e => Some e | _ => None end.

Definition dialog_part (e : PageEffect) : option DialogEffect :=
  match e with on_dialog e => Some e | _ => None end.

Definition card_part (id : Id) (e : PageEffect) : option CardEffect :=
  match e with
  | on_card id' e => if decide (id' = id) then Some e else None
  | _ => None
  end.

Definition page_toast (e : PageEffect) : option Toast :=
  match e with
  | on_index e => index_toast e
  | on_dialog e => dialog_toast e
  | on_card _ e => card_toast e
  end.

(** ** Handlers with their callbacks *)

Definition page_loadFeedbacks : Proc Call PageEffect unit :=
  map_effects on_index loadFeedbacks.

(** [onFeedbackAdded={loadFeedbacks}]. *)
Definition dialog_callback (e : DialogEffect)
  : option (Proc Call PageEffect unit) :=
  match e with
  | onFeedbackAdded => Some page_loadFeedbacks
  | _ => None
  end.

(** [onCommentAdded={loadFeedbacks}]. *)
Definition card_callback (e : CardEffect)
  : option (Proc Call PageEffect unit) :=
  match e with
  | onCommentAdded => Some page_loadFeedbacks
  | _ => None
  end.

Definition page_handleSubmit (category title content : jsstring)
  : Proc Call PageEffect unit :=
  wire on_dialog dialog_callback (handleSubmit category title content).

Definition page_handleSubmitComment (id : Id) (newComment : jsstring)
  : Proc Call PageEffect unit :=
  wire (on_card id) card_callback (handleSubmitComment id newComment).

Definition page_checkAuth : Proc Call PageEffect unit :=
  map_effects on_index checkAuth.

Definition page_handleSignOut : Proc Call PageEffect unit :=
  map_effects on_index handleSignOut.

(** ** What a run leaves *)

Definition index_after (t : list (Event Call PageEffect)) (st : IndexState)
  : IndexState :=
  apply_all index_apply (omap index_part (effects t)) st.

Definition dialog_after (t : list (Event Call PageEffect)) (st : DialogState)
  : DialogState :=
  apply_all dialog_apply (omap dialog_part (effects t)) st.

Definition card_after (id : Id) (t : list (Event Call PageEffect))
    (st : CardState) : CardState :=
  apply_all card_apply (omap (card_part id) (effects t)) st.

Definition page_toasts (t : list (Event Call PageEffect)) : list Toast :=
  omap page_toast (effects t).

(** ** A backend as a server *)

Section runs.
Context `{BackendSpec B} (ρ : nat → Env).
Implicit Types (b : B) (n : nat).

(** The [n]-th call since the start meets the circumstances [ρ n]. *)
Definition backend_srv : ∀ R, Call R → nat * B → R * (nat * B) :=
  λ R c s, ((serve c (ρ s.1) s.2).1, (S s.1, (serve c (ρ s.1) s.2).2)).

(** The run of [p] on the backend [b], and the backend afterwards. *)
Definition run_trace {A} (p : Proc Call PageEffect A) n b
  : list (Event Call PageEffect) :=
  exec_trace backend_srv p (n, b).

Definition run_backend {A} (p : Proc Call PageEffect A) n b : B :=
  (exec_server backend_srv p (n, b)).2.

(** ** The equations of a run *)

Lemma run_trace_ret {A} (a : A) n b : run_trace (Ret a) n b = [].
Proof. done. Qed.

Lemma run_trace_do {A} e (k : Proc Call PageEffect A) n b :
  run_trace (Do e k) n b = EvDo e :: run_trace k n b.
Proof. apply exec_trace_do. Qed.

Lemma run_trace_await {A R} (c : Call R) (k : R → Proc Call PageEffect A) n b :
  run_trace (Await c k) n b
  = EvCall c (serve c (ρ n) b).1
    :: run_trace (k (serve c (ρ n) b).1) (S n) (serve c (ρ n) b).2.
Proof. apply (exec_trace_await backend_srv). Qed.

Lemma run_backend_ret {A} (a : A) n b : run_backend (Ret a) n b = b.
Proof. done. Qed.

Lemma run_backend_do {A} e (k : Proc Call PageEffect A) n b :
  run_backend (Do e k) n b = run_backend k n b.
Proof. unfold run_backend. by rewrite exec_server_do. Qed.

Lemma run_backend_await {A R} (c : Call R) (k : R → Proc Call PageEffect A)
    n b :
  run_backend (Await c k) n b
  = run_backend (k (serve c (ρ n) b).1) (S n) (serve c (ρ n) b).2.
Proof. unfold run_backend. by rewrite (exec_server_await backend_srv). Qed.

(** ** When a write is accepted *)

Lemma serve_insert_feedback_ok ε row b :
  env_ok ε = true → is_Some (session_of b) →
  (serve (InsertFeedback row) ε b).1 = None.
Proof. intros. by apply serve_insert_feedback_response. Qed.

Lemma serve_insert_feedback_refuse ε row b :
  env_ok ε = false ∨ session_of b = None →
  ∃ e, (serve (InsertFeedback row) ε b).1 = Some e.
Proof.
  intros Hno. destruct (serve _ ε b).1 as [e|] eqn:E; [by exists e|].
  apply serve_insert_feedback_response in E as [Hok [s Hs]].
  destruct Hno; congruence.
Qed.

Lemma serve_insert_comment_ok ε row b :
  env_ok ε = true → is_Some (session_of b) →
  ci_feedback_id row ∈ fb_id <$> feed_of b →
  (serve (InsertComment row) ε b).1 = None.
Proof. intros. by apply serve_insert_comment_response. Qed.

End runs.

(** [run_steps] runs a procedure as far as the responses are known. *)
Ltac run_step :=
  first [ rewrite run_trace_do | rewrite run_trace_await
        | rewrite run_trace_ret | rewrite run_backend_do
        | rewrite run_backend_await | rewrite run_backend_ret
        | rewrite serve_getUser | rewrite serve_getSession
        | rewrite serve_select
        | progress unfold detach, page_loadFeedbacks, map_effects,
            loadFeedbacks ].

Ltac run_steps := repeat (run_step; simpl).

(** [handler_tac] walks a handler of the page to show a property of its
    structure: through every effect, and every response to every
    call. *)
Ltac handler_tac :=
  repeat first
    [ done | lia | progress simpl | split | case_decide
    | intros [?|] | intros [? [?|]] | intros ?
    | progress unfold page_loadFeedbacks, map_effects, loadFeedbacks, detach ].

(** ** Scenarios *)

Section scenarios.
Context `{BackendSpec B} (ρ : nat → Env).
Implicit Types (b : B) (n : nat).

(** C1. Publishing a feedback (scenario A).  With a session, when the
    three calls go through and the clock has advanced since the newest
    entry, a submission followed by the reload it triggers leaves the page
    with the new feedback first: the captured category, title and
    content, the author's profile, no comment; below it, the feed the
    backend held before.  The dialog ends closed with its category reset,
    and the success toast is the only toast. *)
Theorem publish_appears_first n b s cat title content st dst :
  wf b → session_of b = Some s →
  env_ok (ρ n) = true → env_ok (ρ (S n)) = true →
  env_ok (ρ (S (S n))) = true →
  admissible (ρ (S n)) b → strictly_later (ρ (S n)) b →
  let t := run_trace ρ (page_handleSubmit cat title content) n b in
  let new := posted (ρ (S n))
               (feedback_row (session_user s) cat title content)
               (profile_of b (uid (session_user s))) in
  (∃ rest, feedbacks (index_after t st) = new :: rest ∧ rest ≡ₚ feed_of b) ∧
  dialog_after t dst
    = {| open := false; NewFeedbackDialog.isSubmitting := false;
         category := [] |} ∧
  page_toasts t = [ToastSuccess "Feedback publicado com sucesso!"].
Proof.
  intros Hwf Hs H0 H1 H2 Hadm Hlater.
  unfold page_handleSubmit, handleSubmit. simpl.
  run_steps. rewrite H0, Hs. simpl. run_steps.
  assert (Hok := serve_insert_feedback_ok (ρ (S n))
                   (feedback_row (session_user s) cat title content) b H1
                   ltac:(by rewrite Hs)).
  unfold feedback_row in Hok. rewrite Hok. simpl. run_steps.
  rewrite H2. simpl.
  destruct (feed_after_post _ _ _ Hwf Hadm Hlater Hok) as (rest & -> & Hperm).
  split; [by exists rest|done].
Qed.

(** C2. Commenting (scenario B).  With a session, a text that is not
    blank and a feedback that exists, when the three calls go through, a
    submission followed by the reload it triggers leaves the page with
    the same feed in the same order, the new comment appended to the
    comments of that feedback and of no other, with its author's profile
    and the text as typed; the card's input is cleared and its busy flag
    reset, and the success toast is the only toast. *)
Theorem comment_appears n b s id text st cst :
  session_of b = Some s → ¬ blank text → id ∈ fb_id <$> feed_of b →
  env_ok (ρ n) = true → env_ok (ρ (S n)) = true →
  env_ok (ρ (S (S n))) = true →
  let t := run_trace ρ (page_handleSubmitComment id text) n b in
  let new := commented (ρ (S n)) (comment_row id (session_user s) text)
                       (profile_of b (uid (session_user s))) in
  feedbacks (index_after t st) = with_comment id new <$> feed_of b ∧
  card_after id t cst
    = {| showComments := showComments cst; newComment := [];
         FeedbackCard.isSubmitting := false |} ∧
  page_toasts t = [ToastSuccess "Comentário enviado!"].
Proof.
  intros Hs Htext Hid H0 H1 H2.
  unfold page_handleSubmitComment, handleSubmitComment.
  rewrite not_truthy_trim, bool_decide_eq_false_2 by done. simpl.
  run_steps. rewrite H0, Hs. simpl. run_steps.
  assert (Hok := serve_insert_comment_ok (ρ (S n))
                   (comment_row id (session_user s) text) b H1
                   ltac:(by rewrite Hs) Hid).
  unfold comment_row in Hok. rewrite Hok. simpl. run_steps.
  rewrite H2. simpl.
  destruct (serve_insert_comment_accepted _ _ _ Hok) as [_ ->].
  split; [done|]. unfold card_after, effects. simpl.
  rewrite !decide_True by done. by destruct cst.
Qed.

(** C8. Mounting without a session (scenario C): the page redirects to
    the sign-in page, issues no query, stays on the loading screen, and
    the backend is untouched. *)
Theorem mount_without_session n b st :
  session_of b = None →
  run_trace ρ page_checkAuth n b
    = [EvCall GetSession None; EvDo (on_index (navigate "/auth"))] ∧
  index_after (run_trace ρ page_checkAuth n b) st = st ∧
  run_backend ρ page_checkAuth n b = b.
Proof.
  intros Hs. unfold page_checkAuth, checkAuth, map_effects. simpl.
  run_steps. rewrite Hs. by run_steps.
Qed.

(** C7. Mounting with a session.  The page ends with the session's user
    and the loading flag cleared, whether the query goes through or
    not.  When it does, the feed of the page is the feed of the backend,
    which is ordered newest first and has no two entries with the same
    identifier, and no toast is shown; when it fails, the feed is as it
    was and the load error is the only toast. *)
Theorem mount_with_session n b s st :
  wf b → session_of b = Some s →
  let t := run_trace ρ page_checkAuth n b in
  let st' := index_after t st in
  user st' = Some (session_user s) ∧ isLoading st' = false ∧
  if env_ok (ρ (S n))
  then feedbacks st' = feed_of b ∧
       StronglySorted newer (feedbacks st') ∧
       NoDup (fb_id <$> feedbacks st') ∧
       page_toasts t = []
  else feedbacks st' = feedbacks st ∧
       page_toasts t = [ToastError "Erro ao carregar feedbacks"].
Proof.
  intros Hwf Hs. unfold page_checkAuth, checkAuth, map_effects. simpl.
  run_steps. rewrite Hs. simpl. run_steps.
  destruct (env_ok (ρ (S n))); simpl; run_steps;
    split_and!; first [done|by apply feed_sorted|by apply feed_nodup].
Qed.

(** C29. A refused publication: when the insert does not go through, the
    backend is as it was, no reload is issued so the page's feed is
    untouched, the dialog stays open with its category, and the publish
    error is the only toast. *)
Theorem publish_refused n b s cat title content st dst :
  session_of b = Some s → env_ok (ρ n) = true → env_ok (ρ (S n)) = false →
  let p := page_handleSubmit cat title content in
  run_backend ρ p n b = b ∧
  index_after (run_trace ρ p n b) st = st ∧
  dialog_after (run_trace ρ p n b) dst
    = {| open := open dst; NewFeedbackDialog.isSubmitting := false;
         category := category dst |} ∧
  page_toasts (run_trace ρ p n b) = [ToastError "Erro ao publicar feedback"].
Proof.
  intros Hs H0 H1. unfold page_handleSubmit, handleSubmit. simpl.
  run_steps. rewrite H0, Hs. simpl. run_steps.
  destruct (serve_insert_feedback_refuse (ρ (S n))
              (feedback_row (session_user s) cat title content) b
              ltac:(by left)) as [e He].
  unfold feedback_row in He. rewrite He. simpl. run_steps.
  split; [|done]. by eapply serve_insert_feedback_refused.
Qed.

(** C30. Without a session nothing is written.  A submission issues no
    insert, leaves the backend and the page's feed as they were, and
    shows the unauthenticated error as its only toast; a comment, blank
    or not, issues no insert and leaves the backend and the page's feed
    as they were. *)
Theorem signed_out_writes_nothing n b st :
  session_of b = None →
  (∀ cat title content,
     let p := page_handleSubmit cat title content in
     run_backend ρ p n b = b ∧
     writes (run_trace ρ p n b) = [] ∧
     index_after (run_trace ρ p n b) st = st ∧
     page_toasts (run_trace ρ p n b)
     = [ToastError "Você precisa estar logado"]) ∧
  (∀ id text,
     let p := page_handleSubmitComment id text in
     run_backend ρ p n b = b ∧
     writes (run_trace ρ p n b) = [] ∧
     index_after (run_trace ρ p n b) st = st).
Proof.
  intros Hs. split.
  - intros cat title content. unfold page_handleSubmit, handleSubmit. simpl.
    run_steps. rewrite Hs. by destruct (env_ok _); simpl; run_steps.
  - intros id text. unfold page_handleSubmitComment, handleSubmitComment.
    destruct (negb _); simpl; [done|].
    run_steps. rewrite Hs. by destruct (env_ok _); simpl; run_steps.
Qed.

(** Signing out: when the call goes through, the backend has no
    session afterwards, its feed is unchanged, and the page redirects to
    the sign-in page. *)
Theorem sign_out_ends_session n b :
  env_ok (ρ n) = true →
  let t := run_trace ρ page_handleSignOut n b in
  let b' := run_backend ρ page_handleSignOut n b in
  session_of b' = None ∧ feed_of b' = feed_of b ∧
  EvDo (on_index (navigate "/auth")) ∈ t.
Proof.
  intros H0. unfold page_handleSignOut, handleSignOut, map_effects. simpl.
  run_steps. rewrite serve_signOut_response, H0. simpl. run_steps.
  rewrite serve_signOut_session, serve_signOut_feed, H0.
  split_and!; [done..|]. set_solver.
Qed.

(** C40. Loading is idempotent: a reload right after a load, with nothing
    written in between, leaves the page as the load left it, showing the
    feed of the backend. *)
Theorem reload_idempotent n m b st :
  env_ok (ρ n) = true → env_ok (ρ m) = true →
  let st1 := index_after (run_trace ρ page_loadFeedbacks n b) st in
  index_after (run_trace ρ page_loadFeedbacks m
                 (run_backend ρ page_loadFeedbacks n b)) st1 = st1 ∧
  feedbacks st1 = feed_of b.
Proof.
  intros Hn Hm. run_steps. rewrite Hn. simpl. run_steps.
  rewrite Hm. simpl. by run_steps.
Qed.

End scenarios.

(** ** The scenarios on the table model *)

(** One user, signed in, and an empty database; every call goes through,
    the clock ticks at each call and identifiers count up from 100. *)
Definition demo_profiles (i : Id) : Profile :=
  {| full_name := js "Ana Silva"; class := js "3A" |}.

Definition demo_session : Session := {| session_user := {| uid := 7%N |} |}.

Definition demo_env (n : nat) : Env :=
  {| env_ok := true; env_now := N.of_nat (S n);
     env_id := N.of_nat (100 + n) |}.

(** Only the first call goes through. *)
Definition flaky_env (n : nat) : Env :=
  {| env_ok := bool_decide (n = 0); env_now := N.of_nat (S n);
     env_id := N.of_nat (100 + n) |}.

Definition demo_backend : Backend :=
  empty_backend demo_profiles (Some demo_session).

Definition signed_out_backend : Backend := empty_backend demo_profiles None.

Definition demo_row : FeedbackInsert :=
  {| fi_user_id := 7%N; fi_category := js "geral"; fi_title := js "Festa";
     fi_content := js "Foi boa" |}.

(** The database after [demo_row] was stored as feedback 100. *)
Definition demo_backend1 : Backend :=
  insert_feedback (demo_env 0) demo_row demo_backend.

Lemma demo_backend_admissible n : admissible (demo_env n) demo_backend.
Proof. split; [apply not_elem_of_nil|simpl; lia]. Defined.

Lemma publish_appears_first_witness :
  ∃ rest,
    feedbacks
      (index_after
         (run_trace demo_env
            (page_handleSubmit (js "geral") (js "Festa") (js "Foi boa"))
            0 demo_backend)
         initialIndexState)
    = posted (demo_env 1) demo_row (demo_profiles 7%N) :: rest ∧
    rest ≡ₚ [].
Proof.
  refine (proj1 (publish_appears_first demo_env 0 demo_backend demo_session
            (js "geral") (js "Festa") (js "Foi boa") initialIndexState
            initialDialogState _ _ _ _ _ _ _));
    [apply empty_backend_wf|reflexivity..|apply demo_backend_admissible|].
  unfold strictly_later; simpl; lia.
Defined.

Lemma comment_appears_witness :
  page_toasts (run_trace demo_env (page_handleSubmitComment 100%N (js "oi"))
                 0 demo_backend1)
  = [ToastSuccess "Comentário enviado!"].
Proof.
  refine (proj2 (proj2 (comment_appears demo_env 0 demo_backend1 demo_session
            100%N (js "oi") initialIndexState initialCardState
            _ _ _ _ _ _)));
    [reflexivity| | |reflexivity..].
  - apply (bool_decide_eq_false_1 (blank (js "oi"))).
    rewrite <-not_truthy_trim. reflexivity.
  - vm_compute. left.
Defined.

Lemma mount_without_session_witness :
  run_backend demo_env page_checkAuth 0 signed_out_backend
  = signed_out_backend.
Proof.
  exact (proj2 (proj2 (mount_without_session demo_env 0 signed_out_backend
                         initialIndexState eq_refl))).
Defined.

Lemma mount_with_session_witness :
  feedbacks (index_after (run_trace demo_env page_checkAuth 0 demo_backend1)
               initialIndexState)
  = select_feed demo_backend1.
Proof.
  refine (proj1 (proj2 (proj2
            (mount_with_session demo_env 0 demo_backend1 demo_session
               initialIndexState _ eq_refl)))).
  apply insert_feedback_wf;
    [apply empty_backend_wf|apply demo_backend_admissible].
Defined.

(** The same mount when the query fails. *)
Example mount_query_fails_demo :
  page_toasts (run_trace flaky_env page_checkAuth 0 demo_backend1)
  = [ToastError "Erro ao carregar feedbacks"].
Proof. done. Qed.

Lemma publish_refused_witness :
  run_backend flaky_env
    (page_handleSubmit (js "geral") (js "Festa") (js "Foi boa"))
    0 demo_backend
  = demo_backend.
Proof.
  exact (proj1 (publish_refused flaky_env 0 demo_backend demo_session
                  (js "geral") (js "Festa") (js "Foi boa")
                  initialIndexState initialDialogState
                  eq_refl eq_refl eq_refl)).
Defined.

Lemma signed_out_writes_nothing_witness :
  run_backend demo_env
    (page_handleSubmit (js "geral") (js "Festa") (js "Foi boa"))
    0 signed_out_backend
  = signed_out_backend.
Proof.
  exact (proj1 (proj1 (signed_out_writes_nothing demo_env 0 signed_out_backend
                         initialIndexState eq_refl)
                  (js "geral") (js "Festa") (js "Foi boa"))).
Defined.

Lemma sign_out_ends_session_witness :
  session (run_backend demo_env page_handleSignOut 0 demo_backend1) = None.
Proof.
  exact (proj1 (sign_out_ends_session demo_env 0 demo_backend1 eq_refl)).
Defined.

Lemma reload_idempotent_witness :
  feedbacks (index_after (run_trace demo_env page_loadFeedbacks 0
                            demo_backend1) initialIndexState)
  = select_feed demo_backend1.
Proof.
  exact (proj2 (reload_idempotent demo_env 0 1 demo_backend1
                  initialIndexState eq_refl eq_refl)).
Defined.
