(* ===== verification/App.v ===== *)
(** * App: the running application

    The page of src/pages/Index.tsx with its children mounted, the
    handlers in flight, and the backend, as one state, and the events that
    change it: what the user does, the backend answering a request, a
    response reaching the handler that awaits it.  Responses arrive in any
    order, and a handler may be resumed after the component that started
    it is gone.

    - [PageInst]: one mounted page: the state of Index, its dialogs (the
      one of the header, line 142, and the one of the empty feed, line
      153) and its cards by key (line 158), each with the generation of
      its instance;
    - [Task]: a handler suspended on a call: the instances whose closure
      it runs in, whether the backend has answered, and what is left to
      run;
    - [subs]: the listeners registered with the client for session
      changes (line 53), one per page instance that subscribed and has
      not unsubscribed (line 62);
    - [reconcile]: which children are mounted after the page's state
      changed: instances are kept by position and by key, as React does;
    - [apply_effect]: an effect of a handler on the application: a setter
      reaches its component only if that instance is still mounted, a
      toast and a navigation always happen; a navigation unmounts the
      page ([unmount]);
    - [handler]: the handler that an event of the screen starts, from
      the bindings of each component ([signOut_handler],
      [dialog_handler], [card_handler]) and the callbacks the page
      gives its children;
    - [step]: one event; [reachable]: the states the application can be
      in, started from nothing mounted;
    - [sub_inv]: exactly the mounted page is subscribed; under it a step
      has one of four shapes ([step_spec]). *)

From S2P Require Import Prelude JsString Async Model Backend Supabase.
From S2P Require Import FeedbackCard NewFeedbackDialog Index Page.

(** ** State *)

Inductive DialogSlot := HeaderDialog | EmptyDialog.

#[export] Instance DialogSlot_eq_dec : EqDecision DialogSlot.
Proof. solve_decision. Defined.

(** The places of the page where a component is mounted. *)
Inductive Slot := SPage | SDialog (s : DialogSlot) | SCard (id : Id).

#[export] Instance Slot_eq_dec : EqDecision Slot.
Proof. solve_decision. Defined.

(** A mounted component: the generation of the instance (the value of a
    counter when it was mounted) and its state.  An instance is
    identified by its place and its generation. *)
Abbreviation Inst St := (nat * St)%type (only parsing).

Abbreviation Owner := (Slot * nat)%type (only parsing).

Record PageInst := {
  pg_inst : nat;
  pg_state : IndexState;
  pg_header : option (Inst DialogState);
  pg_empty : option (Inst DialogState);
  pg_cards : gmap Id (Inst CardState)
}.

(** What a suspended handler waits for: the backend to answer its call,
    or the answer to reach it. *)
Inductive Pending :=
| Requested {R} (c : Call R) (k : R → Proc Call PageEffect unit)
| Responded {R} (c : Call R) (r : R) (k : R → Proc Call PageEffect unit).

(** A handler suspended on a call.  [t_page] and [t_owner] are the page
    instance and the component instance of the render whose closure the
    handler is. *)
Record Task := {
  t_page : nat;
  t_owner : Owner;
  t_pending : Pending
}.

Record App (B : Type) := {
  backend : B;
  page : option PageInst;
  subs : list nat;
  tasks : list Task;
  next_inst : nat;
  toasts : list Toast
}.

#[global] Arguments backend {B} a.
#[global] Arguments page {B} a.
#[global] Arguments subs {B} a.
#[global] Arguments tasks {B} a.
#[global] Arguments next_inst {B} a.
#[global] Arguments toasts {B} a.

Definition initialApp {B} (b : B) : App B :=
  {| backend := b; page := None; subs := []; tasks := []; next_inst := 0;
     toasts := [] |}.

Definition set_page {B} (p : option PageInst) (a : App B) : App B :=
  {| backend := backend a; page := p; subs := subs a; tasks := tasks a;
     next_inst := next_inst a; toasts := toasts a |}.

Definition set_subs {B} (l : list nat) (a : App B) : App B :=
  {| backend := backend a; page := page a; subs := l; tasks := tasks a;
     next_inst := next_inst a; toasts := toasts a |}.

Definition set_tasks {B} (ts : list Task) (a : App B) : App B :=
  {| backend := backend a; page := page a; subs := subs a; tasks := ts;
     next_inst := next_inst a; toasts := toasts a |}.

Definition set_backend {B} (b : B) (a : App B) : App B :=
  {| backend := b; page := page a; subs := subs a; tasks := tasks a;
     next_inst := next_inst a; toasts := toasts a |}.

Definition set_next {B} (n : nat) (a : App B) : App B :=
  {| backend := backend a; page := page a; subs := subs a; tasks := tasks a;
     next_inst := n; toasts := toasts a |}.

Definition add_toast {B} (t : option Toast) (a : App B) : App B :=
  {| backend := backend a; page := page a; subs := subs a; tasks := tasks a;
     next_inst := next_inst a; toasts := toasts a ++ option_list t |}.

(** ** Mounting children *)

(** The cards of a feed: the instance of a key that is already mounted is
    kept, a new key gets a new instance in its initial state. *)
Definition mount_cards (next : nat) (old : gmap Id (Inst CardState))
    (feed : list Feedback) : gmap Id (Inst CardState) :=
  list_to_map
    ((λ f, (fb_id f, default (next, initialCardState) (old !! fb_id f)))
       <$> feed).

(** The children of the page after its state became [st]: none on the
    loading screen; the dialog of the header otherwise, with the second
    dialog when the feed is empty and one card per feedback when it is
    not.  New instances are of generation [next]. *)
Definition reconcile (next : nat) (p : PageInst) (st : IndexState)
  : PageInst :=
  match Index_body st with
  | BodyLoading =>
      {| pg_inst := pg_inst p; pg_state := st; pg_header := None;
         pg_empty := None; pg_cards := ∅ |}
  | BodyEmpty =>
      {| pg_inst := pg_inst p; pg_state := st;
         pg_header := Some (default (next, initialDialogState) (pg_header p));
         pg_empty :=
           Some (default (next, initialDialogState) (pg_empty p));
         pg_cards := ∅ |}
  | BodyFeed _ =>
      {| pg_inst := pg_inst p; pg_state := st;
         pg_header := Some (default (next, initialDialogState) (pg_header p));
         pg_empty := None;
         pg_cards := mount_cards next (pg_cards p) (feedbacks st) |}
  end.

(** ** Effects *)

(** A setter reaches the instance of generation [g] only. *)
Definition update_inst {St} (g : nat) (f : St → St) (c : Inst St) : Inst St :=
  if decide (c.1 = g) then (c.1, f c.2) else c.

Definition set_header (d : option (Inst DialogState)) (p : PageInst)
  : PageInst :=
  {| pg_inst := pg_inst p; pg_state := pg_state p; pg_header := d;
     pg_empty := pg_empty p; pg_cards := pg_cards p |}.

Definition set_empty (d : option (Inst DialogState)) (p : PageInst)
  : PageInst :=
  {| pg_inst := pg_inst p; pg_state := pg_state p; pg_header := pg_header p;
     pg_empty := d; pg_cards := pg_cards p |}.

Definition set_cards (cs : gmap Id (Inst CardState)) (p : PageInst)
  : PageInst :=
  {| pg_inst := pg_inst p; pg_state := pg_state p; pg_header := pg_header p;
     pg_empty := pg_empty p; pg_cards := cs |}.

(** An effect of a component on the page: it reaches the component at
    the place of the handler's owner, if it is of the owner's
    generation. *)
Definition page_apply (ow : Owner) (e : PageEffect) (p : PageInst) : PageInst :=
  match e with
  | on_index _ => p
  | on_dialog e =>
      match ow.1 with
      | SDialog HeaderDialog =>
          set_header (update_inst ow.2 (dialog_apply e) <$> pg_header p) p
      | SDialog EmptyDialog =>
          set_empty (update_inst ow.2 (dialog_apply e) <$> pg_empty p) p
      | _ => p
      end
  | on_card id e =>
      if decide (ow.1 = SCard id)
      then set_cards (alter (update_inst ow.2 (card_apply e)) id (pg_cards p)) p
      else p
  end.

#[global] Arguments page_apply : simpl never.
#[global] Arguments reconcile : simpl never.

Definition is_navigate (e : PageEffect) : bool :=
  match e with on_index (navigate _) => true | _ => false end.

(** The route leaves the page: the page is unmounted and the cleanup of
    its mount effect releases its subscription (line 62). *)
Definition unmount {B} (a : App B) : App B :=
  {| backend := backend a; page := None;
     subs := match page a with
             | Some p => filter (λ n, n ≠ pg_inst p) (subs a)
             | None => subs a
             end;
     tasks := tasks a; next_inst := next_inst a; toasts := toasts a |}.

(** One effect of a handler whose closure belongs to the page instance
    [pg] and the component instance [ow]. *)
Definition apply_effect {B} (pg : nat) (ow : Owner) (e : PageEffect)
    (a : App B)
  : App B :=
  let a := add_toast (page_toast e) a in
  if is_navigate e then unmount a
  else
    match page a with
    | Some p =>
        if decide (pg_inst p = pg) then
          match e with
          | on_index e =>
              let st := index_apply e (pg_state p) in
              set_next (S (next_inst a))
                (set_page (Some (reconcile (next_inst a) p st)) a)
          | _ => set_page (Some (page_apply ow e p)) a
          end
        else a
    | None => a
    end.

Definition apply_effects {B} (pg : nat) (ow : Owner) (es : list PageEffect)
    (a : App B)
  : App B :=
  foldl (λ a e, apply_effect pg ow e a) a es.

(** Runs [p] up to its first [await]: its effects happen, and what is
    left becomes a task. *)
Definition start {B} (pg : nat) (ow : Owner) (p : Proc Call PageEffect unit)
    (a : App B)
  : App B :=
  let a := apply_effects pg ow (sync p).1 a in
  match (sync p).2 with
  | Finished _ => a
  | Waiting c k =>
      set_tasks (tasks a ++ [{| t_page := pg; t_owner := ow;
                                t_pending := Requested c k |}]) a
  end.

(** ** Events *)

Inductive AppEvent :=
| AMount
| ASessionChange (s : option Session)
| ASignOutClick
| ADialog (slot : DialogSlot) (e : DialogEvent)
| ACard (id : Id) (e : CardEvent)
| AServe (i : nat) (ε : Env)
| ADeliver (i : nat).

Abbreviation ADialogOpen slot b := (ADialog slot (DOpen b)).
Abbreviation ADialogCategory slot value := (ADialog slot (DCategory value)).
Abbreviation ADialogCancel slot := (ADialog slot DCancel).
Abbreviation ADialogSubmit slot title content :=
  (ADialog slot (DSubmit title content)).
Abbreviation ACardToggle id := (ACard id CToggle).
Abbreviation ACardType id text := (ACard id (CType text)).
Abbreviation ACardSend id := (ACard id CSend).

Definition dialog_at (slot : DialogSlot) (p : PageInst)
  : option (Inst DialogState) :=
  match slot with
  | HeaderDialog => pg_header p
  | EmptyDialog => pg_empty p
  end.

(** The backend answers the request of a task. *)
Definition serve_task `{BackendSpec B} (ε : Env) (t : Task) (b : B)
  : option (Task * B) :=
  match t_pending t with
  | Requested c k =>
      Some ({| t_page := t_page t; t_owner := t_owner t;
               t_pending := Responded c (serve c ε b).1 k |},
            (serve c ε b).2)
  | Responded _ _ _ => None
  end.

(** What a task runs when the answer reaches it. *)
Definition resume (t : Task) : option (Proc Call PageEffect unit) :=
  match t_pending t with
  | Requested _ _ => None
  | Responded _ r k => Some (k r)
  end.

(** The handler that an event of the screen starts on the page [p],
    with the instance it belongs to: the sign-out button of the page
    (line 123), a dialog with [onFeedbackAdded={loadFeedbacks}] (142,
    153), a card with [onCommentAdded={loadFeedbacks}] (157-167).  None
    when the component is not on the screen or its own bindings give
    none. *)
Definition handler (ev : AppEvent) (p : PageInst)
  : option (Owner * Proc Call PageEffect unit) :=
  match ev with
  | ASignOutClick =>
      q ← signOut_handler (pg_state p) ;
      Some ((SPage, pg_inst p), map_effects on_index q)
  | ADialog slot e =>
      d ← dialog_at slot p ;
      q ← dialog_handler e d.2 ;
      Some ((SDialog slot, d.1), wire on_dialog dialog_callback q)
  | ACard id e =>
      c ← pg_cards p !! id ;
      q ← card_handler id e c.2 ;
      Some ((SCard id, c.1), wire (on_card id) card_callback q)
  | AMount | ASessionChange _ | AServe _ _ | ADeliver _ => None
  end.

(** The page as it mounts: the loading screen, no children. *)
Definition new_page (n : nat) : PageInst :=
  {| pg_inst := n; pg_state := initialIndexState;
     pg_header := None; pg_empty := None; pg_cards := ∅ |}.

(** The page mounts: a new instance on the loading screen, whose mount
    effect calls [checkAuth] without awaiting it (lines 40-51) and then
    subscribes to the session changes (53). *)
Definition mount {B} (a : App B) : App B :=
  let n := next_inst a in
  let a := start n (SPage, n) page_checkAuth
             (set_next (S n) (set_page (Some (new_page n)) a)) in
  set_subs (subs a ++ [n]) a.

(** The listener that a page passes to [onAuthStateChange] (54-59). *)
Definition session_listener (s : option Session)
  : Proc Call PageEffect unit :=
  map_effects on_index (onAuthStateChange s).

(** The client reports a session change: every registered listener
    runs, one after the other. *)
Definition notify {B} (s : option Session) (a : App B) : App B :=
  foldl (λ a pg, start pg (SPage, pg) (session_listener s) a) a (subs a).

Section step.
Context `{BackendSpec B}.

Definition step (ev : AppEvent) (a : App B) : option (App B) :=
  match ev with
  | AMount =>
      match page a with
      | Some _ => None
      | None => Some (mount a)
      end
  | ASessionChange s =>
      match subs a with
      | [] => None
      | _ :: _ => Some (notify s a)
      end
  | AServe i ε =>
      t ← tasks a !! i ;
      '(t', b') ← serve_task ε t (backend a) ;
      Some (set_backend b' (set_tasks (<[i := t']> (tasks a)) a))
  | ADeliver i =>
      t ← tasks a !! i ;
      p ← resume t ;
      Some (start (t_page t) (t_owner t) p
              (set_tasks (delete i (tasks a)) a))
  | _ =>
      p ← page a ;
      '(ow, q) ← handler ev p ;
      Some (start (pg_inst p) ow q a)
  end.

(** A sequence of events, from left to right. *)
Fixpoint steps (evs : list AppEvent) (a : App B) : option (App B) :=
  match evs with
  | [] => Some a
  | ev :: evs => a' ← step ev a ; steps evs a'
  end.

(** The states the application can be in, started on the backend [b0]
    with nothing mounted; the backend answers in circumstances it can
    produce. *)
Inductive reachable (b0 : B) : App B → Prop :=
| reachable_init : reachable b0 (initialApp b0)
| reachable_step ev a a' :
    reachable b0 a →
    step ev a = Some a' →
    (∀ i ε, ev = AServe i ε → admissible ε (backend a)) →
    reachable b0 a'.

End step.

(** ** Basic facts *)

Lemma reconcile_state next p st : pg_state (reconcile next p st) = st.
Proof. unfold reconcile. by destruct (Index_body st). Qed.

Lemma reconcile_inst next p st : pg_inst (reconcile next p st) = pg_inst p.
Proof. unfold reconcile. by destruct (Index_body st). Qed.

(** The cards after a render: one per feedback shown, the instance that
    was there or one of the new generation. *)
Lemma mount_cards_lookup next old feed id c :
  mount_cards next old feed !! id = Some c →
  c = default (next, initialCardState) (old !! id).
Proof.
  unfold mount_cards. intros Hc%elem_of_list_to_map_2.
  apply list_elem_of_fmap in Hc as (f & [= -> ->] & _). done.
Qed.

Lemma mount_cards_is_Some next old feed id :
  is_Some (mount_cards next old feed !! id) ↔ id ∈ fb_id <$> feed.
Proof.
  unfold mount_cards.
  rewrite <-not_eq_None_Some, <-not_elem_of_list_to_map, <-list_fmap_compose.
  split; [apply dec_stable|by intros ? ?].
Qed.

(** Rendering the same keys again keeps every card. *)
Lemma mount_cards_same next (old : gmap Id (Inst CardState)) feed :
  (∀ id, is_Some (old !! id) ↔ id ∈ fb_id <$> feed) →
  mount_cards next old feed = old.
Proof.
  intros Hold. apply map_eq. intros id.
  destruct (mount_cards next old feed !! id) as [c|] eqn:Hc.
  - pose proof (mount_cards_lookup _ _ _ _ _ Hc) as ->.
    assert (is_Some (old !! id)) as [c Hid].
    { apply Hold, mount_cards_is_Some with next old. by eexists. }
    by rewrite Hid.
  - apply eq_None_not_Some in Hc. rewrite mount_cards_is_Some, <-Hold in Hc.
    symmetry. by apply eq_None_not_Some.
Qed.

Lemma page_apply_state ow e p : pg_state (page_apply ow e p) = pg_state p.
Proof.
  unfold page_apply.
  destruct e as [| |id e]; [done|by repeat case_match|by case_decide].
Qed.

Lemma page_apply_inst ow e p : pg_inst (page_apply ow e p) = pg_inst p.
Proof.
  unfold page_apply.
  destruct e as [| |id e]; [done|by repeat case_match|by case_decide].
Qed.

Section basic.
Context {B : Type}.
Implicit Types (a : App B) (e : PageEffect) (p : Proc Call PageEffect unit).

Lemma apply_effect_tasks pg ow e a : tasks (apply_effect pg ow e a) = tasks a.
Proof.
  unfold apply_effect. destruct (is_navigate e); [done|]. simpl.
  destruct (page a) as [pi|]; [|done]. case_decide; [|done]. by destruct e.
Qed.

Lemma apply_effect_backend pg ow e a :
  backend (apply_effect pg ow e a) = backend a.
Proof.
  unfold apply_effect. destruct (is_navigate e); [done|]. simpl.
  destruct (page a) as [pi|]; [|done]. case_decide; [|done]. by destruct e.
Qed.

Lemma apply_effect_unmounted pg ow e a :
  page a = None → page (apply_effect pg ow e a) = None.
Proof.
  intros Hp. unfold apply_effect. destruct (is_navigate e); [done|].
  simpl. by rewrite Hp.
Qed.

(** The page after an effect is the page before it, in some state. *)
Lemma apply_effect_inst pg ow e a (pi' : PageInst) :
  page (apply_effect pg ow e a) = Some pi' →
  ∃ pi, page a = Some pi ∧ pg_inst pi' = pg_inst pi.
Proof.
  unfold apply_effect. destruct (is_navigate e); simpl; [done|].
  destruct (page a) as [pi|] eqn:Hp; simpl; rewrite ?Hp; [|done].
  case_decide; simpl; rewrite ?Hp.
  - destruct e; simpl; intros [= <-]; exists pi;
      by rewrite ?reconcile_inst, ?page_apply_inst.
  - intros [= <-]. by exists pi.
Qed.

Lemma apply_effects_tasks pg ow es a :
  tasks (apply_effects pg ow es a) = tasks a.
Proof.
  revert a. induction es as [|e es IH]; intros a; simpl; [done|].
  by rewrite IH, apply_effect_tasks.
Qed.

Lemma apply_effects_backend pg ow es a :
  backend (apply_effects pg ow es a) = backend a.
Proof.
  revert a. induction es as [|e es IH]; intros a; simpl; [done|].
  by rewrite IH, apply_effect_backend.
Qed.

Lemma apply_effects_unmounted pg ow es a :
  page a = None → page (apply_effects pg ow es a) = None.
Proof.
  revert a. induction es as [|e es IH]; intros a Hp; simpl; [done|].
  by apply IH, apply_effect_unmounted.
Qed.

Lemma start_tasks pg ow p a :
  tasks (start pg ow p a)
  = tasks a ++ match (sync p).2 with
               | Finished _ => []
               | Waiting c k => [{| t_page := pg; t_owner := ow;
                                    t_pending := Requested c k |}]
               end.
Proof.
  unfold start. destruct (sync p).2; simpl;
    by rewrite apply_effects_tasks, ?app_nil_r.
Qed.

Lemma start_backend pg ow p a : backend (start pg ow p a) = backend a.
Proof.
  unfold start. destruct (sync p).2; simpl; by rewrite apply_effects_backend.
Qed.

Lemma start_page pg ow p a :
  page (start pg ow p a) = page (apply_effects pg ow (sync p).1 a).
Proof. unfold start. by destruct (sync p).2. Qed.

Lemma start_subs pg ow p a :
  subs (start pg ow p a) = subs (apply_effects pg ow (sync p).1 a).
Proof. unfold start. by destruct (sync p).2. Qed.

Lemma start_do pg ow e q a :
  start pg ow (Do e q) a = start pg ow q (apply_effect pg ow e a).
Proof. unfold start. simpl. by destruct (sync q). Qed.

Lemma start_ret pg ow x a : start pg ow (Ret x) a = a.
Proof. done. Qed.

Lemma start_await {R} pg ow (c : Call R) k a :
  start pg ow (Await c k) a
  = set_tasks (tasks a ++ [{| t_page := pg; t_owner := ow;
                              t_pending := Requested c k |}]) a.
Proof. done. Qed.

(** With no page mounted a navigation changes nothing. *)
Lemma unmount_gone a : page a = None → unmount a = a.
Proof. destruct a. simpl. by intros ->. Qed.

(** With no page mounted an effect shows its toast and nothing else. *)
Lemma apply_effect_gone pg ow e a :
  page a = None → apply_effect pg ow e a = add_toast (page_toast e) a.
Proof.
  intros Hp. unfold apply_effect.
  destruct (is_navigate e); [by apply unmount_gone|]. simpl. by rewrite Hp.
Qed.

(** An effect of a page instance that is not the one mounted shows its
    toast, navigates if it is a navigation, and sets nothing. *)
Lemma apply_effect_stale pg ow e a (pi : PageInst) :
  page a = Some pi → pg_inst pi ≠ pg →
  apply_effect pg ow e a
  = if is_navigate e then unmount (add_toast (page_toast e) a)
    else add_toast (page_toast e) a.
Proof.
  intros Hp Hpg. unfold apply_effect. destruct (is_navigate e); [done|].
  simpl. by rewrite Hp, decide_False.
Qed.

(** Mounting starts the session check and registers the listener. *)
Lemma mount_eq a :
  mount a
  = set_subs (subs a ++ [next_inst a])
      (start (next_inst a) (SPage, next_inst a) page_checkAuth
         (set_next (S (next_inst a))
            (set_page (Some (new_page (next_inst a))) a))).
Proof. done. Qed.

(** Registering the listener changes the subscriptions only. *)
Lemma mount_backend a : backend (mount a) = backend a.
Proof.
  exact (start_backend _ _ _ (set_next _ (set_page (Some (new_page _)) a))).
Qed.

Lemma mount_tasks a :
  tasks (mount a)
  = tasks (start (next_inst a) (SPage, next_inst a) page_checkAuth
             (set_next (S (next_inst a))
                (set_page (Some (new_page (next_inst a))) a))).
Proof. done. Qed.

Lemma mount_page a :
  page (mount a)
  = page (start (next_inst a) (SPage, next_inst a) page_checkAuth
            (set_next (S (next_inst a))
               (set_page (Some (new_page (next_inst a))) a))).
Proof. done. Qed.

End basic.

(** ** The subscription *)

(** Exactly the mounted page is subscribed: the mount effect acquires
    the subscription and its cleanup releases it. *)
Definition sub_inv {B} (a : App B) : Prop :=
  subs a = match page a with
           | Some p => [pg_inst p]
           | None => []
           end.

Section subscription.
Context {B : Type}.
Implicit Types (a : App B) (e : PageEffect) (p : Proc Call PageEffect unit).

Lemma apply_effect_sub_inv pg ow e a :
  sub_inv a → sub_inv (apply_effect pg ow e a).
Proof.
  unfold sub_inv, apply_effect. destruct (is_navigate e); simpl.
  - destruct (page a) as [p0|]; intros ->; [|done].
    rewrite filter_cons_False by (by intros []). done.
  - destruct (page a) as [p0|] eqn:Hp; simpl; rewrite ?Hp; [|done].
    case_decide; simpl; rewrite ?Hp; [|done].
    destruct e; simpl; by rewrite ?reconcile_inst, ?page_apply_inst.
Qed.

Lemma apply_effects_sub_inv pg ow es a :
  sub_inv a → sub_inv (apply_effects pg ow es a).
Proof.
  revert a. induction es as [|e es IH]; intros a Ha; simpl; [done|].
  by apply IH, apply_effect_sub_inv.
Qed.

Lemma start_sub_inv pg ow p a : sub_inv a → sub_inv (start pg ow p a).
Proof.
  intros Ha. unfold sub_inv. rewrite start_subs, start_page.
  by apply apply_effects_sub_inv.
Qed.

Lemma mount_sub_inv a : page a = None → sub_inv a → sub_inv (mount a).
Proof. unfold sub_inv. intros -> Hs. rewrite mount_eq. simpl. by rewrite Hs. Qed.

(** With the mounted page as the only subscriber, a session change
    runs its listener once. *)
Lemma notify_mounted s a pi :
  sub_inv a → page a = Some pi →
  notify s a = start (pg_inst pi) (SPage, pg_inst pi) (session_listener s) a.
Proof. unfold sub_inv, notify. intros -> ->. done. Qed.

End subscription.

(** ** The shapes of a step *)

(** The handler that an event starts on the mounted page: the one of
    the screen, or the listener of the page for a session change. *)
Definition started (ev : AppEvent) (p : PageInst)
  : option (Owner * Proc Call PageEffect unit) :=
  match ev with
  | ASessionChange s => Some ((SPage, pg_inst p), session_listener s)
  | _ => handler ev p
  end.

(** [started] as a relation: the listener of the page; the sign-out
    handler once the page has loaded; the setters of a dialog or a card
    on the screen, behind the element that shows them; a submission of
    an open dialog whose form is valid and whose button is enabled; a
    comment of an open card whose button is enabled. *)
Inductive starts (p : PageInst)
  : AppEvent → Owner → Proc Call PageEffect unit → Prop :=
| starts_listener s :
    starts p (ASessionChange s) (SPage, pg_inst p) (session_listener s)
| starts_signOut :
    isLoading (pg_state p) = false →
    starts p ASignOutClick (SPage, pg_inst p) page_handleSignOut
| starts_open slot d b :
    dialog_at slot p = Some d →
    starts p (ADialogOpen slot b) (SDialog slot, d.1)
      (wire on_dialog dialog_callback (onOpenChange b))
| starts_category slot d value :
    dialog_at slot p = Some d → open d.2 = true →
    value ∈ (js ∘ fst) <$> selectItems →
    starts p (ADialogCategory slot value) (SDialog slot, d.1)
      (wire on_dialog dialog_callback (onValueChange value))
| starts_cancel slot d :
    dialog_at slot p = Some d → open d.2 = true →
    starts p (ADialogCancel slot) (SDialog slot, d.1)
      (wire on_dialog dialog_callback onCancel)
| starts_submit slot d title content :
    dialog_at slot p = Some d → open d.2 = true →
    formValid (category d.2) title content = true →
    NewFeedbackDialog.isSubmitting d.2 = false →
    starts p (ADialogSubmit slot title content) (SDialog slot, d.1)
      (page_handleSubmit (category d.2) title content)
| starts_toggle id c :
    pg_cards p !! id = Some c →
    starts p (ACardToggle id) (SCard id, c.1)
      (wire (on_card id) card_callback (toggleComments (showComments c.2)))
| starts_type id c text :
    pg_cards p !! id = Some c → showComments c.2 = true →
    starts p (ACardType id text) (SCard id, c.1)
      (wire (on_card id) card_callback (onChangeComment text))
| starts_send id c :
    pg_cards p !! id = Some c → showComments c.2 = true →
    FeedbackCard.isSubmitting c.2 = false → ¬ blank (newComment c.2) →
    starts p (ACardSend id) (SCard id, c.1)
      (page_handleSubmitComment id (newComment c.2)).

Lemma started_starts ev p ow q : started ev p = Some (ow, q) → starts p ev ow q.
Proof.
  destruct ev as [|s| |slot e|id e| |]; simpl; try done.
  - intros [= <- <-]. constructor.
  - unfold signOut_handler. destruct (isLoading _) eqn:Hl; [done|].
    intros [= <- <-]. by constructor.
  - destruct (dialog_at slot p) as [d|] eqn:Hd; [|done]. simpl.
    destruct e as [b|value| |title content]; simpl.
    + intros [= <- <-]. by constructor.
    + destruct (open d.2) eqn:Ho; [|done]. simpl. case_bool_decide; [|done].
      intros [= <- <-]. by constructor.
    + destruct (open d.2) eqn:Ho; [|done]. intros [= <- <-]. by constructor.
    + destruct (open d.2) eqn:Ho; [|done].
      destruct (formValid _ _ _) eqn:Hv; [|done]. unfold submitDisabled.
      destruct (NewFeedbackDialog.isSubmitting d.2) eqn:Hb; [done|].
      intros [= <- <-]. by constructor.
  - destruct (pg_cards p !! id) as [c|] eqn:Hc; [|done]. simpl.
    destruct e as [|text|]; simpl.
    + intros [= <- <-]. by constructor.
    + destruct (showComments c.2) eqn:Ho; [|done]. intros [= <- <-].
      by constructor.
    + destruct (showComments c.2) eqn:Ho; [|done].
      destruct (sendDisabled c.2) eqn:Hs; [done|]. intros [= <- <-].
      apply not_true_iff_false in Hs. rewrite sendDisabled_iff in Hs.
      constructor; try done; [|tauto].
      destruct (FeedbackCard.isSubmitting c.2); [tauto|done].
Qed.

Lemma starts_started ev p ow q : starts p ev ow q → started ev p = Some (ow, q).
Proof.
  destruct 1 as [s|Hl|slot d b Hd|slot d v Hd Ho Hv|slot d Hd Ho
                 |slot d title content Hd Ho Hv Hb|id c Hc|id c text Hc Ho
                 |id c Hc Ho Hb Hn]; simpl;
    rewrite ?Hd, ?Hc; simpl; unfold signOut_handler, submitDisabled;
    rewrite ?Hl, ?Ho, ?Hv, ?Hb; simpl; try done.
  - by rewrite bool_decide_eq_true_2.
  - assert (sendDisabled c.2 = false) as ->; [|done].
    apply not_true_iff_false. rewrite sendDisabled_iff. intros [?|?]; [|done].
    congruence.
Qed.

Section step_shape.
Context `{BackendSpec B}.
Implicit Types (a : App B).

(** The shapes of a step. *)
Inductive step_spec a : AppEvent → App B → Prop :=
| step_mount :
    page a = None → step_spec a AMount (mount a)
| step_user ev p ow q :
    page a = Some p → started ev p = Some (ow, q) →
    step_spec a ev (start (pg_inst p) ow q a)
| step_serve i ε t t' b' :
    tasks a !! i = Some t → serve_task ε t (backend a) = Some (t', b') →
    step_spec a (AServe i ε)
      (set_backend b' (set_tasks (<[i := t']> (tasks a)) a))
| step_deliver i t q :
    tasks a !! i = Some t → resume t = Some q →
    step_spec a (ADeliver i)
      (start (t_page t) (t_owner t) q (set_tasks (delete i (tasks a)) a)).

Definition user_event (ev : AppEvent) : bool :=
  match ev with
  | ASignOutClick | ADialog _ _ | ACard _ _ => true
  | _ => false
  end.

Lemma step_user_inv ev a a' :
  user_event ev = true → step ev a = Some a' →
  ∃ p ow q, page a = Some p ∧ handler ev p = Some (ow, q) ∧
            a' = start (pg_inst p) ow q a.
Proof.
  intros Hev Hs.
  assert (step ev a = (p ← page a ; '(ow, q) ← handler ev p ;
                       Some (start (pg_inst p) ow q a))) as Heq
    by (by destruct ev).
  rewrite Heq in Hs. destruct (page a) as [p|]; [|done]. simpl in Hs.
  destruct (handler ev p) as [[ow q]|] eqn:Hh; [|done]. simplify_eq/=.
  by exists p, ow, q.
Qed.

Lemma step_session_inv s a a' :
  sub_inv a → step (ASessionChange s) a = Some a' →
  ∃ p, page a = Some p ∧
       a' = start (pg_inst p) (SPage, pg_inst p) (session_listener s) a.
Proof.
  intros Hsub Hs. simpl in Hs.
  destruct (page a) as [p|] eqn:Hp.
  - exists p. split; [done|]. rewrite <-(notify_mounted s a p Hsub Hp).
    destruct (subs a); by simplify_eq.
  - unfold sub_inv in Hsub. rewrite Hp in Hsub. by rewrite Hsub in Hs.
Qed.

Lemma step_inv ev a a' :
  sub_inv a → step ev a = Some a' → step_spec a ev a'.
Proof.
  intros Hsub Hs. destruct (user_event ev) eqn:Hev.
  { destruct (step_user_inv _ _ _ Hev Hs) as (p & ow & q & ? & ? & ->).
    eapply step_user; [done|]. by destruct ev. }
  destruct ev as [|s| | | |i ε|i]; try done.
  - simpl in Hs. destruct (page a) eqn:Hp; simplify_eq. by apply step_mount.
  - destruct (step_session_inv _ _ _ Hsub Hs) as (p & Hp & ->).
    by eapply step_user.
  - simpl in Hs. destruct (tasks a !! i) as [t|] eqn:Ht; simplify_option_eq.
    destruct (serve_task ε t (backend a)) as [[t' b']|] eqn:Hsv;
      simplify_option_eq. by eapply step_serve.
  - simpl in Hs. destruct (tasks a !! i) as [t|] eqn:Ht; simplify_option_eq.
    by eapply step_deliver.
Qed.

(** The backend answers a request in flight. *)
Lemma step_serve_eq {R} i ε a pg ow (c : Call R) k :
  tasks a !! i = Some {| t_page := pg; t_owner := ow;
                         t_pending := Requested c k |} →
  step (AServe i ε) a
  = Some (set_backend (serve c ε (backend a)).2
            (set_tasks (<[i := {| t_page := pg; t_owner := ow;
                                  t_pending :=
                                    Responded c (serve c ε (backend a)).1 k |}]>
                          (tasks a)) a)).
Proof. intros Ht. simpl. by rewrite Ht. Qed.

(** An answer reaches its handler. *)
Lemma step_deliver_eq {R} i a pg ow (c : Call R) r k :
  tasks a !! i = Some {| t_page := pg; t_owner := ow;
                         t_pending := Responded c r k |} →
  step (ADeliver i) a
  = Some (start pg ow (k r) (set_tasks (delete i (tasks a)) a)).
Proof. intros Ht. simpl. by rewrite Ht. Qed.

(** Every step keeps the subscription of the mounted page, and of it
    alone. *)
Lemma step_sub_inv ev a a' : sub_inv a → step ev a = Some a' → sub_inv a'.
Proof.
  intros Hsub Hs.
  destruct (step_inv _ _ _ Hsub Hs)
    as [Hp|ev p ow q Hp Hh|i ε t t' b' Ht Hsv|i t q Ht Hq].
  - by apply mount_sub_inv.
  - by apply start_sub_inv.
  - done.
  - by apply start_sub_inv.
Qed.

Lemma reachable_sub_inv b0 a : reachable b0 a → sub_inv a.
Proof.
  induction 1 as [|ev a a' _ IH Hs _]; [done|]. by eapply step_sub_inv.
Qed.

End step_shape.

(** ** Runs *)

Section runs.
Context `{BackendSpec B}.
Implicit Types (a : App B).

(** Every answer of the backend in the run [evs] from [a] is given in
    circumstances the backend can produce, and every event is a step. *)
Fixpoint admissible_run (evs : list AppEvent) a : Prop :=
  match evs with
  | [] => True
  | ev :: evs =>
      match ev with AServe _ ε => admissible ε (backend a) | _ => True end ∧
      match step ev a with
      | Some a' => admissible_run evs a'
      | None => False
      end
  end.

Lemma reachable_steps b0 evs a :
  reachable b0 a → admissible_run evs a →
  ∃ a', steps evs a = Some a' ∧ reachable b0 a'.
Proof.
  revert a. induction evs as [|ev evs IH]; intros a Ha; simpl; [by eauto|].
  intros [Hadm Hs]. destruct (step ev a) as [a'|] eqn:Hstep; [|done].
  simpl. apply IH; [|done]. eapply reachable_step; [done..|].
  by intros i ε ->.
Qed.

Lemma steps_app evs1 evs2 a :
  steps (evs1 ++ evs2) a = steps evs1 a ≫= steps evs2.
Proof.
  revert a. induction evs1 as [|ev evs1 IH]; intros a; simpl; [done|].
  destruct (step ev a); simpl; [apply IH|done].
Qed.

End runs.

(** On the table model the circumstances can be checked. *)
#[export] Instance fresh_env_dec ε b : Decision (fresh_env ε b).
Proof. unfold fresh_env. apply _. Defined.

Fixpoint check_run (evs : list AppEvent) (a : App Backend) : bool :=
  match evs with
  | [] => true
  | ev :: evs =>
      match ev with
      | AServe _ ε => bool_decide (fresh_env ε (backend a))
      | _ => true
      end &&
      match step ev a with
      | Some a' => check_run evs a'
      | None => false
      end
  end.

Lemma check_run_admissible evs a : check_run evs a = true → admissible_run evs a.
Proof.
  revert a. induction evs as [|ev evs IH]; intros a; simpl; [done|].
  intros [Hadm Hs]%andb_true_iff. split.
  - destruct ev; try done. by apply bool_decide_eq_true in Hadm.
  - destruct (step ev a); [by apply IH|done].
Qed.

(** The states of the table model reached by a checked run. *)
Lemma reachable_run b0 evs :
  check_run evs (initialApp b0) = true →
  ∃ a, steps evs (initialApp b0) = Some a ∧ reachable b0 a.
Proof.
  intros Hrun. apply reachable_steps; [constructor|].
  by apply check_run_admissible.
Qed.
