(* ===== verification/AppDemo.v ===== *)
(** * AppDemo: runs of the application on the table model

    Sequences of events on the table model of the backend, used to show
    the theorems about the running application at concrete states:

    - [mount_run]: the page mounts and its first load is answered and
      delivered;
    - [compose_run]: then the user opens the dialog of the header and
      picks a category; [submit_run]: and submits; [publish_run]: and
      every answer is delivered in order;
    - [send_run]: on a feed of one feedback, the user opens the comments
      of its card, types and sends;
    - [race_run]: two comments are sent one after the other and the
      answer to the first reload is delivered after the answer to the
      second.

    [after evs b0] is the state after the run [evs] from nothing mounted
    on the backend [b0]; [reachable_after] shows it reachable when
    [check_run] accepts the run. *)

From S2P Require Import Prelude JsString Async Model Backend Supabase.
From S2P Require Import FeedbackCard NewFeedbackDialog Index Page App.

(** The page mounts; the session and the feed are answered in turn. *)
Definition mount_run : list AppEvent :=
  [AMount; AServe 0 (demo_env 1); ADeliver 0;
   AServe 0 (demo_env 2); ADeliver 0].

(** The first load is answered but the answer has not arrived. *)
Definition loading_run : list AppEvent :=
  [AMount; AServe 0 (demo_env 1); ADeliver 0; AServe 0 (demo_env 2)].

(** The user opens the dialog of the header and picks a category. *)
Definition compose_run : list AppEvent :=
  mount_run ++
  [ADialogOpen HeaderDialog true;
   ADialogCategory HeaderDialog (js "geral")].

Definition submit_run : list AppEvent :=
  compose_run ++
  [ADialogSubmit HeaderDialog (js "Festa") (js "Foi boa")].

(** The user lookup, the insert and the reload, each answered and
    delivered. *)
Definition publish_run : list AppEvent :=
  submit_run ++
  [AServe 0 (demo_env 3); ADeliver 0; AServe 0 (demo_env 4); ADeliver 0;
   AServe 0 (demo_env 5); ADeliver 0].

Definition send_run : list AppEvent :=
  mount_run ++
  [ACardToggle 100; ACardType 100 (js "oi"); ACardSend 100].

(** Two comments on the same card.  The reload after the first is
    answered before the second comment is stored, and delivered after
    the reload that follows the second. *)
Definition race_run : list AppEvent :=
  send_run ++
  [AServe 0 (demo_env 3); ADeliver 0; AServe 0 (demo_env 4); ADeliver 0;
   AServe 0 (demo_env 5);
   ACardType 100 (js "de novo"); ACardSend 100;
   AServe 1 (demo_env 6); ADeliver 1; AServe 1 (demo_env 7); ADeliver 1;
   AServe 1 (demo_env 8); ADeliver 1;
   ADeliver 0].

(** The state after a run from nothing mounted; the initial state if the
    run is not one. *)
Definition after (evs : list AppEvent) (b0 : Backend) : App Backend :=
  default (initialApp b0) (steps evs (initialApp b0)).

Lemma reachable_after b0 evs :
  check_run evs (initialApp b0) = true → reachable b0 (after evs b0).
Proof.
  intros Hrun. destruct (reachable_run b0 evs Hrun) as (a & Hs & Ha).
  unfold after. by rewrite Hs.
Defined.

Lemma mount_run_ok : check_run mount_run (initialApp demo_backend1) = true.
Proof. vm_compute. reflexivity. Defined.

Lemma loading_run_ok : check_run loading_run (initialApp demo_backend1) = true.
Proof. vm_compute. reflexivity. Defined.

Lemma compose_run_ok : check_run compose_run (initialApp demo_backend) = true.
Proof. vm_compute. reflexivity. Defined.

Lemma submit_run_ok : check_run submit_run (initialApp demo_backend) = true.
Proof. vm_compute. reflexivity. Defined.

Lemma publish_run_ok : check_run publish_run (initialApp demo_backend) = true.
Proof. vm_compute. reflexivity. Defined.

Lemma send_run_ok : check_run send_run (initialApp demo_backend1) = true.
Proof. vm_compute. reflexivity. Defined.

Lemma race_run_ok : check_run race_run (initialApp demo_backend1) = true.
Proof. vm_compute. reflexivity. Defined.

(** The two databases of the runs are well formed. *)
Lemma demo_backend_wf : wf demo_backend.
Proof. apply empty_backend_wf. Defined.

Lemma demo_backend1_wf : wf demo_backend1.
Proof.
  apply insert_feedback_wf; [apply empty_backend_wf|].
  apply demo_backend_admissible.
Defined.
