(* ===== verification/AppFeed.v ===== *)
(** * AppFeed: only the loader sets the feed

    The feed that the page shows is state of Index; the writers reach it
    only through [loadFeedbacks].  This file shows it for the running
    application, whatever the order of the responses:

    - [feed_free]: a procedure sets the feed only right after a feed
      query, to the rows of its response, and only if the response
      carries no error;
    - every handler of the application is [feed_free], and so is what is
      left of it at each suspension ([task_ok]);
    - [page_has], [task_has]: a property of feeds that holds of the
      feed on the page and of the rows of every answer on its way is
      kept by every segment of a handler;
    - [feed_set_only_by_loader]: in every reachable state, a step that
      changes the feed on the screen is the delivery of a successful
      response to a feed query, and the new feed is its rows;
    - [stale_response_race]: a run in which the answers of two reloads
      arrive in the wrong order. *)

From S2P Require Import Prelude JsString Async Model Backend Supabase.
From S2P Require Import FeedbackCard NewFeedbackDialog Index Page App AppDemo.

(** ** Who sets the feed *)

Definition sets_feed (e : PageEffect) : option (list Feedback) :=
  match e with on_index (setFeedbacks l) => Some l | _ => None end.

Definition ok_rows {R} (c : Call R) : R → option (list Feedback) :=
  match c in Call R return R → option (list Feedback) with
  | SelectFeedback => λ r,
      match error r with
      | None => Some (default [] (data r))
      | Some _ => None
      end
  | _ => λ _, None
  end.

Fixpoint feed_free (p : Proc Call PageEffect unit) : Prop :=
  match p with
  | Ret _ => True
  | Do e k => sets_feed e = None ∧ feed_free k
  | Await c k =>
      ∀ r, match k r with
           | Do e q =>
               match sets_feed e with
               | Some l => ok_rows c r = Some l ∧ feed_free q
               | None => feed_free q
               end
           | _ => feed_free (k r)
           end
  end.

Definition loads {R} (c : Call R) (r : R) (q : Proc Call PageEffect unit)
  : Prop :=
  match q with
  | Do e q' =>
      match sets_feed e with
      | Some l => ok_rows c r = Some l ∧ feed_free q'
      | None => feed_free q'
      end
  | _ => feed_free q
  end.

Definition task_ok (t : Task) : Prop :=
  match t_pending t with
  | Requested c k => ∀ r, loads c r (k r)
  | Responded c r k => loads c r (k r)
  end.

Lemma feed_free_loads {R} (c : Call R) r q : feed_free q → loads c r q.
Proof. destruct q as [a|e q|R' c' k]; simpl; [done| |done]. by intros [-> ?]. Qed.

Lemma page_loadFeedbacks_feed_free : feed_free page_loadFeedbacks.
Proof. handler_tac. Qed.
Lemma page_checkAuth_feed_free : feed_free page_checkAuth.
Proof. unfold page_checkAuth, checkAuth. handler_tac. Qed.
Lemma page_handleSignOut_feed_free : feed_free page_handleSignOut.
Proof. unfold page_handleSignOut, handleSignOut. handler_tac. Qed.
Lemma page_handleSubmit_feed_free cat title content :
  feed_free (page_handleSubmit cat title content).
Proof. unfold page_handleSubmit, handleSubmit. handler_tac. Qed.
Lemma page_handleSubmitComment_feed_free id text :
  feed_free (page_handleSubmitComment id text).
Proof.
  unfold page_handleSubmitComment, handleSubmitComment.
  destruct (negb _); handler_tac.
Qed.
Lemma onAuthStateChange_feed_free s :
  feed_free (map_effects on_index (onAuthStateChange s)).
Proof. destruct s; handler_tac. Qed.

(** ** The feed of the page *)

Definition page_feed {B} (a : App B) : option (list Feedback) :=
  feedbacks ∘ pg_state <$> page a.

(** The page is gone or shows the feed it showed. *)
Definition keeps {B} (a a' : App B) : Prop :=
  page a' = None ∨ page_feed a' = page_feed a.

Section feed.
Context {B : Type}.
Implicit Types (a : App B) (e : PageEffect) (p : Proc Call PageEffect unit).

Lemma keeps_refl a : keeps a a.
Proof. by right. Qed.

(** One effect: the page is gone, or shows what it showed, or the effect
    is [setFeedbacks l] and the page shows [l]. *)
Lemma apply_effect_feed pg ow e a :
  keeps a (apply_effect pg ow e a) ∨
  ∃ l, sets_feed e = Some l ∧ page_feed (apply_effect pg ow e a) = Some l.
Proof.
  unfold apply_effect, keeps, page_feed.
  destruct (is_navigate e) eqn:Hnav; [by left; left|]. simpl.
  destruct (page a) as [pi|] eqn:Hp; simpl; rewrite ?Hp; [|by left; left].
  case_decide; simpl; rewrite ?Hp; [|by left; right].
  destruct e as [[]| |]; simpl;
    rewrite ?reconcile_state, ?page_apply_state; simpl;
    first [by left; right | by right; eexists].
Qed.

Lemma keeps_trans a1 a2 a3 :
  (page a2 = None → page a3 = None) → keeps a1 a2 → keeps a2 a3 → keeps a1 a3.
Proof.
  unfold keeps. intros Hgone [H12|H12] [H23|H23]; auto.
  right. by rewrite H23.
Qed.

Lemma apply_effects_keeps pg ow es a :
  Forall (λ e, sets_feed e = None) es → keeps a (apply_effects pg ow es a).
Proof.
  revert a. induction es as [|e es IH]; intros a Hes; simpl;
    [apply keeps_refl|].
  apply Forall_cons in Hes as [He Hes].
  eapply keeps_trans; [apply apply_effects_unmounted| |by apply IH].
  destruct (apply_effect_feed pg ow e a) as [?|(l & Hl & _)]; [done|].
  congruence.
Qed.

(** The synchronous segment of a procedure that does not set the feed. *)
Lemma feed_free_sync p :
  feed_free p →
  Forall (λ e, sets_feed e = None) (sync p).1 ∧
  match (sync p).2 with
  | Finished _ => True
  | Waiting c k => ∀ r, loads c r (k r)
  end.
Proof.
  induction p as [x|e k IH|R c k _]; simpl; [done| |done].
  intros [He Hk]. destruct (IH Hk) as [IH1 IH2].
  destruct (sync k) as [es s]. simpl in *. split; [by constructor|done].
Qed.

Lemma start_keeps pg ow p a : feed_free p → keeps a (start pg ow p a).
Proof.
  intros [Hes _]%feed_free_sync.
  pose proof (apply_effects_keeps pg ow _ a Hes) as Hk.
  unfold keeps, page_feed in *. by rewrite start_page.
Qed.

Lemma start_task_ok pg ow p a :
  feed_free p → Forall task_ok (tasks a) →
  Forall task_ok (tasks (start pg ow p a)).
Proof.
  intros [_ Hs]%feed_free_sync Ha. rewrite start_tasks.
  apply Forall_app. split; [done|].
  destruct (sync p).2; [constructor|]. by repeat constructor.
Qed.

(** Resuming after the response [r] to [c]: the page is gone, or shows
    what it showed, or [c] was the feed query, [r] carries no error, and
    the page shows the rows of [r]. *)
Lemma start_loads {R} (c : Call R) r pg ow p a :
  loads c r p →
  keeps a (start pg ow p a) ∨
  ∃ l, ok_rows c r = Some l ∧ page_feed (start pg ow p a) = Some l.
Proof.
  destruct p as [x|e q|R' c' k]; simpl;
    [by left; right| |by left; right].
  rewrite start_do. intros Hq.
  assert (feed_free q) as Hfree by (by destruct (sets_feed e); [destruct Hq|]).
  pose proof (start_keeps pg ow q (apply_effect pg ow e a) Hfree) as Hk.
  destruct (apply_effect_feed pg ow e a) as [Ha|(l & Hl & Ha)].
  - left. eapply keeps_trans; [|done..].
    intros Hnone. rewrite start_page. by apply apply_effects_unmounted.
  - rewrite Hl in Hq. destruct Hq as [Hrows _].
    destruct Hk as [Hk|Hk]; [by left; left|].
    right. exists l. by rewrite Hk.
Qed.

Lemma start_loads_task_ok {R} (c : Call R) r pg ow p a :
  loads c r p → Forall task_ok (tasks a) →
  Forall task_ok (tasks (start pg ow p a)).
Proof.
  destruct p as [x|e q|R' c' k]; simpl; [done| |].
  - rewrite start_do. intros Hq Ha.
    apply start_task_ok; [by destruct (sets_feed e); [destruct Hq|]|].
    by rewrite apply_effect_tasks.
  - intros Hk Ha. apply Forall_app. split; [done|]. by repeat constructor.
Qed.

End feed.

(** ** Properties of the feed shown

    A property of feeds holds of the feed on the page after a handler
    ran a segment if it held before, and, for what is left of a loader,
    if it holds of the rows of the response. *)
Section feed_property.
Context {B : Type} (P : list Feedback → Prop).
Implicit Types (a : App B) (p : Proc Call PageEffect unit).

Definition page_has a : Prop := ∀ l, page_feed a = Some l → P l.

(** The rows of an answer that has not been delivered have [P]. *)
Definition task_has (t : Task) : Prop :=
  match t_pending t with
  | Requested _ _ => True
  | Responded c r _ => ∀ l, ok_rows c r = Some l → P l
  end.

Lemma keeps_has a a' : keeps a a' → page_has a → page_has a'.
Proof.
  unfold page_has, page_feed. intros [Hk|Hk] Ha l; [by rewrite Hk|].
  unfold page_feed in Hk. rewrite Hk. apply Ha.
Qed.

Lemma start_has pg ow p a :
  feed_free p → page_has a → page_has (start pg ow p a).
Proof. intros Hp. by apply keeps_has, start_keeps. Qed.

Lemma start_loads_has {R} (c : Call R) r pg ow p a :
  loads c r p → (∀ l, ok_rows c r = Some l → P l) →
  page_has a → page_has (start pg ow p a).
Proof.
  intros Hl Hr Ha.
  destruct (start_loads c r pg ow p a Hl) as [Hk|(l & Hrows & Hf)];
    [by eapply keeps_has|].
  intros l'. rewrite Hf. intros [= <-]. by apply Hr.
Qed.

Lemma start_task_has pg ow p a :
  Forall task_has (tasks a) → Forall task_has (tasks (start pg ow p a)).
Proof.
  intros Ha. rewrite start_tasks. apply Forall_app. split; [done|].
  destruct (sync p).2; by repeat constructor.
Qed.

Lemma resume_has t q :
  task_has t → task_ok t → resume t = Some q →
  ∃ R (c : Call R) r,
    loads c r q ∧ ∀ l, ok_rows c r = Some l → P l.
Proof.
  unfold resume, task_has, task_ok.
  destruct (t_pending t) as [|R c r k]; [done|].
  intros Hr Hl [= <-]. by exists R, c, r.
Qed.

End feed_property.

Lemma started_feed_free ev p ow q : started ev p = Some (ow, q) → feed_free q.
Proof.
  intros Hs%started_starts. destruct Hs;
    first [ apply page_handleSubmit_feed_free
          | apply page_handleSubmitComment_feed_free
          | apply page_handleSignOut_feed_free
          | apply onAuthStateChange_feed_free
          | handler_tac ].
Qed.

Section step_feed.
Context `{BackendSpec B}.
Implicit Types (a : App B).

Lemma serve_task_ok ε t (b : B) t' b' :
  task_ok t → serve_task ε t b = Some (t', b') → task_ok t'.
Proof.
  unfold serve_task, task_ok. destruct (t_pending t); [|done].
  intros Hk [= <- _]. simpl. apply Hk.
Qed.

Lemma resume_loads t q :
  task_ok t → resume t = Some q →
  ∃ R (c : Call R) r k, t_pending t = Responded c r k ∧ loads c r q.
Proof.
  unfold resume, task_ok. destruct (t_pending t) as [|R c r k]; [done|].
  intros Hk [= <-]. by exists R, c, r, k.
Qed.

(** Every task in flight sets the feed only after a feed query, to the
    rows of its response. *)
Lemma step_task_ok ev a a' :
  sub_inv a → Forall task_ok (tasks a) → step ev a = Some a' →
  Forall task_ok (tasks a').
Proof.
  intros Hsub Ha Hs. destruct (step_inv _ _ _ Hsub Hs)
    as [Hp|ev p ow q Hp Hh|i ε t t' b' Ht Hsv|i t q Ht Hq].
  - by apply start_task_ok; [apply page_checkAuth_feed_free|].
  - by apply start_task_ok; [eapply started_feed_free|].
  - simpl. apply Forall_insert; [done|].
    eapply serve_task_ok; [|done]. by eapply (Forall_lookup_1 _ _ _ _ Ha).
  - pose proof (Forall_lookup_1 _ _ _ _ Ha Ht) as Hok.
    destruct (resume_loads _ _ Hok Hq) as (R & c & r & k & _ & Hl).
    eapply start_loads_task_ok; [done|]. simpl. by apply Forall_delete.
Qed.

Lemma reachable_task_ok b0 a : reachable b0 a → Forall task_ok (tasks a).
Proof.
  induction 1 as [|ev a a' Ha IH Hs _]; [constructor|].
  by eapply step_task_ok; [eapply reachable_sub_inv|..].
Qed.

(** C12. Only the loader sets the feed.  In every state the application can
    be in, a step that changes the feed of the page is the delivery of
    the response to a feed query that carries no error, and the new feed
    is the rows of that response. *)
Theorem feed_set_only_by_loader b0 ev a a' l l' :
  reachable b0 a → step ev a = Some a' →
  page_feed a = Some l → page_feed a' = Some l' → l' ≠ l →
  ∃ i t r k,
    ev = ADeliver i ∧ tasks a !! i = Some t ∧
    t_pending t = Responded SelectFeedback r k ∧
    ok_rows SelectFeedback r = Some l'.
Proof.
  intros Ha Hs Hl Hl' Hne. pose proof (reachable_sub_inv _ _ Ha) as Hsub.
  apply reachable_task_ok in Ha.
  assert (∀ a0, page_feed a0 = page_feed a → keeps a0 a' → False) as Hkeeps.
  { unfold keeps. intros a0 Heq [Hn|Hf].
    - unfold page_feed in Hl'. by rewrite Hn in Hl'.
    - rewrite Heq, Hl, Hl' in Hf. by simplify_eq. }
  destruct (step_inv _ _ _ Hsub Hs)
    as [Hn|ev p0 ow q Hp0 Hh|i ε t t' b' Ht Hsv|i t q Ht Hq].
  - unfold page_feed in Hl. by rewrite Hn in Hl.
  - destruct (Hkeeps a eq_refl). eapply start_keeps, started_feed_free, Hh.
  - destruct (Hkeeps a eq_refl). by right.
  - pose proof (Forall_lookup_1 _ _ _ _ Ha Ht) as Hok.
    destruct (resume_loads _ _ Hok Hq) as (R & c & r & k & Hpend & Hld).
    destruct (start_loads c r (t_page t) (t_owner t) q
                (set_tasks (delete i (tasks a)) a) Hld)
      as [Hk|(l0 & Hrows & Hf)]; [by destruct (Hkeeps _ eq_refl Hk)|].
    rewrite Hl' in Hf. destruct c; try done. simplify_eq.
    by exists i, t, r, k.
Qed.

End step_feed.

(** ** The theorems at concrete states *)

(** The delivery of the first load puts feedback 100 on the page. *)
Lemma feed_set_only_by_loader_witness :
  ∃ i t r k,
    ADeliver 0 = ADeliver i ∧
    tasks (after loading_run demo_backend1) !! i = Some t ∧
    t_pending t = Responded SelectFeedback r k ∧
    ok_rows SelectFeedback r = Some (select_feed demo_backend1).
Proof.
  assert (step (ADeliver 0) (after loading_run demo_backend1)
          = Some (after mount_run demo_backend1)) as Hs
    by (vm_compute; reflexivity).
  refine (feed_set_only_by_loader demo_backend1 (ADeliver 0) _ _ []
            (select_feed demo_backend1)
            (reachable_after _ _ loading_run_ok) Hs _ _ _).
  - vm_compute. reflexivity.
  - vm_compute. reflexivity.
  - vm_compute. discriminate.
Defined.

(** C24. Reloads race.  There is a run of the application in which two
    comments are sent from the same card one after the other, every
    write succeeds, every response is delivered and nothing is left in
    flight, and yet the page shows the card with one comment while the
    database holds two: the response to the reload after the first
    comment was computed before the second comment was stored and
    delivered after the response to the second reload, and the loader
    installs whatever arrives last. *)
Theorem stale_response_race :
  let a := after race_run demo_backend1 in
  reachable demo_backend1 a ∧ tasks a = [] ∧
  ∃ shown stored,
    page_feed a = Some [shown] ∧ feed_of (backend a) = [stored] ∧
    fb_id shown = fb_id stored ∧
    length (fb_comments shown) = 1 ∧ length (fb_comments stored) = 2.
Proof.
  split; [apply reachable_after, race_run_ok|].
  vm_compute. split; [done|]. by eexists _, _.
Qed.
