(* ===== verification/AppBusy.v ===== *)
(** * AppBusy: one writer per component instance

    The two writers guard against a second submission with a busy flag
    that disables their button (NewFeedbackDialog.tsx lines 23, 116;
    FeedbackCard.tsx lines 68, 178).  This file shows that the guard
    works in the running application, whatever the order of the
    responses and whatever else the user does meanwhile:

    - [in_phase]: the discipline of a handler with respect to the flag of
      its own instance: it sets it before its first call, makes the
      writer's calls while it is set, resets it once on every path;
    - [busy_at]: the flag of an instance that is on the screen;
    - [writers]: the instances with a writer in flight;
    - [busy_inv_at]: the invariant of the application: the instances
      with a writer in flight are pairwise distinct; each of them, if on
      the screen, has its flag set; a flag that is set belongs to a
      writer in flight (or to the handler that is running); generations
      are below the counter, and a task of the mounted page knows its
      page.  [seg_inv] is the same while one handler runs a synchronous
      segment, [running] the instance whose flag that handler holds;
    - [one_writer_per_instance], [busy_iff_writing], [no_second_write]:
      the invariant in every reachable state, and what it means for
      the two buttons. *)

From S2P Require Import Prelude JsString Async Model Backend Supabase.
From S2P Require Import FeedbackCard NewFeedbackDialog Index Page App AppDemo.

(** ** Phases of a writer *)

(** The busy flag that an effect sets, when the handler that performs it
    belongs to a component at the place [s]. *)
Definition sets_busy (s : Slot) (e : PageEffect) : option bool :=
  match e, s with
  | on_dialog (NewFeedbackDialog.setIsSubmitting b), SDialog _ => Some b
  | on_card id (FeedbackCard.setIsSubmitting b), SCard id' =>
      if decide (id' = id) then Some b else None
  | _, _ => None
  end.

(** A handler is [Opening] until it has set its busy flag, [Closing]
    from then until it has reset it, and [Quiet] afterwards; a handler
    that never touches the flag is [Quiet] throughout. *)
Inductive Phase := Opening | Closing | Quiet.

#[export] Instance Phase_eq_dec : EqDecision Phase.
Proof. solve_decision. Defined.

(** The calls of a writer: the user lookup and the two inserts. *)
Definition writer_call {R} (c : Call R) : bool :=
  match c with
  | GetUser | InsertFeedback _ | InsertComment _ => true
  | _ => false
  end.

Definition phase_of {R} (c : Call R) : Phase :=
  if writer_call c then Closing else Quiet.

(** [in_phase s ph p]: the procedure [p], run for a component at [s], is
    in phase [ph] and keeps to the discipline: the flag is set before
    the first call, the writer's calls are made while the flag is set,
    the flag is reset once, on every path, and nothing is written
    afterwards. *)
Fixpoint in_phase (s : Slot) (ph : Phase) (p : Proc Call PageEffect unit)
  : Prop :=
  match p with
  | Ret _ => ph = Quiet
  | Do e k =>
      match sets_busy s e with
      | Some true => ph = Opening ∧ in_phase s Closing k
      | Some false => ph = Closing ∧ in_phase s Quiet k
      | None => in_phase s ph k
      end
  | Await c k => ph = phase_of c ∧ ∀ r, in_phase s ph (k r)
  end.

Lemma page_checkAuth_quiet : in_phase SPage Quiet page_checkAuth.
Proof. unfold page_checkAuth, checkAuth. handler_tac. Qed.

Lemma page_handleSignOut_quiet : in_phase SPage Quiet page_handleSignOut.
Proof. unfold page_handleSignOut, handleSignOut. handler_tac. Qed.

Lemma onAuthStateChange_quiet s :
  in_phase SPage Quiet (map_effects on_index (onAuthStateChange s)).
Proof. destruct s; handler_tac. Qed.

Lemma page_handleSubmit_opening slot cat title content :
  in_phase (SDialog slot) Opening (page_handleSubmit cat title content).
Proof. unfold page_handleSubmit, handleSubmit. handler_tac. Qed.

Lemma page_handleSubmitComment_opening id text :
  ¬ blank text →
  in_phase (SCard id) Opening (page_handleSubmitComment id text).
Proof.
  intros Hb. unfold page_handleSubmitComment, handleSubmitComment.
  rewrite not_truthy_trim, bool_decide_eq_false_2 by done. handler_tac.
Qed.

(** ** The flag of an instance *)

(** The busy flag of the instance [ow], if it is mounted on [p]. *)
Definition busy_at (ow : Owner) (p : PageInst) : option bool :=
  match ow.1 with
  | SPage => None
  | SDialog sl =>
      d ← dialog_at sl p ;
      if decide (d.1 = ow.2) then Some (NewFeedbackDialog.isSubmitting d.2)
      else None
  | SCard id =>
      c ← pg_cards p !! id ;
      if decide (c.1 = ow.2) then Some (FeedbackCard.isSubmitting c.2)
      else None
  end.

(** After the children are mounted anew, an instance is one that was
    there, with its state, or one of the new generation, not busy. *)
Lemma busy_at_reconcile next p st ow b :
  busy_at ow (reconcile next p st) = Some b →
  busy_at ow p = Some b ∨ (ow.2 = next ∧ b = false).
Proof.
  unfold busy_at, reconcile. destruct ow as [[|sl|id] g]; simpl; [done|..].
  - destruct (Index_body st), sl; simpl; try done;
      destruct (pg_header p) as [[??]|], (pg_empty p) as [[??]|];
      simpl; case_decide; intros; simplify_eq/=; auto.
  - destruct (Index_body st); simpl; rewrite ?lookup_empty; try done.
    destruct (mount_cards _ _ _ !! id) as [c|] eqn:Hc; [|done]. simpl.
    apply mount_cards_lookup in Hc as ->.
    destruct (pg_cards p !! id) as [[g0 c]|]; simpl;
      case_decide; intros; simplify_eq/=; auto.
Qed.

Lemma busy_at_new_page n ow : busy_at ow (new_page n) = None.
Proof. unfold busy_at. by destruct ow as [[|[]|]?]. Qed.

(** An effect of the instance [ow] changes the flag of [ow] only, and
    only if it is a setter of the flag. *)
Lemma busy_at_page_apply_raw ow e p o b :
  busy_at o (page_apply ow e p) = Some b →
  busy_at o p = Some b ∨ (o = ow ∧ sets_busy ow.1 e = Some b).
Proof.
  unfold busy_at, page_apply.
  destruct e as [e|e|id e]; [by left| |].
  - destruct ow as [[|[]|id'] g]; simpl; try (by left);
      destruct o as [[|[]|id''] g']; simpl; try (by left).
    + destruct (pg_header p) as [[g0 d]|]; simpl; [|done].
      unfold update_inst. simpl. repeat case_decide; simplify_eq/=; auto.
      destruct e; simpl; intros; simplify_eq/=; auto.
    + destruct (pg_empty p) as [[g0 d]|]; simpl; [|done].
      unfold update_inst. simpl. repeat case_decide; simplify_eq/=; auto.
      destruct e; simpl; intros; simplify_eq/=; auto.
  - case_decide as Hs; [|by left]. destruct ow as [s g]. simpl in *. subst s.
    destruct o as [[|sl|id'] g']; simpl; try (by left).
    destruct (decide (id' = id)) as [->|Hne].
    2:{ rewrite lookup_alter_ne by done. by left. }
    rewrite lookup_alter_eq.
    destruct (pg_cards p !! id) as [[g0 c]|]; csimpl; [|done].
    unfold update_inst; simpl.
    destruct (decide (g0 = g)) as [->|]; simpl; [|by left].
    destruct (decide (g = g')) as [->|]; simpl; [|by left].
    destruct e; simpl; intros; simplify_eq/=; rewrite ?decide_True by done;
      auto.
Qed.

(** No effect of a component mounts or unmounts one. *)
Lemma busy_at_page_apply_mounted ow e p o :
  is_Some (busy_at o (page_apply ow e p)) ↔ is_Some (busy_at o p).
Proof.
  unfold busy_at, page_apply.
  destruct e as [e|e|id e]; [done| |].
  - destruct ow as [[|[]|id'] g]; simpl; try done;
      destruct o as [[|[]|id''] g']; simpl; try done;
      destruct (pg_header p) as [[??]|], (pg_empty p) as [[??]|]; simpl;
      try done; unfold update_inst; simpl;
      repeat case_decide; simplify_eq/=; by rewrite <-?not_eq_None_Some.
  - case_decide as Hs; [|done]. destruct o as [[|sl|id'] g']; simpl; try done.
    destruct (decide (id' = id)) as [->|Hne];
      [rewrite lookup_alter_eq|by rewrite lookup_alter_ne by done].
    destruct (pg_cards p !! id) as [[g0 c]|]; csimpl; [|done].
    unfold update_inst; simpl.
    repeat case_decide; simplify_eq/=; by rewrite <-?not_eq_None_Some.
Qed.

Lemma busy_at_page_apply ow e p o b :
  busy_at o (page_apply ow e p) = Some b →
  busy_at o p = Some b ∨
  (o = ow ∧ sets_busy ow.1 e = Some b ∧ is_Some (busy_at o p)).
Proof.
  intros Hb. destruct (busy_at_page_apply_raw _ _ _ _ _ Hb) as [?|[??]]; auto.
  right. split_and!; [done..|]. by apply (busy_at_page_apply_mounted ow e).
Qed.

(** A setter of the flag reaches the instance if it is mounted. *)
Lemma busy_at_page_apply_set ow e p b :
  sets_busy ow.1 e = Some b → busy_at ow (page_apply ow e p) ≠ Some (negb b).
Proof.
  unfold busy_at, page_apply, sets_busy.
  destruct e as [e|e|id e]; [done| |].
  - destruct e; try done. destruct ow as [[|[]|id'] g]; simpl; try done;
      intros [= ->];
      destruct (pg_header p) as [[??]|], (pg_empty p) as [[??]|];
      simpl; try done; unfold update_inst; simpl;
      repeat case_decide; simplify_eq/=; try done; by destruct b.
  - destruct e; try done. destruct ow as [[|sl|id'] g]; simpl; try done.
    case_decide; [|done]. subst. intros [= ->].
    rewrite decide_True by done. simpl. rewrite lookup_alter_eq.
    destruct (pg_cards p !! id) as [[g0 c]|]; csimpl; [|done].
    unfold update_inst. simpl.
    repeat case_decide; simplify_eq/=; try done; by destruct b.
Qed.

(** ** Writers in flight *)

Definition task_call_writer (t : Task) : bool :=
  match t_pending t with
  | Requested c _ | Responded c _ _ => writer_call c
  end.

(** The instance that a task writes for, if it is a writer's task. *)
Definition writer_of (t : Task) : option Owner :=
  if task_call_writer t then Some (t_owner t) else None.

(** The instances with a writer in flight, one entry per task. *)
Definition writers (ts : list Task) : list Owner := omap writer_of ts.

Definition task_in_phase (t : Task) : Prop :=
  match t_pending t with
  | Requested c k => ∀ r, in_phase (t_owner t).1 (phase_of c) (k r)
  | Responded c r k => in_phase (t_owner t).1 (phase_of c) (k r)
  end.

Lemma writers_app ts1 ts2 : writers (ts1 ++ ts2) = writers ts1 ++ writers ts2.
Proof. apply omap_app. Qed.

Lemma writers_insert ts i t t' :
  ts !! i = Some t → writer_of t' = writer_of t →
  writers (<[i := t']> ts) = writers ts.
Proof.
  revert i. induction ts as [|t0 ts IH]; intros [|i] Ht Hw; simplify_eq/=.
  - unfold writers. simpl. by rewrite Hw.
  - unfold writers in *. simpl. by rewrite IH.
Qed.

Lemma writers_delete ts i t :
  ts !! i = Some t →
  writers ts ≡ₚ option_list (writer_of t) ++ writers (delete i ts).
Proof.
  revert i. induction ts as [|t0 ts IH]; intros [|i] Ht; simplify_eq/=.
  - unfold writers. simpl. by destruct (writer_of t).
  - unfold writers in *. simpl. specialize (IH i Ht).
    destruct (writer_of t0), (writer_of t); simpl in *; rewrite IH;
      [apply perm_swap|done..].
Qed.

(** ** The invariant *)

(** [run] is the instance whose handler is running between setting and
    resetting its flag, if there is one: its task is not in the list. *)
Record busy_inv_at {B} (run : option Owner) (a : App B) : Prop := {
  inv_phase : Forall task_in_phase (tasks a);
  inv_once : NoDup (writers (tasks a));
  inv_busy ow p :
    ow ∈ writers (tasks a) → page a = Some p → busy_at ow p ≠ Some false;
  inv_idle ow p :
    page a = Some p → busy_at ow p = Some true →
    ow ∈ writers (tasks a) ∨ run = Some ow;
  inv_task_gen : Forall (λ t, (t_owner t).2 < next_inst a) (tasks a);
  inv_page_gen ow p b :
    page a = Some p → busy_at ow p = Some b → ow.2 < next_inst a;
  inv_page_inst p : page a = Some p → pg_inst p < next_inst a;
  inv_comp_gen ow p b :
    page a = Some p → busy_at ow p = Some b → pg_inst p < ow.2;
  inv_page_of :
    Forall (λ t, ∀ p, page a = Some p → pg_inst p < (t_owner t).2 →
                      t_page t = pg_inst p) (tasks a)
}.

Abbreviation busy_inv := (busy_inv_at None).

Definition running (ow : Owner) (ph : Phase) : option Owner :=
  if decide (ph = Closing) then Some ow else None.

(** The phase after an effect. *)
Definition next_phase (s : Slot) (ph : Phase) (e : PageEffect) : Phase :=
  match sets_busy s e with
  | Some true => Closing
  | Some false => Quiet
  | None => ph
  end.

(** The invariant while the handler of [ow] runs a synchronous segment in
    phase [ph]: the tasks of [a] are the other ones. *)
Record seg_inv {B} (pg : nat) (ow : Owner) (ph : Phase) (a : App B) : Prop := {
  seg_base : busy_inv_at (running ow ph) a;
  seg_gen : ow.2 < next_inst a;
  seg_fresh : ph ≠ Quiet → ow ∉ writers (tasks a);
  seg_busy p : ph = Closing → page a = Some p → busy_at ow p ≠ Some false;
  seg_page p : page a = Some p → pg_inst p < ow.2 → pg_inst p = pg
}.

Section busy.
Context {B : Type}.
Implicit Types (a : App B) (e : PageEffect) (q : Proc Call PageEffect unit).

Lemma apply_effect_next pg ow e a :
  next_inst a ≤ next_inst (apply_effect pg ow e a).
Proof.
  unfold apply_effect. destruct (is_navigate e); [done|]. simpl.
  destruct (page a); [|done]. case_decide; [|done]. destruct e; simpl; lia.
Qed.

(** What one effect does to the flags on the screen: a flag is as it
    was, or it is the flag of a new instance, or the effect is a setter
    of the flag of the running handler's instance. *)
Lemma apply_effect_busy pg ow e a p' o b :
  page (apply_effect pg ow e a) = Some p' → busy_at o p' = Some b →
  ∃ p, page a = Some p ∧ pg_inst p' = pg_inst p ∧
    (busy_at o p = Some b ∨
     (o.2 = next_inst a ∧ b = false ∧
      next_inst (apply_effect pg ow e a) = S (next_inst a)) ∨
     (o = ow ∧ sets_busy ow.1 e = Some b ∧ is_Some (busy_at o p))).
Proof.
  unfold apply_effect. destruct (is_navigate e); [done|]. simpl.
  destruct (page a) as [p|] eqn:Hp; simpl; rewrite ?Hp; [|done].
  case_decide; simpl; rewrite ?Hp; [|intros [= <-] ?; eauto].
  destruct e as [e|e|id e]; simpl; intros [= <-] Hb; exists p.
  - rewrite reconcile_inst. split_and!; [done..|].
    apply busy_at_reconcile in Hb as [?|[? ?]]; auto.
  - rewrite page_apply_inst. split_and!; [done..|].
    apply busy_at_page_apply in Hb as [?|(?&?&?)]; auto.
  - rewrite page_apply_inst. split_and!; [done..|].
    apply busy_at_page_apply in Hb as [?|(?&?&?)]; auto.
Qed.

Lemma apply_effect_sets_busy pg ow e a p p' b :
  sets_busy ow.1 e = Some b → page a = Some p → pg_inst p = pg →
  page (apply_effect pg ow e a) = Some p' → busy_at ow p' ≠ Some (negb b).
Proof.
  intros Hb Hp Hpg. unfold apply_effect.
  destruct (is_navigate e); [done|]. simpl. rewrite Hp.
  rewrite decide_True by done.
  destruct e as [e|e|id e]; [by destruct ow as [[] ?]|..];
    simpl; intros [= <-]; by apply busy_at_page_apply_set.
Qed.

Lemma writers_gen (ts : list Task) n ow :
  Forall (λ t, (t_owner t).2 < n) ts → ow ∈ writers ts → ow.2 < n.
Proof.
  intros Hts (t & Ht & Hw)%list_elem_of_omap.
  unfold writer_of in Hw. destruct (task_call_writer t); simplify_eq.
  by eapply (proj1 (Forall_forall _ _) Hts).
Qed.

(** A setter of the running handler reaches its instance whenever the
    instance is on the screen. *)
Lemma seg_sets_busy pg ow ph e a p' b :
  seg_inv pg ow ph a → sets_busy ow.1 e = Some b →
  page (apply_effect pg ow e a) = Some p' →
  busy_at ow p' ≠ Some (negb b).
Proof.
  intros [Hbase Hgen _ _ Hpage] He Hp' Hb.
  destruct (apply_effect_busy _ _ _ _ _ _ _ Hp' Hb)
    as (p & Hp & _ & [Hold|[(Hnew & _)|(_ & He' & Hm)]]).
  - eapply (apply_effect_sets_busy pg ow e a p p' b); try done.
    apply Hpage; [done|]. by eapply (inv_comp_gen _ a Hbase).
  - lia.
  - rewrite He in He'. by destruct b.
Qed.

Lemma in_phase_do s ph e k :
  in_phase s ph (Do e k) →
  in_phase s (next_phase s ph e) k ∧
  (sets_busy s e = Some true → ph = Opening) ∧
  (sets_busy s e = Some false → ph = Closing).
Proof.
  simpl. unfold next_phase.
  destruct (sets_busy s e) as [[]|]; [intros [-> ?]..|intros ?]; by split_and!.
Qed.

Lemma running_next ow ph e :
  (sets_busy ow.1 e = Some false → ph = Closing) →
  running ow ph = Some ow → sets_busy ow.1 e ≠ Some false →
  running ow (next_phase ow.1 ph e) = Some ow.
Proof.
  unfold running, next_phase. by destruct (sets_busy ow.1 e) as [[]|].
Qed.

(** One effect of the running handler keeps the invariant of the
    application. *)
Lemma seg_effect_base pg ow ph e k a :
  seg_inv pg ow ph a → in_phase ow.1 ph (Do e k) →
  busy_inv_at (running ow (next_phase ow.1 ph e)) (apply_effect pg ow e a).
Proof.
  intros Hseg Hph. destruct (in_phase_do _ _ _ _ Hph) as (Hk & Hopen & Hclose).
  pose proof (seg_sets_busy pg ow ph e a) as Hset.
  specialize (λ p' b, Hset p' b Hseg).
  destruct Hseg as [[Hphase Honce Hbusy Hidle Htg Hpgen Hpi Hcg Hpo]
                      Hgen Hfresh Hb Hpage].
  pose proof (apply_effect_next pg ow e a) as Hnext.
  pose proof (λ p' o b, apply_effect_busy pg ow e a p' o b) as Hcases.
  split; rewrite ?apply_effect_tasks; try done.
  - intros o p' Ho Hp' Hf.
    destruct (Hcases _ _ _ Hp' Hf) as (p & Hp & _ & [?|[(?&_&_)|(->&He&_)]]).
    + by eapply Hbusy.
    + pose proof (writers_gen _ _ _ Htg Ho). lia.
    + apply Hfresh; [|done]. by rewrite (Hclose He).
  - intros o p' Hp' Ht.
    destruct (Hcases _ _ _ Hp' Ht) as (p & Hp & _ & [Ho|[(_&?&_)|(->&He&_)]]);
      [|done|].
    + destruct (Hidle _ _ Hp Ho) as [?|Hrun]; [by left|right].
      assert (o = ow) as -> by (unfold running in Hrun; by case_decide; simplify_eq).
      apply running_next; [done..|]. intros He. by eapply (Hset p' false).
    + right. unfold running, next_phase. rewrite He. by rewrite decide_True.
  - eapply Forall_impl; [exact Htg|]. intros t Ht. cbv beta in *. lia.
  - intros o p' b Hp' Ho.
    destruct (Hcases _ _ _ Hp' Ho) as (p & Hp & _ & [Hold|[(?&_&?)|(->&_&_)]]);
      [|lia..]. specialize (Hpgen _ _ _ Hp Hold). lia.
  - intros p' Hp'. destruct (apply_effect_inst _ _ _ _ _ Hp') as (p & Hp & ->).
    specialize (Hpi _ Hp). lia.
  - intros o p' b Hp' Ho.
    destruct (Hcases _ _ _ Hp' Ho) as (p & Hp & -> & [?|[(?&_&_)|(->&_&[??])]]).
    + by eapply Hcg.
    + specialize (Hpi _ Hp). lia.
    + by eapply Hcg.
  - eapply Forall_impl; [exact Hpo|]. intros t Ht p' Hp'. cbv beta in *.
    destruct (apply_effect_inst _ _ _ _ _ Hp') as (p & Hp & ->). by apply Ht.
Qed.

(** One effect of the running handler keeps the invariant of its
    segment. *)
Lemma seg_effect pg ow ph e k a :
  seg_inv pg ow ph a → in_phase ow.1 ph (Do e k) →
  in_phase ow.1 (next_phase ow.1 ph e) k ∧
  seg_inv pg ow (next_phase ow.1 ph e) (apply_effect pg ow e a).
Proof.
  intros Hseg Hph. destruct (in_phase_do _ _ _ _ Hph) as (Hk & Hopen & Hclose).
  split; [done|].
  pose proof (seg_effect_base _ _ _ _ _ _ Hseg Hph) as Hbase.
  pose proof (seg_sets_busy pg ow ph e a) as Hset.
  specialize (λ p' b, Hset p' b Hseg).
  destruct Hseg as [_ Hgen Hfresh Hb Hpage].
  pose proof (apply_effect_next pg ow e a) as Hnext.
  split; rewrite ?apply_effect_tasks; [done|lia|..].
  - unfold next_phase. destruct (sets_busy ow.1 e) as [[]|] eqn:He; try done.
    intros _. apply Hfresh. by rewrite Hopen.
  - intros p'. unfold next_phase.
    destruct (sets_busy ow.1 e) as [[]|] eqn:He; try done.
    + intros _. by apply (Hset p' true).
    + intros -> Hp' Hf.
      destruct (apply_effect_busy _ _ _ _ _ _ _ Hp' Hf)
        as (p & Hp & _ & [?|[(?&_&_)|(_&?&_)]]);
        [by eapply Hb|lia|congruence].
  - intros p' Hp'. destruct (apply_effect_inst _ _ _ _ _ Hp') as (p & Hp & ->).
    by apply Hpage.
Qed.

Lemma writers_snoc_requested ts pg ow {R} (c : Call R) k :
  writers (ts ++ [{| t_page := pg; t_owner := ow;
                     t_pending := Requested c k |}])
  = writers ts ++ (if writer_call c then [ow] else []).
Proof.
  rewrite writers_app. f_equal. unfold writers, writer_of, task_call_writer.
  simpl. by destruct (writer_call c).
Qed.

(** A segment run to its end or to its next call leaves the invariant. *)
Lemma seg_start pg ow ph q a :
  seg_inv pg ow ph a → in_phase ow.1 ph q → busy_inv (start pg ow q a).
Proof.
  revert ph a. induction q as [x|e k IH|R c k _]; intros ph a Hseg Hph.
  - simpl in Hph. subst ph. by destruct Hseg.
  - rewrite start_do. destruct (seg_effect _ _ _ _ _ _ Hseg Hph) as [Hk Hseg'].
    by eapply IH.
  - destruct Hph as [-> Hk].
    destruct Hseg as [[Hphase Honce Hbusy Hidle Htg Hpgen Hpi Hcg Hpo]
                        Hgen Hfresh Hb Hpage].
    unfold start. simpl. unfold phase_of, running in *.
    split; simpl; rewrite ?writers_snoc_requested; try done.
    + apply Forall_app. split; [done|]. by repeat constructor.
    + destruct (writer_call c); [|by rewrite app_nil_r].
      apply NoDup_app. split_and!; [done| |apply NoDup_singleton].
      intros o Ho ->%list_elem_of_singleton. by apply Hfresh.
    + intros o p. rewrite elem_of_app. intros [Ho|Ho] Hp; [by eapply Hbusy|].
      destruct (writer_call c); [|by apply elem_of_nil in Ho].
      apply list_elem_of_singleton in Ho as ->. by apply Hb.
    + intros o p Hp Ht. left. rewrite elem_of_app.
      destruct (Hidle _ _ Hp Ht) as [?|Hrun]; [by left|right].
      destruct (writer_call c);
        [rewrite decide_True in Hrun by done|by rewrite decide_False in Hrun].
      simplify_eq. by left.
    + apply Forall_app. split; [done|]. by repeat constructor.
    + apply Forall_app. split; [done|]. repeat constructor. simpl.
      intros p Hp Hlt. symmetry. by apply Hpage.
Qed.

End busy.

(** ** Every handler keeps to the discipline *)

Lemma busy_at_dialog slot p d :
  dialog_at slot p = Some d →
  busy_at (SDialog slot, d.1) p = Some (NewFeedbackDialog.isSubmitting d.2).
Proof. unfold busy_at. simpl. intros ->. simpl. by rewrite decide_True. Qed.

Lemma busy_at_card id p c :
  pg_cards p !! id = Some c →
  busy_at (SCard id, c.1) p = Some (FeedbackCard.isSubmitting c.2).
Proof. unfold busy_at. simpl. intros ->. simpl. by rewrite decide_True. Qed.

(** A handler that the screen lets start is quiet, or it is a writer's
    and the flag of its instance is not set; its instance is the page or
    a component on the screen. *)
Lemma started_phase ev p ow q :
  started ev p = Some (ow, q) →
  (ow = (SPage, pg_inst p) ∨ is_Some (busy_at ow p)) ∧
  (in_phase ow.1 Quiet q ∨
   (in_phase ow.1 Opening q ∧ busy_at ow p = Some false)).
Proof.
  intros Hs%started_starts.
  destruct Hs as [s|Hl|slot d b Hd|slot d v Hd Ho Hv|slot d Hd Ho
                 |slot d title content Hd Ho Hv Hb|id c Hc|id c text Hc Ho
                 |id c Hc Ho Hb Hn];
    rewrite ?(busy_at_dialog _ _ _ Hd), ?(busy_at_card _ _ _ Hc);
    (split; [by eauto|]).
  - left. apply onAuthStateChange_quiet.
  - left. apply page_handleSignOut_quiet.
  - left. handler_tac.
  - left. handler_tac.
  - left. handler_tac.
  - right. split; [apply page_handleSubmit_opening|by rewrite Hb].
  - left. handler_tac.
  - left. handler_tac.
  - right. split; [by apply page_handleSubmitComment_opening|by rewrite Hb].
Qed.

(** ** The invariant holds in every reachable state *)

Section busy_step.
Context `{BackendSpec B}.
Implicit Types (a : App B).

Lemma initial_busy_inv (b : B) : busy_inv (initialApp b).
Proof. split; simpl; try done; constructor. Qed.

(** The invariant does not read the subscriptions. *)
Lemma busy_inv_set_subs l a : busy_inv a → busy_inv (set_subs l a).
Proof. by intros []. Qed.

Lemma serve_task_writer ε t (b : B) t' b' :
  serve_task ε t b = Some (t', b') →
  writer_of t' = writer_of t ∧ t_owner t' = t_owner t ∧
  t_page t' = t_page t ∧ (task_in_phase t → task_in_phase t').
Proof.
  unfold serve_task, writer_of, task_call_writer, task_in_phase.
  destruct (t_pending t) eqn:Hp; [|done]. intros [= <- _]. simpl.
  split_and!; [done..|]. intros Hk. apply Hk.
Qed.

Lemma resume_writer t q :
  resume t = Some q → task_in_phase t →
  ∃ ph, in_phase (t_owner t).1 ph q ∧ ph ≠ Opening ∧
        writer_of t = running (t_owner t) ph.
Proof.
  unfold resume, task_in_phase, writer_of, task_call_writer, running.
  destruct (t_pending t) as [|R c r k]; [done|]. intros [= <-] Hk.
  exists (phase_of c). unfold phase_of in *.
  by destruct (writer_call c).
Qed.

Lemma mount_seg_inv a :
  busy_inv a → page a = None →
  seg_inv (next_inst a) (SPage, next_inst a) Quiet
    (set_next (S (next_inst a)) (set_page (Some (new_page (next_inst a))) a)).
Proof.
  intros [Hphase Honce Hbusy Hidle Htg Hpgen Hpi Hcg Hpo] Hp.
  split; simpl; try done; [|lia|by intros p [= <-]].
  split; simpl; try done.
  - intros ow p _ [= <-]. by rewrite busy_at_new_page.
  - intros ow p [= <-]. by rewrite busy_at_new_page.
  - eapply Forall_impl; [exact Htg|]. intros t Ht. cbv beta in *. lia.
  - intros ow p b [= <-]. by rewrite busy_at_new_page.
  - intros p [= <-]. simpl. lia.
  - intros ow p b [= <-]. by rewrite busy_at_new_page.
  - eapply Forall_impl; [exact Htg|]. intros t Ht p [= <-] Hlt.
    simpl in *. lia.
Qed.

Lemma handler_seg_inv ev a p ow q :
  busy_inv a → page a = Some p → started ev p = Some (ow, q) →
  ∃ ph, in_phase ow.1 ph q ∧ seg_inv (pg_inst p) ow ph a.
Proof.
  intros Hinv Hp Hh. destruct (started_phase _ _ _ _ Hh) as [Hown Hph].
  assert (ow.2 < next_inst a) as Hgen.
  { destruct Hown as [->|[b Hb]]; [by apply (inv_page_inst None a Hinv)|].
    by eapply (inv_page_gen None a Hinv). }
  assert (∀ p', page a = Some p' → pg_inst p' < ow.2 → pg_inst p' = pg_inst p)
    as Hpage by (intros p' Hp' _; congruence).
  destruct Hph as [Hq|[Hq Hb]].
  - exists Quiet. split; [done|]. by split.
  - exists Opening. split; [done|]. split; try done.
    intros _ Ho. by eapply (inv_busy None a Hinv).
Qed.

Lemma deliver_seg_inv a i t q :
  busy_inv a → tasks a !! i = Some t → resume t = Some q →
  ∃ ph, in_phase (t_owner t).1 ph q ∧
        seg_inv (t_page t) (t_owner t) ph (set_tasks (delete i (tasks a)) a).
Proof.
  intros [Hphase Honce Hbusy Hidle Htg Hpgen Hpi Hcg Hpo] Ht Hq.
  pose proof (Forall_lookup_1 _ _ _ _ Hphase Ht) as Hph.
  destruct (resume_writer _ _ Hq Hph) as (ph & Hin & Hno & Hw).
  pose proof (writers_delete _ _ _ Ht) as Hperm. rewrite Hw in Hperm.
  exists ph. split; [done|]. unfold running in *. split; simpl.
  - split; simpl; try done.
    + by apply Forall_delete.
    + rewrite Hperm in Honce. by apply NoDup_app in Honce as (_ & _ & ?).
    + intros ow p Ho. apply Hbusy. rewrite Hperm, elem_of_app. by right.
    + intros ow p Hp Hb. destruct (Hidle _ _ Hp Hb) as [Ho|?]; [|done].
      rewrite Hperm, elem_of_app in Ho. destruct Ho as [Ho|?]; [|by left].
      right. case_decide as Hc; simpl in Ho; [|by apply elem_of_nil in Ho].
      apply list_elem_of_singleton in Ho as ->.
      unfold running. by rewrite decide_True.
    + by apply Forall_delete.
    + by apply Forall_delete.
  - by apply (Forall_lookup_1 _ _ _ _ Htg Ht).
  - intros Hne. destruct ph; try done.
    rewrite Hperm in Honce. simpl in Honce.
    by apply NoDup_cons in Honce as [? _].
  - intros p -> Hp. apply Hbusy; [|done]. rewrite Hperm. by left.
  - intros p Hp Hlt. symmetry. by apply (Forall_lookup_1 _ _ _ _ Hpo Ht).
Qed.

Lemma step_busy_inv ev a a' :
  sub_inv a → busy_inv a → step ev a = Some a' → busy_inv a'.
Proof.
  intros Hsub Hinv Hs.
  destruct (step_inv _ _ _ Hsub Hs)
    as [Hp|ev p ow q Hp Hh|i ε t t' b' Ht Hsv|i t q Ht Hq].
  - rewrite mount_eq. apply busy_inv_set_subs.
    eapply seg_start; [by apply mount_seg_inv|apply page_checkAuth_quiet].
  - destruct (handler_seg_inv _ _ _ _ _ Hinv Hp Hh) as (ph & Hq & Hseg).
    by eapply seg_start.
  - destruct (serve_task_writer _ _ _ _ _ Hsv) as (Hw & Ho & Hpg & Hph).
    destruct Hinv as [Hphase Honce Hbusy Hidle Htg Hpgen Hpi Hcg Hpo].
    split; simpl; rewrite ?(writers_insert _ _ _ _ Ht Hw); try done.
    + apply Forall_insert; [done|].
      by apply Hph, (Forall_lookup_1 _ _ _ _ Hphase Ht).
    + apply Forall_insert; [done|]. rewrite Ho.
      by apply (Forall_lookup_1 _ _ _ _ Htg Ht).
    + apply Forall_insert; [done|]. rewrite Ho, Hpg.
      by apply (Forall_lookup_1 _ _ _ _ Hpo Ht).
  - destruct (deliver_seg_inv _ _ _ _ Hinv Ht Hq) as (ph & Hin & Hseg).
    by eapply seg_start.
Qed.

Lemma reachable_busy_inv b0 a : reachable b0 a → busy_inv a.
Proof.
  induction 1 as [|ev a a' Ha IH Hs _]; [apply initial_busy_inv|].
  by eapply step_busy_inv; [eapply reachable_sub_inv|..].
Qed.

(** C11. At most one writer per instance.  In every state the
    application can be in, no two handlers in flight that are between
    setting and resetting the busy flag belong to the same component
    instance: the list of the instances with such a handler has no
    duplicate. *)
Theorem one_writer_per_instance b0 a :
  reachable b0 a → NoDup (writers (tasks a)).
Proof. intros Ha. apply (inv_once None a), (reachable_busy_inv b0 a Ha). Qed.

(** C13. The flag tells the truth.  In every state the application can
    be in, the busy flag of an instance on the screen is set exactly
    when a writer of that instance is in flight: a button is never
    disabled for a writer that has finished, nor enabled while one is
    pending. *)
Theorem busy_iff_writing b0 a p ow b :
  reachable b0 a → page a = Some p → busy_at ow p = Some b →
  b = true ↔ ow ∈ writers (tasks a).
Proof.
  intros Ha%reachable_busy_inv Hp Hb. split.
  - intros ->. by destruct (inv_idle None a Ha _ _ Hp Hb).
  - intros Hw. pose proof (inv_busy None a Ha _ _ Hw Hp). by destruct b.
Qed.

(** The flag of an instance with a writer in flight is set. *)
Lemma writer_busy b0 a p ow b :
  reachable b0 a → page a = Some p → busy_at ow p = Some b →
  ow ∈ writers (tasks a) → b = true.
Proof.
  intros Ha%reachable_busy_inv Hp Hb Hw.
  pose proof (inv_busy None a Ha _ _ Hw Hp). by destruct b.
Qed.

(** While a dialog has a writer in flight its submit button lets
    nothing through: a submission of that dialog is not a step. *)
Lemma no_submit_while_writing b0 a p slot d title content :
  reachable b0 a → page a = Some p → dialog_at slot p = Some d →
  (SDialog slot, d.1) ∈ writers (tasks a) →
  step (ADialogSubmit slot title content) a = None.
Proof.
  intros Ha Hp Hd Hw.
  apply (writer_busy _ _ _ _ _ Ha Hp (busy_at_dialog _ _ _ Hd)) in Hw.
  simpl. rewrite Hp. simpl. rewrite Hd. simpl.
  unfold submitDisabled. by rewrite Hw, andb_false_r.
Qed.

(** While a card has a writer in flight its send button lets nothing
    through: sending from that card is not a step. *)
Lemma no_send_while_writing b0 a p id c :
  reachable b0 a → page a = Some p → pg_cards p !! id = Some c →
  (SCard id, c.1) ∈ writers (tasks a) →
  step (ACardSend id) a = None.
Proof.
  intros Ha Hp Hc Hw.
  apply (writer_busy _ _ _ _ _ Ha Hp (busy_at_card _ _ _ Hc)) in Hw.
  simpl. rewrite Hp. simpl. rewrite Hc. simpl.
  unfold sendDisabled. by rewrite Hw, andb_false_r.
Qed.

(** C28. No second write.  In every state the application can be in,
    while a component on the screen has a writer in flight, its button
    lets nothing through: a submission of that dialog, or sending from
    that card, is not a step, whatever the form or the input holds. *)
Theorem no_second_write b0 a p :
  reachable b0 a → page a = Some p →
  (∀ slot d title content,
     dialog_at slot p = Some d → (SDialog slot, d.1) ∈ writers (tasks a) →
     step (ADialogSubmit slot title content) a = None) ∧
  (∀ id c,
     pg_cards p !! id = Some c → (SCard id, c.1) ∈ writers (tasks a) →
     step (ACardSend id) a = None).
Proof.
  intros Ha Hp. split; intros;
    [by eapply no_submit_while_writing|by eapply no_send_while_writing].
Qed.

End busy_step.

(** ** The theorems at concrete states *)

(** With a submission of the header's dialog in flight, that dialog is
    the only writer. *)
Lemma one_writer_per_instance_witness :
  NoDup (writers (tasks (after submit_run demo_backend))).
Proof.
  exact (one_writer_per_instance demo_backend _
           (reachable_after _ _ submit_run_ok)).
Defined.

Lemma busy_iff_writing_witness :
  (SDialog HeaderDialog, 3) ∈ writers (tasks (after submit_run demo_backend)).
Proof.
  refine (proj1 (busy_iff_writing demo_backend _ _ (SDialog HeaderDialog, 3)
                   true (reachable_after _ _ submit_run_ok) _ _) eq_refl).
  - vm_compute. reflexivity.
  - vm_compute. reflexivity.
Defined.

Lemma no_second_write_witness :
  step (ADialogSubmit HeaderDialog (js "Outra") (js "vez"))
    (after submit_run demo_backend) = None.
Proof.
  refine (proj1 (no_second_write demo_backend _ _
                   (reachable_after _ _ submit_run_ok) _)
            HeaderDialog _ _ _ _ _).
  - vm_compute. reflexivity.
  - vm_compute. reflexivity.
  - vm_compute. left.
Defined.

(** The same for the card of feedback 100 while its comment is sent. *)
Lemma no_send_while_writing_example :
  step (ACardSend 100) (after send_run demo_backend1) = None.
Proof.
  refine (no_send_while_writing demo_backend1 _ _ 100%N _
            (reachable_after _ _ send_run_ok) _ _ _).
  - vm_compute. reflexivity.
  - vm_compute. reflexivity.
  - vm_compute. left.
Defined.
