(* ===== verification/AppShape.v ===== *)
(** * AppShape: the page is well formed in every reachable state

    What every render of the page can rely on, whatever the order of the
    responses:

    - [feed_wf]: the feed shown is ordered newest first and its
      identifiers are unique, so the keys of the cards (Index.tsx line
      158) are unique;
    - [screen_ok]: the children on the screen are those of the page's
      state: none while loading, the dialog of the header afterwards,
      the second dialog exactly on an empty feed, one card per feedback
      shown (Index.tsx lines 98-104, 141-169);
    - [app_wf]: both, together with the invariant of the backend, the
      subscription of the mounted page and the well-formedness of every
      response of the feed query that has not been delivered yet;
    - [reconcile_same]: a render that does not change the body keeps
      every child with its state.

    [reachable_wf] shows [app_wf] in every reachable state of an
    application started on a well-formed backend. *)

From S2P Require Import Prelude JsString Async Model Backend Supabase.
From S2P Require Import FeedbackCard NewFeedbackDialog Index Page App AppDemo.
From S2P Require Import AppFeed.

(** ** Well-formed feeds, pages and applications *)

Definition feed_wf (l : list Feedback) : Prop :=
  StronglySorted newer l ∧ NoDup (fb_id <$> l).

(** The children of [p] are those that [Index_body] renders. *)
Definition screen_ok (p : PageInst) : Prop :=
  match Index_body (pg_state p) with
  | BodyLoading => pg_header p = None ∧ pg_empty p = None ∧ pg_cards p = ∅
  | BodyEmpty =>
      is_Some (pg_header p) ∧ is_Some (pg_empty p) ∧ pg_cards p = ∅
  | BodyFeed cards =>
      is_Some (pg_header p) ∧ pg_empty p = None ∧
      ∀ id, is_Some (pg_cards p !! id) ↔ id ∈ cards.*1
  end.

Record page_wf (p : PageInst) : Prop := {
  wf_screen : screen_ok p;
  wf_feed : feed_wf (feedbacks (pg_state p))
}.

(** The rows of a response to the feed query are a well-formed feed. *)
Definition task_wf : Task → Prop := task_has feed_wf.

Record app_wf `{BackendSpec B} (a : App B) : Prop := {
  wf_backend : wf (backend a);
  wf_page p : page a = Some p → page_wf p;
  wf_tasks : Forall task_wf (tasks a);
  wf_loads : Forall task_ok (tasks a);
  wf_subs : sub_inv a
}.

(** ** Rendering keeps the screen *)

Lemma feed_wf_nil : feed_wf [].
Proof. split; constructor. Qed.

Lemma reconcile_screen next p st : screen_ok (reconcile next p st).
Proof.
  unfold screen_ok. rewrite reconcile_state. unfold reconcile, Index_body.
  destruct (isLoading st); [done|]. case_decide; simpl; [done|].
  split_and!; [done..|].
  intros id. by rewrite mount_cards_is_Some, <-list_fmap_compose.
Qed.

(** Rendering again with the same body keeps every child with its
    state: the open dialog, the text typed in a card. *)
Lemma reconcile_same next p st :
  screen_ok p → Index_body st = Index_body (pg_state p) →
  reconcile next p st
  = {| pg_inst := pg_inst p; pg_state := st; pg_header := pg_header p;
       pg_empty := pg_empty p; pg_cards := pg_cards p |}.
Proof.
  unfold screen_ok, reconcile. intros Hsc Hst. rewrite Hst.
  destruct (Index_body (pg_state p)) as [| |cards] eqn:Hb.
  - by destruct Hsc as (-> & -> & ->).
  - by destruct Hsc as ([d ->] & [d' ->] & ->).
  - destruct Hsc as ([d ->] & -> & Hc). simpl. f_equal.
    apply mount_cards_same. intros id. rewrite Hc.
    unfold Index_body in Hst. rewrite <-Hst in Hb.
    unfold Index_body in Hb. repeat case_match; simplify_eq.
    by rewrite <-list_fmap_compose.
Qed.

Lemma update_inst_is_Some {St} g (f : St → St) (c : option (Inst St)) :
  is_Some (update_inst g f <$> c) ↔ is_Some c.
Proof. apply fmap_is_Some. Qed.

Lemma page_apply_screen ow e p : screen_ok p → screen_ok (page_apply ow e p).
Proof.
  unfold screen_ok. rewrite page_apply_state. unfold page_apply.
  destruct e as [e|e|id e]; [done| |].
  - destruct ow as [[|[]|] g]; simpl; try done;
      destruct (Index_body (pg_state p)); simpl;
      rewrite ?fmap_is_Some, ?fmap_None; done.
  - case_decide; [|done]. destruct (Index_body (pg_state p)); simpl.
    + intros (? & ? & ->). by rewrite alter_empty.
    + intros (? & ? & ->). by rewrite alter_empty.
    + intros (? & ? & Hc). split_and!; [done..|].
      intros id'. rewrite <-Hc.
      destruct (decide (id' = id)) as [->|];
        [by rewrite lookup_alter_eq, fmap_is_Some
        |by rewrite lookup_alter_ne].
Qed.

Section shape.
Context `{BackendSpec B}.
Implicit Types (a : App B) (e : PageEffect) (p : Proc Call PageEffect unit).

Definition pages_wf a : Prop := ∀ pi, page a = Some pi → page_wf pi.

(** One effect keeps the page well formed, if the feed it sets is. *)
Lemma apply_effect_wf pg ow e a :
  (∀ l, sets_feed e = Some l → feed_wf l) →
  pages_wf a → pages_wf (apply_effect pg ow e a).
Proof.
  intros Hl Ha pi. unfold apply_effect.
  destruct (is_navigate e); simpl; [done|].
  destruct (page a) as [p0|] eqn:Hp; simpl; rewrite ?Hp; [|done].
  destruct (Ha p0 Hp) as [Hsc Hfd].
  case_decide; [|by simpl; rewrite Hp; intros [= <-]; split].
  destruct e as [e| |]; simpl; intros [= <-].
  - split; [apply reconcile_screen|]. rewrite reconcile_state.
    destruct e; simpl; try done. by apply Hl.
  - split; [by apply page_apply_screen|by rewrite page_apply_state].
  - split; [by apply page_apply_screen|by rewrite page_apply_state].
Qed.

Lemma apply_effects_wf pg ow es a :
  Forall (λ e, sets_feed e = None) es →
  pages_wf a → pages_wf (apply_effects pg ow es a).
Proof.
  revert a. induction es as [|e es IH]; intros a Hes Ha; simpl; [done|].
  apply Forall_cons in Hes as [He Hes].
  apply IH; [done|]. apply apply_effect_wf; [|done]. congruence.
Qed.

Lemma start_wf pg ow p a :
  feed_free p → pages_wf a → pages_wf (start pg ow p a).
Proof.
  intros [Hes _]%feed_free_sync Ha pi. rewrite start_page.
  by apply apply_effects_wf.
Qed.

(** Resuming after a response whose rows are a well-formed feed. *)
Lemma start_loads_wf {R} (c : Call R) r pg ow p a :
  loads c r p → (∀ l, ok_rows c r = Some l → feed_wf l) →
  pages_wf a → pages_wf (start pg ow p a).
Proof.
  destruct p as [x|e q|R' c' k]; simpl; [done| |done].
  rewrite start_do. intros Hq Hr Ha.
  apply start_wf; [by destruct (sets_feed e); [destruct Hq|]|].
  apply apply_effect_wf; [|done].
  intros l Hl. rewrite Hl in Hq. apply Hr, Hq.
Qed.

(** The backend answers the feed query with a well-formed feed. *)
Lemma serve_task_wf ε t (b : B) t' b' :
  wf b → serve_task ε t b = Some (t', b') → task_wf t'.
Proof.
  unfold serve_task, task_wf, task_has.
  destruct (t_pending t) as [R c k|]; [|done].
  intros Hb [= <- _]. simpl. destruct c; try done.
  rewrite serve_select. simpl. intros l.
  destruct (env_ok ε); simpl; [|done].
  intros [= <-]. split; [by apply feed_sorted|by apply feed_nodup].
Qed.

Lemma serve_task_backend ε t (b : B) t' b' :
  wf b → admissible ε b → serve_task ε t b = Some (t', b') → wf b'.
Proof.
  unfold serve_task. destruct (t_pending t) as [R c k|]; [|done].
  intros Hb Hadm [= _ <-]. by apply serve_wf.
Qed.

Lemma initial_wf (b0 : B) : wf b0 → app_wf (initialApp b0).
Proof. by split; [|done|constructor|constructor|]. Qed.

Lemma new_page_wf n : page_wf (new_page n).
Proof. split; [done|apply feed_wf_nil]. Qed.

Lemma step_wf ev a a' :
  (∀ i ε, ev = AServe i ε → admissible ε (backend a)) →
  app_wf a → step ev a = Some a' → app_wf a'.
Proof.
  intros Hadm [Hb Hp Ht Hl Hsub] Hs.
  pose proof (step_task_ok _ _ _ Hsub Hl Hs) as Hl'.
  pose proof (step_sub_inv _ _ _ Hsub Hs) as Hsub'.
  destruct (step_inv _ _ _ Hsub Hs)
    as [Hn|ev p ow q Hpg Hh|i ε t t' b' Hi Hsv|i t q Hi Hq].
  - split; rewrite ?mount_backend, ?mount_tasks, ?mount_page;
      [done| |by apply start_task_has|done..].
    apply start_wf; [apply page_checkAuth_feed_free|].
    intros pi [= <-]. apply new_page_wf.
  - split; [by rewrite start_backend| |by apply start_task_has|done..].
    apply start_wf; [by eapply started_feed_free|done].
  - split; simpl; [|done| |done..].
    + eapply serve_task_backend; [done| |done]. by eapply Hadm.
    + apply Forall_insert; [done|]. by eapply serve_task_wf.
  - pose proof (Forall_lookup_1 _ _ _ _ Hl Hi) as Hok.
    pose proof (Forall_lookup_1 _ _ _ _ Ht Hi) as Hwf.
    destruct (resume_loads _ _ Hok Hq) as (R & c & r & k & Hpend & Hld).
    unfold task_wf, task_has in Hwf. rewrite Hpend in Hwf.
    split; [by rewrite start_backend| | |done..].
    + by eapply start_loads_wf.
    + apply start_task_has. simpl. by apply Forall_delete.
Qed.

Lemma reachable_app_wf b0 a : wf b0 → reachable b0 a → app_wf a.
Proof.
  intros Hb0. induction 1 as [|ev a a' _ IH Hs Hadm];
    [by apply initial_wf|by eapply step_wf].
Qed.

(** What [screen_ok] says, screen by screen. *)
Lemma screen_ok_children (pi : PageInst) :
  screen_ok pi →
  (is_Some (pg_header pi) ↔ isLoading (pg_state pi) = false) ∧
  (is_Some (pg_empty pi)
   ↔ isLoading (pg_state pi) = false ∧ feedbacks (pg_state pi) = []) ∧
  (∀ id, is_Some (pg_cards pi !! id)
         ↔ isLoading (pg_state pi) = false ∧
           id ∈ fb_id <$> feedbacks (pg_state pi)).
Proof.
  unfold screen_ok, Index_body.
  destruct (isLoading (pg_state pi)); [|case_decide as Hlen].
  - intros (-> & -> & ->). split_and!; [|split|intros id; split];
      rewrite ?lookup_empty, <-?not_eq_None_Some; intuition congruence.
  - apply nil_length_inv in Hlen as ->. intros (? & ? & ->).
    split_and!; [done|done|].
    intros id. rewrite lookup_empty, <-not_eq_None_Some, elem_of_nil.
    intuition congruence.
  - intros (? & -> & Hc). split_and!; [done| |].
    + rewrite <-not_eq_None_Some. split; [done|].
      intros [_ Hnil]. by rewrite Hnil in Hlen.
    + intros id. rewrite Hc, <-list_fmap_compose. intuition congruence.
Qed.

(** C18. The page is well formed in every reachable state.  Started on a
    well-formed backend, the page, when one is mounted, shows a feed
    ordered newest first with unique identifiers ([feed_wf]), and its
    children are those of its state: none while loading; afterwards the
    dialog of the header, the second dialog exactly when the feed is
    empty, and exactly one card per feedback shown. *)
Theorem reachable_wf b0 a (pi : PageInst) :
  wf b0 → reachable b0 a → page a = Some pi →
  feed_wf (feedbacks (pg_state pi)) ∧
  (is_Some (pg_header pi) ↔ isLoading (pg_state pi) = false) ∧
  (is_Some (pg_empty pi)
   ↔ isLoading (pg_state pi) = false ∧ feedbacks (pg_state pi) = []) ∧
  (∀ id, is_Some (pg_cards pi !! id)
         ↔ isLoading (pg_state pi) = false ∧
           id ∈ fb_id <$> feedbacks (pg_state pi)).
Proof.
  intros Hb0 Ha Hp.
  destruct (wf_page a (reachable_app_wf b0 a Hb0 Ha) pi Hp) as [Hsc Hfd].
  split; [done|]. by apply screen_ok_children.
Qed.

End shape.

(** ** The theorem at a concrete state *)

(** After the first load the card of feedback 100 is on the screen. *)
Lemma reachable_wf_witness :
  ∃ pi, page (after mount_run demo_backend1) = Some pi ∧
        is_Some (pg_cards pi !! 100%N).
Proof.
  eexists. split; [vm_compute; reflexivity|].
  refine (proj2 (proj2 (proj2 (proj2
            (reachable_wf demo_backend1 (after mount_run demo_backend1) _
               demo_backend1_wf (reachable_after _ _ mount_run_ok) _)))
            100%N) _).
  - vm_compute. reflexivity.
  - split; [reflexivity|]. vm_compute. left.
Defined.
