(* ===== verification/AppRefine.v ===== *)
(** * AppRefine: the writers refine a set of busy instances

    What the busy flags promise, as a machine of its own: a set of
    instances that are writing, which an instance enters when its form
    is submitted, provided it is not in it, and leaves when its writer
    is done ([wstep]).  The running application refines it
    ([writer_refines]): the abstraction of a state is the list of the
    instances with a writer in flight ([writers]), and the label of an
    event is read off the event and the state before it ([label]): a
    submission that the screen lets through enters its instance, the
    delivery of the response after which a writer makes no further call
    of its own leaves it, and every other event leaves the set alone.
    [wstep] respects permutations ([wstep_proper]) and keeps the list
    free of duplicates; [steps_refine] lifts the refinement to runs
    ([wrun]). *)

From S2P Require Import Prelude JsString Async Model Backend Supabase.
From S2P Require Import FeedbackCard NewFeedbackDialog Index Page App AppDemo.
From S2P Require Import AppBusy.

(** ** The abstract machine *)

Inductive WLabel :=
| WSubmit (ow : Owner)
| WDone (ow : Owner)
| WTau.

(** The set of the instances that are writing, as a list up to order. *)
Inductive wstep : list Owner → WLabel → list Owner → Prop :=
| wstep_submit ow W W' :
    ow ∉ W → W' ≡ₚ ow :: W → wstep W (WSubmit ow) W'
| wstep_done ow W W' :
    W ≡ₚ ow :: W' → wstep W (WDone ow) W'
| wstep_tau W W' :
    W' ≡ₚ W → wstep W WTau W'.

(** ** Labels *)

(** The handler suspends on a call of a writer. *)
Definition still_writing (q : Proc Call PageEffect unit) : bool :=
  match (sync q).2 with
  | Waiting c _ => writer_call c
  | Finished _ => false
  end.

(** What an event means for the set of writers, in the state [a]. *)
Definition label {B} (ev : AppEvent) (a : App B) : WLabel :=
  match ev with
  | ADialogSubmit _ _ _ | ACardSend _ =>
      match page a ≫= handler ev with
      | Some (ow, _) => WSubmit ow
      | None => WTau
      end
  | ADeliver i =>
      match tasks a !! i with
      | Some t =>
          match writer_of t, resume t with
          | Some ow, Some q => if still_writing q then WTau else WDone ow
          | _, _ => WTau
          end
      | None => WTau
      end
  | _ => WTau
  end.

(** ** The abstract machine keeps its set a set *)

Lemma wstep_NoDup W l W' : NoDup W → wstep W l W' → NoDup W'.
Proof.
  intros HW Hs. revert HW.
  destruct Hs as [ow W0 W1 Hno Hp|ow W0 W1 Hp|W0 W1 Hp]; intros HW.
  - rewrite Hp. by constructor.
  - rewrite Hp in HW. by apply NoDup_cons in HW as [_ ?].
  - by rewrite Hp.
Qed.

(** The machine is one on sets: it does not see the order of a list. *)
#[export] Instance wstep_proper :
  Proper ((≡ₚ) ==> (=) ==> (≡ₚ) ==> iff) wstep.
Proof.
  assert (∀ W1 W2 l W1' W2',
            W1 ≡ₚ W2 → W1' ≡ₚ W2' → wstep W1 l W1' → wstep W2 l W2') as Himp.
  { intros W1 W2 l W1' W2' HW HW' Hs. revert W2 W2' HW HW'.
    destruct Hs as [ow W0 W1 Hno Hp|ow W0 W1 Hp|W0 W1 Hp]; intros W2 W2' HW HW'.
    - apply wstep_submit; [by rewrite <-HW|by rewrite <-HW', <-HW].
    - apply wstep_done. by rewrite <-HW, <-HW'.
    - apply wstep_tau. by rewrite <-HW, <-HW'. }
  intros W1 W2 HW l ? <- W1' W2' HW'. split; by apply Himp.
Qed.

(** A run of the machine. *)
Inductive wrun : list Owner → list WLabel → list Owner → Prop :=
| wrun_nil W : wrun W [] W
| wrun_cons W l W1 ls W' :
    wstep W l W1 → wrun W1 ls W' → wrun W (l :: ls) W'.

Lemma wrun_NoDup W ls W' : NoDup W → wrun W ls W' → NoDup W'.
Proof. induction 2; eauto using wstep_NoDup. Qed.

(** ** Starting and resuming *)

Section writers.
Context {B : Type}.
Implicit Types (a : App B) (q : Proc Call PageEffect unit).

Lemma start_writers pg ow q a :
  writers (tasks (start pg ow q a))
  = writers (tasks a) ++ (if still_writing q then [ow] else []).
Proof.
  rewrite start_tasks. unfold still_writing.
  destruct (sync q).2; [by rewrite !app_nil_r|apply writers_snoc_requested].
Qed.

Lemma still_writing_do e q : still_writing (Do e q) = still_writing q.
Proof. unfold still_writing. simpl. by destruct (sync q). Qed.

(** A quiet handler makes no call of a writer. *)
Lemma quiet_still s q : in_phase s Quiet q → still_writing q = false.
Proof.
  induction q as [x|e k IH|R c k _]; [done| |].
  - rewrite still_writing_do. simpl.
    destruct (sets_busy s e) as [[]|]; [by intros []|by intros []|done].
  - unfold still_writing. simpl. unfold phase_of. intros [Hc _].
    by destruct (writer_call c).
Qed.

Lemma start_quiet_writers s pg ow q a :
  in_phase s Quiet q → writers (tasks (start pg ow q a)) = writers (tasks a).
Proof. intros Hq. by rewrite start_writers, (quiet_still s), app_nil_r. Qed.

End writers.

(** The two writers suspend on the user lookup. *)
Lemma handleSubmit_still cat title content :
  still_writing (page_handleSubmit cat title content) = true.
Proof. done. Qed.

Lemma handleSubmitComment_still id text :
  ¬ blank text → still_writing (page_handleSubmitComment id text) = true.
Proof.
  intros Hb. unfold page_handleSubmitComment, handleSubmitComment.
  by rewrite not_truthy_trim, bool_decide_eq_false_2.
Qed.

(** A handler that the screen lets start: a submission suspends on a
    call of its writer, and nothing else does. *)
Lemma started_still ev p ow q :
  started ev p = Some (ow, q) →
  still_writing q
  = match ev with ADialogSubmit _ _ _ | ACardSend _ => true | _ => false end.
Proof.
  intros Hs%started_starts.
  destruct Hs;
    first [ apply handleSubmit_still
          | by apply handleSubmitComment_still
          | by apply (quiet_still SPage), onAuthStateChange_quiet
          | done ].
Qed.

(** ** The refinement *)

Section refine.
Context `{BackendSpec B}.
Implicit Types (a : App B).

Lemma label_user ev a p ow q :
  page a = Some p → started ev p = Some (ow, q) →
  label ev a = if still_writing q then WSubmit ow else WTau.
Proof.
  intros Hp Hh. rewrite (started_still _ _ _ _ Hh).
  unfold label. rewrite Hp.
  destruct ev as [|s| |slot []|id []| |]; try done; simpl in *; by rewrite Hh.
Qed.

(** The step of a user event. *)
Lemma user_refines ev a p ow q :
  busy_inv a → page a = Some p → started ev p = Some (ow, q) →
  wstep (writers (tasks a)) (label ev a)
    (writers (tasks (start (pg_inst p) ow q a))).
Proof.
  intros Hinv Hp Hh. rewrite (label_user _ _ _ _ _ Hp Hh), start_writers.
  destruct (still_writing q) eqn:Hq;
    [|apply wstep_tau; by rewrite app_nil_r].
  apply wstep_submit; [|by rewrite Permutation_app_comm].
  destruct (started_phase _ _ _ _ Hh) as [_ [Hquiet|[_ Hb]]].
  - by rewrite (quiet_still _ _ Hquiet) in Hq.
  - intros Hw. by apply (inv_busy None a Hinv _ _ Hw Hp).
Qed.

(** The delivery of a response. *)
Lemma deliver_refines i a t q :
  busy_inv a → tasks a !! i = Some t → resume t = Some q →
  wstep (writers (tasks a)) (label (ADeliver i) a)
    (writers (tasks (start (t_page t) (t_owner t) q
                       (set_tasks (delete i (tasks a)) a)))).
Proof.
  intros Hinv Ht Hq.
  pose proof (Forall_lookup_1 _ _ _ _ (inv_phase None a Hinv) Ht) as Hph.
  destruct (resume_writer _ _ Hq Hph) as (ph & Hin & Hno & Hw).
  pose proof (writers_delete _ _ _ Ht) as Hperm.
  unfold label. rewrite Ht, Hq, start_writers, Hw in *. simpl.
  unfold running in *. case_decide as Hc; simpl in *.
  - destruct (still_writing q).
    + apply wstep_tau. by rewrite Hperm, Permutation_app_comm.
    + apply wstep_done. by rewrite app_nil_r.
  - destruct ph; try done. rewrite (quiet_still _ _ Hin), app_nil_r.
    by apply wstep_tau.
Qed.

(** One step of the application is one step of the machine. *)
Lemma step_refines ev a a' :
  sub_inv a → busy_inv a → step ev a = Some a' →
  wstep (writers (tasks a)) (label ev a) (writers (tasks a')).
Proof.
  intros Hsub Hinv Hs.
  destruct (step_inv _ _ _ Hsub Hs)
    as [Hp|ev p ow q Hp Hh|i ε t t' b' Ht Hsv|i t q Ht Hq].
  - apply wstep_tau. rewrite mount_tasks.
    by rewrite (start_quiet_writers SPage) by apply page_checkAuth_quiet.
  - by apply user_refines.
  - apply wstep_tau. simpl.
    destruct (serve_task_writer _ _ _ _ _ Hsv) as (Hw & _).
    by rewrite (writers_insert _ _ _ _ Ht Hw).
  - by apply deliver_refines.
Qed.

(** The labels of a sequence of events from the state [a]. *)
Fixpoint labels (evs : list AppEvent) a : list WLabel :=
  match evs with
  | [] => []
  | ev :: evs =>
      label ev a :: from_option (labels evs) [] (step ev a)
  end.

(** A run of the application is a run of the machine. *)
Lemma steps_refine evs a a' :
  sub_inv a → busy_inv a → steps evs a = Some a' →
  wrun (writers (tasks a)) (labels evs a) (writers (tasks a')).
Proof.
  revert a. induction evs as [|ev evs IH]; intros a Hsub Hinv Hs;
    simplify_eq/=; [constructor|].
  destruct (step ev a) as [a1|] eqn:Hs1; simplify_eq/=.
  econstructor; [by apply step_refines|].
  apply IH; [by eapply step_sub_inv|by eapply step_busy_inv|done].
Qed.

(** C15. The writers refine the set of busy instances.  Every step of
    the application from a reachable state is a step of the abstract
    machine on the instances with a writer in flight: a submission that
    the screen lets through enters its instance, which was not in the
    set; the delivery after which a writer makes no further call of its
    own leaves its instance; every other event leaves the set as it
    is. *)
Theorem writer_refines b0 ev a a' :
  reachable b0 a → step ev a = Some a' →
  wstep (writers (tasks a)) (label ev a) (writers (tasks a')).
Proof.
  intros Ha. by apply step_refines;
    [eapply reachable_sub_inv|eapply reachable_busy_inv].
Qed.

End refine.

(** ** The theorem at a concrete step *)

(** The submission of the header's dialog enters its instance. *)
Lemma writer_refines_witness :
  wstep [] (WSubmit (SDialog HeaderDialog, 3)) [(SDialog HeaderDialog, 3)].
Proof.
  assert (step (ADialogSubmit HeaderDialog (js "Festa") (js "Foi boa"))
            (after compose_run demo_backend)
          = Some (after submit_run demo_backend)) as Hs
    by (vm_compute; reflexivity).
  pose proof (writer_refines demo_backend _ _ _
                (reachable_after _ _ compose_run_ok) Hs) as Hw.
  vm_compute in Hw. exact Hw.
Defined.
