(* ===== verification/AppLoad.v ===== *)
(** * AppLoad: the loading screen has a loader

    The page starts on the loading screen (Index.tsx lines 37, 98-104)
    and leaves it when the handler of its mount effect clears the flag
    (line 48) or navigates away (line 43).  This file shows that the
    loading screen is never orphaned:

    - [calm]: a procedure never sets the loading flag; every handler is
      calm;
    - [unloads]: on every path, a procedure clears the loading flag of
      its page or navigates away; the mount handler does;
    - [load_inv]: a page on the loading screen has its loader in
      flight; [reachable_load_inv]: in every reachable state. *)

From S2P Require Import Prelude JsString Async Model Backend Supabase.
From S2P Require Import FeedbackCard NewFeedbackDialog Index Page App AppDemo.

(** ** Procedures and the loading flag *)

Definition sets_loading (e : PageEffect) : option bool :=
  match e with on_index (setIsLoading b) => Some b | _ => None end.

(** [q] never puts a page back on the loading screen. *)
Fixpoint calm (q : Proc Call PageEffect unit) : Prop :=
  match q with
  | Ret _ => True
  | Do e k => sets_loading e ≠ Some true ∧ calm k
  | Await c k => ∀ r, calm (k r)
  end.

(** On every path, [q] clears the loading flag or navigates away. *)
Fixpoint unloads (q : Proc Call PageEffect unit) : Prop :=
  match q with
  | Ret _ => False
  | Do e k => sets_loading e = Some false ∨ is_navigate e = true ∨ unloads k
  | Await c k => ∀ r, unloads (k r)
  end.

(** What is left of a task satisfies [P]. *)
Definition task_rest (P : Proc Call PageEffect unit → Prop) (t : Task)
  : Prop :=
  match t_pending t with
  | Requested c k => ∀ r, P (k r)
  | Responded c r k => P (k r)
  end.

(** The task [t] is a loader of the page instance [pg]. *)
Definition loader_of (pg : nat) (t : Task) : Prop :=
  t_page t = pg ∧ task_rest unloads t.

(** Every task is calm, and a page on the loading screen has a loader
    in flight. *)
Record load_inv {B} (a : App B) : Prop := {
  inv_calm : Forall (task_rest calm) (tasks a);
  inv_loader p :
    page a = Some p → isLoading (pg_state p) = true →
    Exists (loader_of (pg_inst p)) (tasks a)
}.

(** The same while the handler [q] of the page instance [pg] runs a
    synchronous segment: the loader may be [q] itself. *)
Record load_seg {B} (pg : nat) (q : Proc Call PageEffect unit) (a : App B)
  : Prop := {
  seg_calm : Forall (task_rest calm) (tasks a);
  seg_self : calm q;
  seg_loader p :
    page a = Some p → isLoading (pg_state p) = true →
    Exists (loader_of (pg_inst p)) (tasks a) ∨ (pg_inst p = pg ∧ unloads q)
}.

(** ** Every handler is calm, and the mount handler unloads *)

Lemma page_checkAuth_calm : calm page_checkAuth.
Proof. unfold page_checkAuth, checkAuth. handler_tac. Qed.

Lemma page_checkAuth_unloads : unloads page_checkAuth.
Proof.
  unfold page_checkAuth, checkAuth, map_effects, loadFeedbacks. simpl.
  intros [s|]; simpl; [|by right; left].
  right; right. intros [d [e|]]; simpl; tauto.
Qed.

Lemma page_handleSignOut_calm : calm page_handleSignOut.
Proof. unfold page_handleSignOut, handleSignOut. handler_tac. Qed.

Lemma page_handleSubmit_calm cat title content :
  calm (page_handleSubmit cat title content).
Proof. unfold page_handleSubmit, handleSubmit. handler_tac. Qed.

Lemma page_handleSubmitComment_calm id text :
  calm (page_handleSubmitComment id text).
Proof.
  unfold page_handleSubmitComment, handleSubmitComment.
  destruct (negb _); handler_tac.
Qed.

Lemma session_listener_calm s : calm (session_listener s).
Proof. destruct s; handler_tac. Qed.

Lemma started_calm ev p ow q : started ev p = Some (ow, q) → calm q.
Proof.
  intros Hs%started_starts. destruct Hs;
    first [ apply page_handleSubmit_calm
          | apply session_listener_calm
          | apply page_handleSubmitComment_calm
          | apply page_handleSignOut_calm
          | handler_tac ].
Qed.

(** ** One effect, one segment *)

Section load.
Context {B : Type}.
Implicit Types (a : App B) (e : PageEffect) (q : Proc Call PageEffect unit).

(** The loading flag after an effect: the one the effect sets, if it is
    an effect of the mounted page instance, and the old one otherwise. *)
Lemma apply_effect_loading pg ow e a p' :
  page (apply_effect pg ow e a) = Some p' →
  ∃ p, page a = Some p ∧ pg_inst p' = pg_inst p ∧ is_navigate e = false ∧
       isLoading (pg_state p')
       = if decide (pg_inst p = pg)
         then default (isLoading (pg_state p)) (sets_loading e)
         else isLoading (pg_state p).
Proof.
  unfold apply_effect. destruct (is_navigate e) eqn:Hnav; [done|]. simpl.
  destruct (page a) as [p|] eqn:Hp; simpl; rewrite ?Hp; [|done].
  case_decide as Hpg; simpl; rewrite ?Hp.
  - destruct e as [e| |]; simpl; intros [= <-]; exists p;
      rewrite ?reconcile_inst, ?reconcile_state, ?page_apply_inst,
              ?page_apply_state, ?decide_True by done;
      split_and!; try done. by destruct e.
  - intros [= <-]. exists p. by rewrite decide_False.
Qed.

Lemma load_seg_do pg ow e k a :
  load_seg pg (Do e k) a → load_seg pg k (apply_effect pg ow e a).
Proof.
  intros [Hcalm [He Hk] Hld]. split; [by rewrite apply_effect_tasks|done|].
  intros p' Hp' Hl'. rewrite apply_effect_tasks.
  destruct (apply_effect_loading _ _ _ _ _ Hp') as (p & Hp & Hi & Hnav & Hl).
  rewrite Hi. rewrite Hl' in Hl. case_decide as Hpg.
  - destruct (sets_loading e) as [[]|] eqn:Hs; simplify_eq/=.
    destruct (Hld p Hp (eq_sym Hl)) as [?|[_ Hu]]; [by left|right].
    split; [done|]. destruct Hu as [?|[?|?]]; congruence.
  - destruct (Hld p Hp (eq_sym Hl)) as [?|[? _]]; [by left|done].
Qed.

(** A segment run to its end or to its next call leaves the
    invariant. *)
Lemma start_load_inv pg ow q a : load_seg pg q a → load_inv (start pg ow q a).
Proof.
  revert a. induction q as [x|e k IH|R c k _]; intros a Hseg.
  - destruct Hseg as [Hcalm _ Hld]. split; [done|].
    intros p Hp Hl. by destruct (Hld p Hp Hl) as [?|[_ []]].
  - rewrite start_do. by apply IH, load_seg_do.
  - destruct Hseg as [Hcalm Hk Hld]. unfold start. simpl. split; simpl.
    + apply Forall_app. split; [done|]. by repeat constructor.
    + intros p Hp Hl. apply Exists_app.
      destruct (Hld p Hp Hl) as [?|[Hpg Hu]]; [by left|right].
      by repeat constructor.
Qed.

End load.

(** ** The invariant holds in every reachable state *)

Lemma Exists_delete_or {A} (P : A → Prop) (l : list A) i x :
  l !! i = Some x → Exists P l → P x ∨ Exists P (delete i l).
Proof.
  revert i. induction l as [|y l IH]; intros [|i] Hi; simplify_eq/=.
  - by intros [?|?]%Exists_cons; [left|right].
  - intros [?|Hl]%Exists_cons; [by right; left|].
    destruct (IH i Hi Hl); [by left|by right; right].
Qed.

Lemma Exists_insert_impl {A} (P : A → Prop) (l : list A) i x y :
  l !! i = Some x → (P x → P y) → Exists P l → Exists P (<[i := y]> l).
Proof.
  revert i. induction l as [|z l IH]; intros [|i] Hi Hxy; simplify_eq/=.
  - intros [?|?]%Exists_cons; [left; auto|by right].
  - intros [?|?]%Exists_cons; [by left|right; eauto].
Qed.

Section load_step.
Context `{BackendSpec B}.
Implicit Types (a : App B).

Lemma initial_load_inv (b : B) : load_inv (initialApp b).
Proof. by split; [constructor|]. Qed.

(** The invariant does not read the subscriptions. *)
Lemma load_inv_set_subs l a : load_inv a → load_inv (set_subs l a).
Proof. by intros []. Qed.

(** An answer leaves what is left of a task as it is. *)
Lemma serve_task_rest P ε t (b : B) t' b' :
  serve_task ε t b = Some (t', b') →
  t_page t' = t_page t ∧ (task_rest P t → task_rest P t').
Proof.
  unfold serve_task, task_rest. destruct (t_pending t); [|done].
  intros [= <- _]. split; [done|]. simpl. intros Hk. apply Hk.
Qed.

Lemma resume_rest P t q : resume t = Some q → task_rest P t → P q.
Proof.
  unfold resume, task_rest. destruct (t_pending t); [done|]. by intros [= <-].
Qed.

Lemma step_load_inv ev a a' :
  sub_inv a → load_inv a → step ev a = Some a' → load_inv a'.
Proof.
  intros Hsub [Hcalm Hld] Hs.
  destruct (step_inv _ _ _ Hsub Hs)
    as [Hp|ev p ow q Hp Hh|i ε t t' b' Ht Hsv|i t q Ht Hq].
  - rewrite mount_eq. apply load_inv_set_subs, start_load_inv.
    split; [done|apply page_checkAuth_calm|].
    intros p [= <-] _. right. split; [done|apply page_checkAuth_unloads].
  - apply start_load_inv. split; [done|by eapply started_calm|].
    intros p' Hp' Hl. left. by apply Hld.
  - split; simpl.
    + apply Forall_insert; [done|].
      apply (serve_task_rest calm _ _ _ _ _ Hsv).
      by apply (Forall_lookup_1 _ _ _ _ Hcalm Ht).
    + intros p Hp Hl. eapply Exists_insert_impl; [done| |by apply Hld].
      destruct (serve_task_rest unloads _ _ _ _ _ Hsv) as [Hpg Hu].
      intros [<- ?]. split; [done|auto].
  - apply start_load_inv. split; simpl.
    + by apply Forall_delete.
    + eapply resume_rest; [done|]. by apply (Forall_lookup_1 _ _ _ _ Hcalm Ht).
    + intros p Hp Hl.
      destruct (Exists_delete_or _ _ _ _ Ht (Hld p Hp Hl)) as [[Hpg Hu]|?];
        [right|by left].
      split; [done|]. by eapply resume_rest.
Qed.

Lemma reachable_load_inv b0 a : reachable b0 a → load_inv a.
Proof.
  induction 1 as [|ev a a' Ha IH Hs _]; [apply initial_load_inv|].
  by eapply step_load_inv; [eapply reachable_sub_inv|..].
Qed.

(** With nothing in flight the page is not on the loading screen. *)
Lemma idle_loaded a p :
  load_inv a → tasks a = [] → page a = Some p →
  isLoading (pg_state p) = false.
Proof.
  intros [_ Hld] Hts Hp. destruct (isLoading (pg_state p)) eqn:Hl; [|done].
  specialize (Hld p Hp Hl). rewrite Hts in Hld. by apply Exists_nil in Hld.
Qed.

End load_step.
