(* ===== verification/AppDrain.v ===== *)
(** * AppDrain: every handler finishes

    A handler makes at most three calls, one after the other, and the
    calls it can still make are determined by the call it waits for
    ([call_rank]).  So the work in flight has a size ([load]) that every
    answer and every delivery makes smaller:

    - [ranked]: the calls of a procedure are of decreasing rank; every
      handler of the page is [ranked];
    - [backend_events_bounded]: in whatever order the backend answers
      and the answers arrive, at most [load a] such events can follow
      the state [a] without a new user event;
    - [drain]: answering and delivering the oldest task until none is
      left, the [n]-th answer under the circumstances [ρ n];
      [drain_idle]: from a reachable state it ends within
      [load a] events, with nothing in flight, no busy flag set and
      the loading screen left. *)

From S2P Require Import Prelude JsString Async Model Backend Supabase.
From S2P Require Import FeedbackCard NewFeedbackDialog Index Page App AppDemo.
From S2P Require Import AppBusy AppLoad.

(** ** Ranks *)

(** One more than the number of calls that can follow the call [c] in a
    handler of the page: the user lookup is followed by an insert and a
    reload, the session lookup and the inserts by a reload, the reload
    and the sign-out by nothing. *)
Definition call_rank {R} (c : Call R) : nat :=
  match c with
  | GetUser => 3
  | GetSession | InsertFeedback _ | InsertComment _ => 2
  | SelectFeedback | SignOut => 1
  end.

(** The calls of [p] are of rank below [n], and of decreasing rank. *)
Fixpoint ranked (n : nat) (p : Proc Call PageEffect unit) : Prop :=
  match p with
  | Ret _ => True
  | Do _ k => ranked n k
  | Await c k => call_rank c < n ∧ ∀ r, ranked (call_rank c) (k r)
  end.

Definition task_ranked (t : Task) : Prop :=
  match t_pending t with
  | Requested c k => ∀ r, ranked (call_rank c) (k r)
  | Responded c r k => ranked (call_rank c) (k r)
  end.

(** The events left for a task: an answer and a delivery per call. *)
Definition weight (t : Task) : nat :=
  match t_pending t with
  | Requested c _ => 2 * call_rank c
  | Responded c _ _ => 2 * call_rank c - 1
  end.

Definition weights (ts : list Task) : nat := sum_list_with weight ts.

(** The events left for the tasks in flight. *)
Definition load {B} (a : App B) : nat := weights (tasks a).

Definition backend_event (ev : AppEvent) : bool :=
  match ev with AServe _ _ | ADeliver _ => true | _ => false end.

(** ** Draining *)

(** The event that the oldest task waits for, with the circumstances
    [ε] if it is an answer. *)
Definition next_event {B} (ε : Env) (a : App B) : option AppEvent :=
  match tasks a with
  | [] => None
  | t :: _ =>
      Some match t_pending t with
           | Requested _ _ => AServe 0 ε
           | Responded _ _ _ => ADeliver 0
           end
  end.

Definition is_answer (ev : AppEvent) : bool :=
  match ev with AServe _ _ => true | _ => false end.

(** Answers and delivers the oldest task, at most [fuel] times, until
    nothing is in flight; the [n]-th answer meets the circumstances
    [ρ n]. *)
Fixpoint drain `{BackendSpec B} (fuel : nat) (ρ : nat → Env) (n : nat)
    (a : App B)
  : option (App B) :=
  match next_event (ρ n) a with
  | None => Some a
  | Some ev =>
      match fuel with
      | 0 => None
      | S fuel =>
          a' ← step ev a ;
          drain fuel ρ (if is_answer ev then S n else n) a'
      end
  end.

(** ** Every handler is ranked *)

Lemma call_rank_pos {R} (c : Call R) : 0 < call_rank c.
Proof. destruct c; simpl; lia. Qed.

Lemma ranked_mono n m p : n ≤ m → ranked n p → ranked m p.
Proof.
  intros Hnm. induction p as [x|e k IH|R c k _]; simpl; [done..|].
  intros [? ?]. split; [lia|done].
Qed.

Lemma page_checkAuth_ranked : ranked 4 page_checkAuth.
Proof. unfold page_checkAuth, checkAuth. handler_tac. Qed.

Lemma page_handleSignOut_ranked : ranked 4 page_handleSignOut.
Proof. unfold page_handleSignOut, handleSignOut. handler_tac. Qed.

Lemma page_handleSubmit_ranked cat title content :
  ranked 4 (page_handleSubmit cat title content).
Proof. unfold page_handleSubmit, handleSubmit. handler_tac. Qed.

Lemma page_handleSubmitComment_ranked id text :
  ranked 4 (page_handleSubmitComment id text).
Proof.
  unfold page_handleSubmitComment, handleSubmitComment.
  destruct (negb _); handler_tac.
Qed.

Lemma session_listener_ranked s : ranked 4 (session_listener s).
Proof. destruct s; handler_tac. Qed.

Lemma started_ranked ev p ow q : started ev p = Some (ow, q) → ranked 4 q.
Proof.
  intros Hs%started_starts. destruct Hs;
    first [ apply page_handleSubmit_ranked
          | apply session_listener_ranked
          | apply page_handleSubmitComment_ranked
          | apply page_handleSignOut_ranked
          | handler_tac ].
Qed.

(** ** The load of a list of tasks *)

Lemma weights_app ts1 ts2 : weights (ts1 ++ ts2) = weights ts1 + weights ts2.
Proof. apply sum_list_with_app. Qed.

Lemma weights_delete ts i t :
  ts !! i = Some t → weights (delete i ts) + weight t = weights ts.
Proof.
  unfold weights. revert i.
  induction ts as [|t0 ts IH]; intros [|i] Ht; simplify_eq/=; [lia|].
  specialize (IH i Ht). lia.
Qed.

Lemma weights_insert ts i t t' :
  ts !! i = Some t →
  weights (<[i := t']> ts) + weight t = weights ts + weight t'.
Proof.
  unfold weights. revert i.
  induction ts as [|t0 ts IH]; intros [|i] Ht; simplify_eq/=; [lia|].
  specialize (IH i Ht). lia.
Qed.

Section drain.
Context `{BackendSpec B}.
Implicit Types (a : App B) (q : Proc Call PageEffect unit).

(** The synchronous segment of a ranked procedure ends, or suspends on
    a call of lower rank with ranked continuations. *)
Lemma ranked_sync n q :
  ranked n q →
  match (sync q).2 with
  | Finished _ => True
  | Waiting c k => call_rank c < n ∧ ∀ r, ranked (call_rank c) (k r)
  end.
Proof.
  induction q as [x|e k IH|R c k _]; simpl; [done| |done].
  intros Hk. specialize (IH Hk). by destruct (sync k).
Qed.

Lemma start_ranked n pg ow q a :
  ranked n q → Forall task_ranked (tasks a) →
  Forall task_ranked (tasks (start pg ow q a)).
Proof.
  intros Hq%ranked_sync Ha. rewrite start_tasks.
  apply Forall_app. split; [done|].
  destruct (sync q).2; [constructor|]. repeat constructor. exact (proj2 Hq).
Qed.

(** Starting a procedure of rank below [n] adds less than [2 * n]. *)
Lemma start_load n pg ow q a :
  ranked n q → 0 < n → load (start pg ow q a) + 2 ≤ load a + 2 * n.
Proof.
  intros Hq%ranked_sync Hn. unfold load. rewrite start_tasks, weights_app.
  destruct (sync q).2; unfold weights at 2; simpl; [lia|].
  unfold weight. simpl. lia.
Qed.

Lemma step_ranked ev a a' :
  sub_inv a → Forall task_ranked (tasks a) → step ev a = Some a' →
  Forall task_ranked (tasks a').
Proof.
  intros Hsub Ha Hs.
  destruct (step_inv _ _ _ Hsub Hs)
    as [Hp|ev p ow q Hp Hh|i ε t t' b' Ht Hsv|i t q Ht Hq].
  - rewrite mount_tasks.
    by apply (start_ranked 4); [apply page_checkAuth_ranked|].
  - by apply (start_ranked 4); [eapply started_ranked|].
  - simpl. apply Forall_insert; [done|].
    pose proof (Forall_lookup_1 _ _ _ _ Ha Ht) as Hr.
    unfold serve_task, task_ranked in *.
    destruct (t_pending t); simplify_eq/=. apply Hr.
  - pose proof (Forall_lookup_1 _ _ _ _ Ha Ht) as Hr.
    unfold resume, task_ranked in *.
    destruct (t_pending t) as [|R c r k] eqn:Hpend; simplify_eq/=.
    apply (start_ranked (call_rank c)); [done|]. simpl.
    by apply Forall_delete.
Qed.

(** An answer or a delivery makes the load smaller. *)
Lemma step_load ev a a' :
  sub_inv a → Forall task_ranked (tasks a) → backend_event ev = true →
  step ev a = Some a' → load a' < load a.
Proof.
  intros Hsub Ha Hev Hs.
  destruct (step_inv _ _ _ Hsub Hs)
    as [Hp|ev p ow q Hp Hh|i ε t t' b' Ht Hsv|i t q Ht Hq]; [done| | |].
  - by destruct ev.
  - unfold load. simpl.
    pose proof (weights_insert _ _ _ t' Ht) as Hw.
    unfold serve_task in Hsv. unfold weight in Hw.
    destruct (t_pending t) as [R c k|]; simplify_eq/=.
    pose proof (call_rank_pos c). lia.
  - pose proof (Forall_lookup_1 _ _ _ _ Ha Ht) as Hr.
    pose proof (weights_delete _ _ _ Ht) as Hw.
    unfold resume, task_ranked in *. unfold weight at 1 in Hw.
    destruct (t_pending t) as [|R c r k] eqn:Hpend; simplify_eq/=.
    pose proof (call_rank_pos c).
    pose proof (start_load _ (t_page t) (t_owner t) _
                  (set_tasks (delete i (tasks a)) a) Hr) as Hl.
    unfold load in *. simpl in Hl. lia.
Qed.

Lemma reachable_ranked b0 a : reachable b0 a → Forall task_ranked (tasks a).
Proof.
  induction 1 as [|ev a a' Ha IH Hs _]; [constructor|].
  by eapply step_ranked; [eapply reachable_sub_inv|..].
Qed.

Lemma steps_load evs a a' :
  sub_inv a → Forall task_ranked (tasks a) →
  Forall (λ ev, backend_event ev = true) evs →
  steps evs a = Some a' →
  length evs + load a' ≤ load a.
Proof.
  revert a. induction evs as [|ev evs IH]; intros a Hsub Ha Hevs Hs;
    simplify_eq/=; [done|].
  apply Forall_cons in Hevs as [Hev Hevs].
  destruct (step ev a) as [a1|] eqn:Hs1; simplify_eq/=.
  pose proof (step_load _ _ _ Hsub Ha Hev Hs1).
  pose proof (IH a1 (step_sub_inv _ _ _ Hsub Hs1)
                (step_ranked _ _ _ Hsub Ha Hs1) Hevs Hs). lia.
Qed.

(** The event that the oldest task waits for is a step. *)
Lemma next_event_step ε a ev :
  next_event ε a = Some ev →
  backend_event ev = true ∧ is_Some (step ev a).
Proof.
  unfold next_event. destruct (tasks a) as [|t ts] eqn:Hts; [done|].
  intros [= <-]. destruct (t_pending t) as [R c k|R c r k] eqn:Hpend; simpl;
    rewrite Hts; simpl; unfold serve_task, resume; rewrite Hpend; simpl;
    by split.
Qed.

(** Draining with enough fuel ends with nothing in flight, and keeps
    every invariant of the steps. *)
Lemma drain_spec (P : App B → Prop) fuel ρ n a :
  (∀ ev a a', sub_inv a → P a → step ev a = Some a' → P a') →
  sub_inv a → Forall task_ranked (tasks a) → P a → load a ≤ fuel →
  ∃ a', drain fuel ρ n a = Some a' ∧ tasks a' = [] ∧ P a'.
Proof.
  intros HP. revert n a.
  induction fuel as [|fuel IH]; intros n a Hsub Hr Hinv Hl; simpl;
    (destruct (next_event _ a) as [ev|] eqn:Hev;
      [|exists a; unfold next_event in Hev;
        by destruct (tasks a) as [|t ts]]);
    destruct (next_event_step _ _ _ Hev) as [Hb [a1 Hs]];
    pose proof (step_load _ _ _ Hsub Hr Hb Hs); [lia|].
  rewrite Hs. simpl.
  apply IH; [by eapply step_sub_inv|by eapply step_ranked|by eapply HP|lia].
Qed.

(** C17. Answers and deliveries run out.  From a reachable state, in
    whatever order the backend answers the requests in flight and the
    answers are delivered, the number of such events that can follow
    one another without a new user event is bounded by the load of the
    state, which every one of them makes smaller: every handler makes
    finitely many calls and finishes. *)
Theorem backend_events_bounded b0 a evs a' :
  reachable b0 a →
  Forall (λ ev, backend_event ev = true) evs →
  steps evs a = Some a' →
  length evs + load a' ≤ load a.
Proof.
  intros Ha. by apply steps_load;
    [eapply reachable_sub_inv|eapply reachable_ranked].
Qed.

(** C16. Every busy flag is reset and the loading screen ends.  From a
    reachable state, answering and delivering the oldest task in
    flight, under whatever circumstances, ends within [load a] events;
    then nothing is in flight, no component on the screen has its busy
    flag set, so every button that a writer disabled is enabled again,
    and the page, if one is mounted, has left the loading screen. *)
Theorem drain_idle b0 a ρ n fuel :
  reachable b0 a → load a ≤ fuel →
  ∃ a', drain fuel ρ n a = Some a' ∧ tasks a' = [] ∧
        ∀ p, page a' = Some p →
             isLoading (pg_state p) = false ∧
             ∀ ow, busy_at ow p ≠ Some true.
Proof.
  intros Ha Hl.
  destruct (drain_spec (λ a, busy_inv a ∧ load_inv a) fuel ρ n a)
    as (a' & Hd & Ht & Hinv & Hld);
    [|by eapply reachable_sub_inv|by apply (reachable_ranked b0)| |done|].
  { intros ev a1 a2 ? [? ?] Hs.
    split; [by eapply step_busy_inv|by eapply step_load_inv]. }
  { split; [by eapply reachable_busy_inv|by eapply reachable_load_inv]. }
  exists a'. split_and!; [done..|]. intros p Hp.
  split; [by eapply idle_loaded|]. intros ow Hb.
  destruct (inv_idle None a' Hinv _ _ Hp Hb) as [Hw|?]; [|done].
  rewrite Ht in Hw. by apply elem_of_nil in Hw.
Qed.

End drain.

(** ** The theorems at concrete states *)

(** The six events that follow a submission: three answers, three
    deliveries. *)
Lemma backend_events_bounded_witness :
  6 + load (after publish_run demo_backend)
  ≤ load (after submit_run demo_backend).
Proof.
  refine (backend_events_bounded demo_backend
            (after submit_run demo_backend)
            [AServe 0 (demo_env 3); ADeliver 0; AServe 0 (demo_env 4);
             ADeliver 0; AServe 0 (demo_env 5); ADeliver 0]
            (after publish_run demo_backend)
            (reachable_after _ _ submit_run_ok) _ _).
  - by repeat constructor.
  - vm_compute. reflexivity.
Defined.

Lemma drain_idle_witness :
  ∃ a', drain 6 demo_env 3 (after submit_run demo_backend) = Some a' ∧
        tasks a' = [] ∧
        ∀ p, page a' = Some p →
             isLoading (pg_state p) = false ∧
             ∀ ow, busy_at ow p ≠ Some true.
Proof.
  refine (drain_idle demo_backend (after submit_run demo_backend)
            demo_env 3 6 (reachable_after _ _ submit_run_ok) _).
  vm_compute. lia.
Defined.
