(* ===== verification/AppSeq.v ===== *)
(** * AppSeq: one handler at a time

    When nothing else is in flight and every answer is delivered as soon
    as it is given, the running application does what the sequential
    reading of a handler says: the runs of [Page] are the runs of [App]
    under that schedule.

    - [alone]: the application after a handler has run to its end by
      the sequential semantics: the effects of its run applied in order,
      the backend as its calls left it;
    - [drain_alone]: starting the handler and draining gives [alone];
    - [alone_state]: the state of the page afterwards is the one
      [index_after] computes, unless the run navigates away;
    - [alone_reload]: a handler whose only effect on the state of the
      page is to set the feed leaves the page with that feed;
    - [publish_round_trip]: what the user typed in the form is what the
      first card of the page shows once the submission, the insert and
      the reload have been answered;
    - [comment_trace], [send_is_step], [comment_alone]: the same
      ingredients for a comment sent from a card. *)

From S2P Require Import Prelude JsString Async Model Backend Supabase.
From S2P Require Import FeedbackCard NewFeedbackDialog Index Page App AppDemo.
From S2P Require Import AppFeed AppBusy AppShape AppDrain.

Section alone.
Context `{BackendSpec B} (ρ : nat → Env).
Implicit Types (a : App B) (q : Proc Call PageEffect unit) (n : nat).

(** The application after [q] has run alone, its first call being the
    [n]-th. *)
Definition alone (n pg : nat) (ow : Owner) q a : App B :=
  set_backend (run_backend ρ q n (backend a))
    (apply_effects pg ow (effects (run_trace ρ q n (backend a))) a).

Lemma set_backend_same a : set_backend (backend a) a = a.
Proof. by destruct a. Qed.

Lemma set_tasks_same a : set_tasks (tasks a) a = a.
Proof. by destruct a. Qed.

Lemma set_backend_twice (b b' : B) a :
  set_backend b (set_backend b' a) = set_backend b a.
Proof. done. Qed.

(** The effects of a handler do not read the backend. *)
Lemma apply_effect_set_backend pg ow e (b : B) a :
  apply_effect pg ow e (set_backend b a)
  = set_backend b (apply_effect pg ow e a).
Proof.
  unfold apply_effect. simpl. destruct (is_navigate e); [done|].
  destruct (page a) as [p|]; [|done]. case_decide; [|done]. by destruct e.
Qed.

Lemma apply_effects_set_backend pg ow es (b : B) a :
  apply_effects pg ow es (set_backend b a)
  = set_backend b (apply_effects pg ow es a).
Proof.
  revert a. induction es as [|e es IH]; intros a; simpl; [done|].
  by rewrite apply_effect_set_backend, IH.
Qed.

Lemma alone_do n pg ow e q a :
  alone n pg ow (Do e q) a = alone n pg ow q (apply_effect pg ow e a).
Proof.
  unfold alone. by rewrite run_backend_do, run_trace_do, apply_effect_backend.
Qed.

Lemma alone_await {R} n pg ow (c : Call R) k a :
  alone n pg ow (Await c k) a
  = alone (S n) pg ow (k (serve c (ρ n) (backend a)).1)
      (set_backend (serve c (ρ n) (backend a)).2 a).
Proof.
  unfold alone. rewrite run_backend_await, run_trace_await. simpl.
  by rewrite apply_effects_set_backend, set_backend_twice.
Qed.

Lemma calls_do e (t : list (Event Call PageEffect)) :
  calls (EvDo e :: t) = calls t.
Proof. done. Qed.

Lemma calls_call {R} (c : Call R) r (t : list (Event Call PageEffect)) :
  calls (EvCall c r :: t) = S (calls t).
Proof. done. Qed.

(** Run alone, the handler is done after an answer and a delivery per
    call, and the application is the one of the sequential run. *)
Lemma drain_alone fuel n pg ow q a :
  tasks a = [] →
  2 * calls (run_trace ρ q n (backend a)) ≤ fuel →
  drain fuel ρ n (start pg ow q a) = Some (alone n pg ow q a).
Proof.
  revert fuel n a. induction q as [x|e k IH|R c k IH]; intros fuel n a Ha.
  - intros _. unfold alone. rewrite run_backend_ret, run_trace_ret.
    unfold start. simpl. rewrite set_backend_same.
    destruct fuel; simpl; unfold next_event; by rewrite Ha.
  - rewrite start_do, alone_do, run_trace_do, calls_do.
    rewrite <-(apply_effect_backend pg ow e a).
    apply IH. by rewrite apply_effect_tasks.
  - rewrite run_trace_await, calls_call, alone_await.
    destruct fuel as [|[|fuel]]; [lia..|]. intros Hf.
    unfold start. simpl. unfold next_event. rewrite Ha. simpl.
    rewrite <-(IH _ fuel (S n) (set_backend (serve c (ρ n) (backend a)).2 a));
      [|done|simpl; lia].
    f_equal. destruct a. simpl in *. by subst.
Qed.

End alone.

(** ** What the effects of a run leave on the page *)

Section effects.
Context {B : Type}.
Implicit Types (a : App B) (es : list PageEffect).



(** The state of the page after the effects of a handler of its own
    that does not navigate away. *)
Lemma apply_effects_state pg ow es a p :
  page a = Some p → pg_inst p = pg →
  Forall (λ e, is_navigate e = false) es →
  ∃ p', page (apply_effects pg ow es a) = Some p' ∧ pg_inst p' = pg ∧
        pg_state p'
        = apply_all index_apply (omap index_part es) (pg_state p).
Proof.
  revert a p. induction es as [|e es IH]; intros a p Hp Hpg Hes; simpl;
    [by exists p|].
  apply Forall_cons in Hes as [He Hes].
  assert (∃ p1, page (apply_effect pg ow e a) = Some p1 ∧ pg_inst p1 = pg ∧
                pg_state p1
                = apply_all index_apply (option_list (index_part e))
                    (pg_state p)) as (p1 & Hp1 & Hpg1 & Hst).
  { unfold apply_effect. rewrite He. simpl. rewrite Hp, decide_True by done.
    destruct e as [e| |]; simpl; eexists; (split; [done|]);
      by rewrite ?reconcile_inst, ?reconcile_state, ?page_apply_inst,
                 ?page_apply_state. }
  destruct (IH _ _ Hp1 Hpg1 Hes) as (p' & Hp' & Hpg' & Hst').
  exists p'. split_and!; [done..|]. rewrite Hst', Hst.
  by destruct (index_part e).
Qed.

End effects.

(** ** The sequential schedule *)

Section schedule.
Context `{BackendSpec B} (ρ : nat → Env).
Implicit Types (a : App B) (q : Proc Call PageEffect unit).

(** A handler that runs alone, does not navigate and, as its only
    effect on the state of the page, sets the feed to [l]: nothing is
    left in flight and the page shows [l]. *)
Lemma alone_reload n ow q a p l :
  page a = Some p →
  Forall (λ e, is_navigate e = false) (effects (run_trace ρ q n (backend a))) →
  omap index_part (effects (run_trace ρ q n (backend a))) = [setFeedbacks l] →
  tasks (alone ρ n (pg_inst p) ow q a) = tasks a ∧
  ∃ p', page (alone ρ n (pg_inst p) ow q a) = Some p' ∧
        pg_state p' = index_apply (setFeedbacks l) (pg_state p).
Proof.
  intros Hp Hnav Hfeed.
  split; [unfold alone; simpl; by rewrite apply_effects_tasks|].
  destruct (apply_effects_state (pg_inst p) ow _ a p Hp eq_refl Hnav)
    as (p' & Hp' & _ & Hst).
  exists p'. split; [done|]. by rewrite Hst, Hfeed.
Qed.


End schedule.

(** ** Publishing, end to end *)

Section publish.
Context `{BackendSpec B} (ρ : nat → Env).
Implicit Types (a : App B) (b : B).

(** The run of a submission whose three calls go through. *)
Lemma publish_trace n b s cat title content :
  session_of b = Some s →
  env_ok (ρ n) = true → env_ok (ρ (S n)) = true →
  env_ok (ρ (S (S n))) = true →
  let row := feedback_row (session_user s) cat title content in
  let b' := (serve (InsertFeedback row) (ρ (S n)) b).2 in
  run_trace ρ (page_handleSubmit cat title content) n b
  = [EvDo (on_dialog preventDefault);
     EvDo (on_dialog (setIsSubmitting true));
     EvCall GetUser (Some (session_user s));
     EvCall (InsertFeedback row) None;
     EvDo (on_dialog (NewFeedbackDialog.toast_success
                        "Feedback publicado com sucesso!"));
     EvDo (on_dialog (setOpen false));
     EvDo (on_dialog onFeedbackAdded);
     EvDo (on_dialog (setCategory []));
     EvDo (on_dialog (setIsSubmitting false));
     EvCall SelectFeedback (rows_response (feed_of b'));
     EvDo (on_index (setFeedbacks (feed_of b')))] ∧
  run_backend ρ (page_handleSubmit cat title content) n b = b'.
Proof.
  intros Hs H0 H1 H2.
  unfold page_handleSubmit, handleSubmit. simpl.
  run_steps. rewrite H0, Hs. simpl. run_steps.
  assert (Hok := serve_insert_feedback_ok (ρ (S n))
                   (feedback_row (session_user s) cat title content) b H1
                   ltac:(by rewrite Hs)).
  unfold feedback_row in Hok. rewrite Hok. simpl. run_steps.
  by rewrite H2.
Qed.

(** The guards of the submit button, on a page with nothing in
    flight. *)
Lemma submit_is_step b0 a p d title content :
  reachable b0 a → tasks a = [] → page a = Some p → pg_header p = Some d →
  open d.2 = true → formValid (category d.2) title content = true →
  step (ADialogSubmit HeaderDialog title content) a
  = Some (start (pg_inst p) (SDialog HeaderDialog, d.1)
            (page_handleSubmit (category d.2) title content) a).
Proof.
  intros Hinv%reachable_busy_inv Hts Hp Hd Hopen Hvalid.
  assert (NewFeedbackDialog.isSubmitting d.2 = false) as Hidle.
  { destruct (NewFeedbackDialog.isSubmitting d.2) eqn:Hb; [|done].
    destruct (inv_idle None _ Hinv (SDialog HeaderDialog, d.1) p Hp)
      as [Hw|?]; [|by rewrite Hts in Hw; apply elem_of_nil in Hw|done].
    unfold busy_at. simpl. by rewrite Hd; simpl; rewrite decide_True, Hb. }
  simpl. rewrite Hp. simpl. rewrite Hd. simpl.
  unfold submitDisabled. by rewrite Hopen, Hvalid, Hidle.
Qed.

(** The page after a submission that ran alone and went through: the
    state it had, with the feed of the backend after the insert. *)
Lemma publish_alone n a p ow s cat title content :
  page a = Some p → session_of (backend a) = Some s →
  env_ok (ρ n) = true → env_ok (ρ (S n)) = true →
  env_ok (ρ (S (S n))) = true →
  let q := page_handleSubmit cat title content in
  let row := feedback_row (session_user s) cat title content in
  2 * calls (run_trace ρ q n (backend a)) ≤ 6 ∧
  tasks (alone ρ n (pg_inst p) ow q a) = tasks a ∧
  ∃ p', page (alone ρ n (pg_inst p) ow q a) = Some p' ∧
        pg_state p'
        = index_apply
            (setFeedbacks
               (feed_of (serve (InsertFeedback row) (ρ (S n)) (backend a)).2))
            (pg_state p).
Proof.
  intros Hp Hs H0 H1 H2 q row.
  destruct (publish_trace n (backend a) s cat title content Hs H0 H1 H2)
    as [Htr Hbk].
  fold q in Htr. split; [rewrite Htr; unfold calls; simpl; lia|].
  apply alone_reload; [done|..]; rewrite Htr; [by repeat constructor|done].
Qed.

(** C21. What is typed is what is shown.  From a reachable state with
    nothing in flight and a session, when the user submits the open
    dialog of the header with a valid form and the three calls go
    through, each answer delivered as it comes, the application ends
    with nothing in flight and the page shows, first, a card whose
    title, content and category are the ones submitted, with the
    author's profile, the time and the identifier of the insert and no
    comment; below it, the cards of the feed the backend held. *)
Theorem publish_round_trip b0 a p d s title content n :
  wf b0 → reachable b0 a →
  tasks a = [] → page a = Some p → pg_header p = Some d →
  open d.2 = true → formValid (category d.2) title content = true →
  session_of (backend a) = Some s →
  env_ok (ρ n) = true → env_ok (ρ (S n)) = true →
  env_ok (ρ (S (S n))) = true →
  admissible (ρ (S n)) (backend a) → strictly_later (ρ (S n)) (backend a) →
  let a' := alone ρ n (pg_inst p) (SDialog HeaderDialog, d.1)
              (page_handleSubmit (category d.2) title content) a in
  ∃ a1 p' rest,
    step (ADialogSubmit HeaderDialog title content) a = Some a1 ∧
    drain 6 ρ n a1 = Some a' ∧
    tasks a' = [] ∧ page a' = Some p' ∧
    Index_body (pg_state p')
    = BodyFeed
        ((env_id (ρ (S n)),
          {| p_id := env_id (ρ (S n)); p_title := title;
             p_content := content; p_category := category d.2;
             p_author := profile_of (backend a) (uid (session_user s));
             p_created_at := env_now (ρ (S n)); p_comments := [] |})
         :: ((λ f, (fb_id f, cardProps f)) <$> rest)) ∧
    rest ≡ₚ feed_of (backend a).
Proof.
  intros Hb0 Ha Hts Hp Hd Hopen Hvalid Hs H0 H1 H2 Hadm Hlater a'.
  pose proof (reachable_app_wf _ _ Hb0 Ha) as Hwf.
  assert (isLoading (pg_state p) = false) as Hload.
  { destruct (screen_ok_children _ (wf_screen _ (wf_page _ Hwf _ Hp)))
      as (Hh & _ & _).
    apply Hh. by eexists. }
  assert (Hok := serve_insert_feedback_ok (ρ (S n))
                   (feedback_row (session_user s) (category d.2) title content)
                   (backend a) H1 ltac:(by rewrite Hs)).
  destruct (feed_after_post _ _ _ (wf_backend _ Hwf) Hadm Hlater Hok)
    as (rest & Hfeed & Hperm).
  destruct (publish_alone n a p (SDialog HeaderDialog, d.1) s (category d.2)
              title content Hp Hs H0 H1 H2) as (Hcalls & Htasks & p' & Hp' & Hst).
  subst a'. eexists _, p', rest.
  split_and!; [by eapply submit_is_step| | |done| |done].
  - by apply drain_alone.
  - by rewrite Htasks.
  - rewrite Hst, Hfeed. unfold Index_body. simpl. by rewrite Hload.
Qed.

End publish.

(** ** Commenting, end to end *)

Section comment.
Context `{BackendSpec B} (ρ : nat → Env).
Implicit Types (a : App B) (b : B).

(** The run of a comment whose three calls go through. *)
Lemma comment_trace n b s id text :
  session_of b = Some s → ¬ blank text → id ∈ fb_id <$> feed_of b →
  env_ok (ρ n) = true → env_ok (ρ (S n)) = true →
  env_ok (ρ (S (S n))) = true →
  let row := comment_row id (session_user s) text in
  let b' := (serve (InsertComment row) (ρ (S n)) b).2 in
  run_trace ρ (page_handleSubmitComment id text) n b
  = [EvDo (on_card id (FeedbackCard.setIsSubmitting true));
     EvCall GetUser (Some (session_user s));
     EvCall (InsertComment row) None;
     EvDo (on_card id (FeedbackCard.toast_success "Comentário enviado!"));
     EvDo (on_card id (setNewComment []));
     EvDo (on_card id onCommentAdded);
     EvDo (on_card id (FeedbackCard.setIsSubmitting false));
     EvCall SelectFeedback (rows_response (feed_of b'));
     EvDo (on_index (setFeedbacks (feed_of b')))] ∧
  run_backend ρ (page_handleSubmitComment id text) n b = b'.
Proof.
  intros Hs Htext Hid H0 H1 H2.
  unfold page_handleSubmitComment, handleSubmitComment.
  rewrite not_truthy_trim, bool_decide_eq_false_2 by done. simpl.
  run_steps. rewrite H0, Hs. simpl. run_steps.
  assert (Hok := serve_insert_comment_ok (ρ (S n))
                   (comment_row id (session_user s) text) b H1
                   ltac:(by rewrite Hs) Hid).
  unfold comment_row in Hok. rewrite Hok. simpl. run_steps.
  by rewrite H2.
Qed.

(** The guards of the send button, on a page with nothing in flight. *)
Lemma send_is_step b0 a p id c :
  reachable b0 a → tasks a = [] → page a = Some p →
  pg_cards p !! id = Some c → showComments c.2 = true →
  ¬ blank (newComment c.2) →
  step (ACardSend id) a
  = Some (start (pg_inst p) (SCard id, c.1)
            (page_handleSubmitComment id (newComment c.2)) a).
Proof.
  intros Hinv%reachable_busy_inv Hts Hp Hc Hopen Htext.
  assert (FeedbackCard.isSubmitting c.2 = false) as Hidle.
  { destruct (FeedbackCard.isSubmitting c.2) eqn:Hb; [|done].
    destruct (inv_idle None _ Hinv (SCard id, c.1) p Hp)
      as [Hw|?]; [|by rewrite Hts in Hw; apply elem_of_nil in Hw|done].
    by rewrite (busy_at_card _ _ _ Hc), Hb. }
  assert (started (ACardSend id) p
          = Some ((SCard id, c.1),
                  page_handleSubmitComment id (newComment c.2))) as Hst
    by (by apply starts_started, starts_send).
  simpl in *. rewrite Hp. simpl. by rewrite Hst.
Qed.

(** The page after a comment that ran alone and went through: the
    state it had, with the feed of the backend after the insert. *)
Lemma comment_alone n a p ow s id text :
  page a = Some p → session_of (backend a) = Some s →
  ¬ blank text → id ∈ fb_id <$> feed_of (backend a) →
  env_ok (ρ n) = true → env_ok (ρ (S n)) = true →
  env_ok (ρ (S (S n))) = true →
  let q := page_handleSubmitComment id text in
  let row := comment_row id (session_user s) text in
  2 * calls (run_trace ρ q n (backend a)) ≤ 6 ∧
  backend (alone ρ n (pg_inst p) ow q a)
  = (serve (InsertComment row) (ρ (S n)) (backend a)).2 ∧
  tasks (alone ρ n (pg_inst p) ow q a) = tasks a ∧
  ∃ p', page (alone ρ n (pg_inst p) ow q a) = Some p' ∧
        pg_state p'
        = index_apply
            (setFeedbacks
               (feed_of (serve (InsertComment row) (ρ (S n)) (backend a)).2))
            (pg_state p).
Proof.
  intros Hp Hs Htext Hid H0 H1 H2 q row.
  destruct (comment_trace n (backend a) s id text Hs Htext Hid H0 H1 H2)
    as [Htr Hbk].
  fold q in Htr, Hbk. split; [rewrite Htr; unfold calls; simpl; lia|].
  split; [done|].
  apply alone_reload; [done|..]; rewrite Htr; [by repeat constructor|done].
Qed.

End comment.

(** ** The theorem at a concrete state *)

Lemma publish_round_trip_witness :
  ∃ a1 a' p' rest,
    step (ADialogSubmit HeaderDialog (js "Festa") (js "Foi boa"))
      (after compose_run demo_backend) = Some a1 ∧
    drain 6 demo_env 3 a1 = Some a' ∧
    tasks a' = [] ∧ page a' = Some p' ∧
    Index_body (pg_state p')
    = BodyFeed
        ((104%N,
          {| p_id := 104%N; p_title := js "Festa";
             p_content := js "Foi boa"; p_category := js "geral";
             p_author := demo_profiles 7%N;
             p_created_at := 5%N; p_comments := [] |})
         :: ((λ f, (fb_id f, cardProps f)) <$> rest)) ∧
    rest ≡ₚ [].
Proof.
  set (d := (3, {| open := true; NewFeedbackDialog.isSubmitting := false;
                   category := js "geral" |}) : Inst DialogState).
  assert (∃ p, page (after compose_run demo_backend) = Some p ∧
               pg_header p = Some d) as (p & Hp & Hd)
    by (eexists; split; vm_compute; reflexivity).
  destruct (publish_round_trip demo_env demo_backend
              (after compose_run demo_backend) p d demo_session
              (js "Festa") (js "Foi boa") 3
              demo_backend_wf (reachable_after _ _ compose_run_ok))
    as (a1 & p' & rest & Hs & Hdr & Ht & Hp' & Hb & Hperm);
    [vm_compute; reflexivity|exact Hp|exact Hd|reflexivity
    |vm_compute; reflexivity..| | |].
  - apply demo_backend_admissible.
  - vm_compute. reflexivity.
  - vm_compute in Hperm. eexists a1, _, p', rest.
    split; [exact Hs|]. split; [exact Hdr|]. split; [exact Ht|].
    split; [exact Hp'|]. split; [exact Hb|exact Hperm].
Defined.

