(* ===== verification/AppSnap.v ===== *)
(** * AppSnap: what is shown was stored

    The page never holds the database: it holds the rows of the last
    answer that reached its loader (Index.tsx lines 65-95), which may be
    older than what the backend stores now.  Nothing is ever deleted or
    edited (the client has no such call), so the feed on the page is
    always a snapshot of the feed of the backend:

    - [extends f g]: the entry [g] is [f] with, possibly, more comments
      at the end;
    - [snapshot_of shown stored]: every entry shown has an entry stored
      that extends it; a preorder, which does not see the order of the
      entries;
    - [serve_snapshot]: every call leaves a backend whose feed the old
      feed is a snapshot of;
    - [shown_is_stored]: in every reachable state the feed on the page
      is a snapshot of the feed of the backend;
    - [comment_target_stored]: so the feedback that a comment in flight
      is for exists when the insert is answered, and the insert is
      refused only for the reasons a handler can see: the call fails or
      there is no session;
    - [comment_round_trip]: and a comment sent from a card on the
      screen, when its calls go through, leaves the page with exactly
      the feed of the backend, however stale the page was. *)

From S2P Require Import Prelude JsString Async Model Backend Supabase.
From S2P Require Import FeedbackCard NewFeedbackDialog Index Page App AppDemo.
From S2P Require Import AppFeed AppBusy AppShape AppDrain AppSeq.

(** ** Snapshots *)

Definition extends (f g : Feedback) : Prop :=
  fb_id g = fb_id f ∧ fb_title g = fb_title f ∧
  fb_content g = fb_content f ∧ fb_category g = fb_category f ∧
  fb_created_at g = fb_created_at f ∧ fb_profiles g = fb_profiles f ∧
  fb_comments f `prefix_of` fb_comments g.

Definition snapshot_of (shown stored : list Feedback) : Prop :=
  Forall (λ f, Exists (extends f) stored) shown.

#[export] Instance extends_dec : RelDecision extends.
Proof. intros f g. unfold extends. apply _. Defined.

#[export] Instance snapshot_of_dec : RelDecision snapshot_of.
Proof. intros l k. unfold snapshot_of. apply _. Defined.

#[export] Instance extends_preorder : PreOrder extends.
Proof.
  split.
  - intros f. by repeat split.
  - intros f g h (?&?&?&?&?&?&?) (?&?&?&?&?&?&?).
    repeat split; try congruence. by etrans.
Qed.

Lemma snapshot_of_spec shown stored :
  snapshot_of shown stored ↔ ∀ f, f ∈ shown → ∃ g, g ∈ stored ∧ extends f g.
Proof.
  unfold snapshot_of. rewrite Forall_forall.
  by setoid_rewrite Exists_exists.
Qed.

#[export] Instance snapshot_of_preorder : PreOrder snapshot_of.
Proof.
  split.
  - intros l. apply snapshot_of_spec. intros f Hf. by exists f.
  - intros l1 l2 l3. rewrite !snapshot_of_spec. intros H12 H23 f Hf.
    destruct (H12 f Hf) as (g & Hg & Hfg).
    destruct (H23 g Hg) as (h & Hh & Hgh).
    exists h. split; [done|by etrans].
Qed.

(** A snapshot does not see the order of the entries. *)
#[export] Instance snapshot_of_proper :
  Proper ((≡ₚ) ==> (≡ₚ) ==> iff) snapshot_of.
Proof.
  intros l1 l2 Hl k1 k2 Hk. rewrite !snapshot_of_spec.
  by setoid_rewrite Hl; setoid_rewrite Hk.
Qed.

Lemma snapshot_of_nil stored : snapshot_of [] stored.
Proof. constructor. Qed.

Lemma snapshot_of_cons f stored : snapshot_of stored (f :: stored).
Proof.
  apply snapshot_of_spec. intros g Hg. exists g. by split; [right|].
Qed.

Lemma extends_with_comment fid c f : extends f (with_comment fid c f).
Proof.
  unfold with_comment. case_decide; [|done].
  repeat split; simpl; try done. by apply prefix_app_r.
Qed.

Lemma snapshot_of_with_comment fid c stored :
  snapshot_of stored (with_comment fid c <$> stored).
Proof.
  apply snapshot_of_spec. intros f Hf. exists (with_comment fid c f).
  split; [by apply list_elem_of_fmap_2|apply extends_with_comment].
Qed.

(** The identifiers of a snapshot are identifiers of what is stored. *)
Lemma snapshot_of_ids shown stored id :
  snapshot_of shown stored → id ∈ fb_id <$> shown → id ∈ fb_id <$> stored.
Proof.
  rewrite snapshot_of_spec. intros Hs (f & -> & Hf)%list_elem_of_fmap.
  destruct (Hs f Hf) as (g & Hg & <- & _). by apply list_elem_of_fmap_2.
Qed.

(** ** Comments in flight *)

(** The feedback that a call comments on. *)
Definition comment_target {R} (c : Call R) : option Id :=
  match c with
  | InsertComment row => Some (ci_feedback_id row)
  | _ => None
  end.

(** Every comment that [q] inserts is for a feedback of [ids]. *)
Fixpoint comments_on (ids : Id → Prop) (q : Proc Call PageEffect unit)
  : Prop :=
  match q with
  | Ret _ => True
  | Do _ k => comments_on ids k
  | Await c k =>
      (∀ id, comment_target c = Some id → ids id) ∧
      ∀ r, comments_on ids (k r)
  end.

Definition task_comments_on (ids : Id → Prop) (t : Task) : Prop :=
  match t_pending t with
  | Requested c k | Responded c _ k =>
      (∀ id, comment_target c = Some id → ids id) ∧
      ∀ r, comments_on ids (k r)
  end.

Lemma comments_on_mono (ids ids' : Id → Prop) q :
  (∀ id, ids id → ids' id) → comments_on ids q → comments_on ids' q.
Proof.
  intros Hids. induction q as [x|e k IH|R c k IH]; simpl; [done|done|].
  intros [Hc Hk]. split; [by auto|]. intros r. by apply IH.
Qed.

Lemma task_comments_on_mono (ids ids' : Id → Prop) t :
  (∀ id, ids id → ids' id) → task_comments_on ids t → task_comments_on ids' t.
Proof.
  unfold task_comments_on. intros Hids.
  destruct (t_pending t); (intros [Hc Hk]; split; [by auto|]);
    intros r'; by eapply comments_on_mono.
Qed.

Lemma page_checkAuth_comments ids : comments_on ids page_checkAuth.
Proof. unfold page_checkAuth, checkAuth. handler_tac. Qed.

Lemma page_handleSignOut_comments ids : comments_on ids page_handleSignOut.
Proof. unfold page_handleSignOut, handleSignOut. handler_tac. Qed.

Lemma page_handleSubmit_comments ids cat title content :
  comments_on ids (page_handleSubmit cat title content).
Proof. unfold page_handleSubmit, handleSubmit. handler_tac. Qed.

Lemma session_listener_comments ids s : comments_on ids (session_listener s).
Proof. destruct s; handler_tac. Qed.

(** The commenter of a card comments on the feedback of the card. *)
Lemma page_handleSubmitComment_comments (ids : Id → Prop) id text :
  ids id → comments_on ids (page_handleSubmitComment id text).
Proof.
  intros Hid. unfold page_handleSubmitComment, handleSubmitComment.
  destruct (negb _); handler_tac; by simplify_eq.
Qed.

(** A handler that the screen lets start comments on the feedback of a
    card on the screen, if it comments at all. *)
Lemma started_comments ev p ow q :
  started ev p = Some (ow, q) →
  comments_on (λ id, is_Some (pg_cards p !! id)) q.
Proof.
  intros Hs%started_starts. destruct Hs;
    first [ apply page_handleSubmit_comments
          | apply page_handleSignOut_comments
          | apply session_listener_comments
          | by apply page_handleSubmitComment_comments
          | handler_tac ].
Qed.

(** ** The backend only grows *)

Section snap.
Context `{BackendSpec B}.
Implicit Types (a : App B) (b : B) (q : Proc Call PageEffect unit).

(** Whatever the call, what was stored before it is a snapshot of what
    is stored after it. *)
Lemma serve_snapshot {R} (c : Call R) ε b :
  wf b → admissible ε b →
  snapshot_of (feed_of b) (feed_of (serve c ε b).2).
Proof.
  intros Hwf Hadm. destruct c as [| | | |row|row].
  - by rewrite serve_getSession.
  - by rewrite serve_getUser.
  - by rewrite serve_signOut_feed.
  - by rewrite serve_select.
  - destruct (serve (InsertFeedback row) ε b).1 as [e|] eqn:Hr.
    + by rewrite (serve_insert_feedback_refused _ _ _ _ Hr).
    + destruct (serve_insert_feedback_accepted _ _ _ Hwf Hadm Hr)
        as (_ & _ & ->). apply snapshot_of_cons.
  - destruct (serve (InsertComment row) ε b).1 as [e|] eqn:Hr.
    + by rewrite (serve_insert_comment_refused _ _ _ _ Hr).
    + destruct (serve_insert_comment_accepted _ _ _ Hr) as (_ & ->).
      apply snapshot_of_with_comment.
Qed.

(** The rows of an answer are what the backend stores when it answers. *)
Lemma serve_rows {R} (c : Call R) ε b l :
  ok_rows c (serve c ε b).1 = Some l →
  l = feed_of b ∧ (serve c ε b).2 = b.
Proof.
  destruct c; try done. rewrite serve_select. simpl.
  destruct (env_ok ε); simpl; [|done]. by intros [= <-].
Qed.

(** ** The invariant *)

(** What is on the page, and the rows of every answer on its way, are
    snapshots of what the backend stores; every comment on its way is
    for a feedback that the backend stores. *)
Record snap_inv a : Prop := {
  snap_page : page_has (λ l, snapshot_of l (feed_of (backend a))) a;
  snap_rows :
    Forall (task_has (λ l, snapshot_of l (feed_of (backend a)))) (tasks a);
  snap_targets :
    Forall (task_comments_on (λ id, id ∈ fb_id <$> feed_of (backend a)))
           (tasks a)
}.

Lemma start_comments ids pg ow q a :
  comments_on ids q → Forall (task_comments_on ids) (tasks a) →
  Forall (task_comments_on ids) (tasks (start pg ow q a)).
Proof.
  intros Hq Ha. rewrite start_tasks. apply Forall_app. split; [done|].
  induction q as [x|e k IH|R c k _]; simpl in *; [constructor| |].
  - destruct (sync k); simpl in *. by apply IH.
  - constructor; [exact Hq|constructor].
Qed.

(** A segment of a handler keeps the invariant, if the rows it may set
    are a snapshot. *)
Lemma start_snap_inv pg ow q a :
  snap_inv a → comments_on (λ id, id ∈ fb_id <$> feed_of (backend a)) q →
  page_has (λ l, snapshot_of l (feed_of (backend a))) (start pg ow q a) →
  snap_inv (start pg ow q a).
Proof.
  intros [Hpage Hrows Htg] Hq Hp. split; rewrite start_backend; [done| |].
  - by apply start_task_has.
  - by apply start_comments.
Qed.

(** The cards on a well-formed page are feedback of the backend. *)
Lemma cards_stored a p id :
  snap_inv a → page a = Some p → screen_ok p →
  is_Some (pg_cards p !! id) → id ∈ fb_id <$> feed_of (backend a).
Proof.
  intros Hinv Hp Hsc Hid.
  destruct (screen_ok_children p Hsc) as (_ & _ & Hc).
  apply Hc in Hid as [_ Hid].
  eapply snapshot_of_ids; [|done].
  apply (snap_page a Hinv). unfold page_feed. by rewrite Hp.
Qed.

Lemma initial_snap_inv (b : B) : snap_inv (initialApp b).
Proof. split; [by intros l|constructor..]. Qed.

Lemma snap_inv_set_subs l a : snap_inv a → snap_inv (set_subs l a).
Proof. by intros []. Qed.

Lemma mount_snap_inv a : page a = None → snap_inv a → snap_inv (mount a).
Proof.
  intros Hp [Hpage Hrows Htg]. rewrite mount_eq. apply snap_inv_set_subs.
  set (a0 := set_next _ _).
  assert (page_has (λ l, snapshot_of l (feed_of (backend a))) a0) as Hnew
    by (intros l [= <-]; apply snapshot_of_nil).
  apply start_snap_inv; [by split|apply page_checkAuth_comments|].
  by apply start_has; [apply page_checkAuth_feed_free|].
Qed.

Lemma serve_snap_inv i ε a t t' b' :
  wf (backend a) → admissible ε (backend a) → snap_inv a →
  tasks a !! i = Some t → serve_task ε t (backend a) = Some (t', b') →
  snap_inv (set_backend b' (set_tasks (<[i := t']> (tasks a)) a)).
Proof.
  intros Hwf Hadm [Hpage Hrows Htg] Ht Hsv. unfold serve_task in Hsv.
  destruct (t_pending t) as [R c k|] eqn:Hpend; simplify_eq/=.
  pose proof (serve_snapshot c ε _ Hwf Hadm) as Hgrow.
  split; simpl.
  - intros l Hl. etrans; [by apply Hpage|done].
  - apply Forall_insert.
    + eapply Forall_impl; [exact Hrows|]. intros t0. unfold task_has.
      destruct (t_pending t0); [done|]. intros Hr l Hl. by etrans; [apply Hr|].
    + unfold task_has. simpl. intros l [-> ->]%serve_rows. done.
  - pose proof (Forall_lookup_1 _ _ _ _ Htg Ht) as Hc.
    unfold task_comments_on in Hc. rewrite Hpend in Hc.
    assert (∀ id, id ∈ fb_id <$> feed_of (backend a) →
                  id ∈ fb_id <$> feed_of (serve c ε (backend a)).2) as Hids
      by (intros id; by apply snapshot_of_ids).
    apply Forall_insert.
    + eapply Forall_impl; [exact Htg|]. intros t0.
      by apply task_comments_on_mono.
    + by apply (task_comments_on_mono _ _
                  {| t_page := t_page t; t_owner := t_owner t;
                     t_pending := Responded c (serve c ε (backend a)).1 k |}
                  Hids).
Qed.

Lemma step_snap_inv ev a a' :
  (∀ i ε, ev = AServe i ε → admissible ε (backend a)) →
  app_wf a → snap_inv a → step ev a = Some a' → snap_inv a'.
Proof.
  intros Hadm Hwf Hinv Hs.
  destruct (step_inv _ _ _ (wf_subs _ Hwf) Hs)
    as [Hp|ev p ow q Hp Hh|i ε t t' b' Ht Hsv|i t q Ht Hq].
  - by apply mount_snap_inv.
  - apply start_snap_inv; [done| |].
    + eapply comments_on_mono; [|by eapply started_comments].
      intros id Hid. eapply cards_stored; [done..| |done].
      apply (wf_screen _ (wf_page _ Hwf _ Hp)).
    + apply start_has; [by eapply started_feed_free|apply Hinv].
  - eapply serve_snap_inv; [apply Hwf|by eapply Hadm|done..].
  - pose proof (Forall_lookup_1 _ _ _ _ (snap_rows _ Hinv) Ht) as Hr.
    pose proof (Forall_lookup_1 _ _ _ _ (wf_loads _ Hwf) Ht) as Hok.
    pose proof (Forall_lookup_1 _ _ _ _ (snap_targets _ Hinv) Ht) as Hc.
    destruct (resume_has _ _ _ Hr Hok Hq) as (R & c & r & Hld & Hrows).
    assert (snap_inv (set_tasks (delete i (tasks a)) a)) as Hinv'.
    { destruct Hinv. split; simpl; [done|by apply Forall_delete..]. }
    apply start_snap_inv; [done| |].
    + unfold resume, task_comments_on in *.
      destruct (t_pending t); simplify_eq. apply Hc.
    + eapply start_loads_has; [done..|apply Hinv'].
Qed.

(** A step leaves a backend whose feed the old feed is a snapshot of. *)
Lemma step_grows ev a a' :
  (∀ i ε, ev = AServe i ε → admissible ε (backend a)) →
  app_wf a → step ev a = Some a' →
  snapshot_of (feed_of (backend a)) (feed_of (backend a')).
Proof.
  intros Hadm Hwf Hs.
  destruct (step_inv _ _ _ (wf_subs _ Hwf) Hs)
    as [Hp|ev p ow q Hp Hh|i ε t t' b' Ht Hsv|i t q Ht Hq];
    rewrite ?mount_backend, ?start_backend; try done.
  unfold serve_task in Hsv. destruct (t_pending t); simplify_eq/=.
  apply serve_snapshot; [apply Hwf|by eapply Hadm].
Qed.

(** Nothing that the backend stored at the start is ever lost. *)
Lemma reachable_grows b0 a :
  wf b0 → reachable b0 a → snapshot_of (feed_of b0) (feed_of (backend a)).
Proof.
  intros Hb0. induction 1 as [|ev a a' Ha IH Hs Hadm]; [done|].
  etrans; [done|]. eapply step_grows; [done|by eapply reachable_app_wf|done].
Qed.

Lemma reachable_snap_inv b0 a : wf b0 → reachable b0 a → snap_inv a.
Proof.
  intros Hb0. induction 1 as [|ev a a' Ha IH Hs Hadm];
    [apply initial_snap_inv|].
  eapply step_snap_inv; [done|by eapply reachable_app_wf|done..].
Qed.

End snap.

(** ** What the invariant gives *)

Section stored.
Context `{BackendSpec B}.
Implicit Types (a : App B).

(** C14. What is shown was stored.  Started on a well-formed backend, in
    every state the application can be in, whatever the order of the
    answers, the feed on the page is a snapshot of the feed of the
    backend: every entry shown is an entry stored, with the same
    identifier, title, content, category, date and author, and with the
    comments stored for it, up to some point and in the same order.  So
    every card on the screen is the card of a feedback that exists. *)
Theorem shown_is_stored b0 a p :
  wf b0 → reachable b0 a → page a = Some p →
  snapshot_of (feedbacks (pg_state p)) (feed_of (backend a)) ∧
  ∀ id, is_Some (pg_cards p !! id) → id ∈ fb_id <$> feed_of (backend a).
Proof.
  intros Hb0 Ha Hp. pose proof (reachable_snap_inv _ _ Hb0 Ha) as Hinv.
  split.
  - apply (snap_page a Hinv). unfold page_feed. by rewrite Hp.
  - intros id. apply cards_stored; [done..|].
    apply (wf_screen _ (wf_page _ (reachable_app_wf _ _ Hb0 Ha) _ Hp)).
Qed.

(** C20. A comment in flight has its feedback.  Started on a well-formed
    backend, in every state the application can be in, every comment
    that a handler in flight is about to insert, or will insert, is for
    a feedback that the backend stores; so when the backend answers the
    insert of a comment, it refuses it only if the call fails or there
    is no session, never because the feedback is missing. *)
Theorem comment_target_stored b0 a i t :
  wf b0 → reachable b0 a → tasks a !! i = Some t →
  task_comments_on (λ id, id ∈ fb_id <$> feed_of (backend a)) t ∧
  ∀ row k ε,
    t_pending t = Requested (InsertComment row) k →
    (serve (InsertComment row) ε (backend a)).1 = None
    ↔ env_ok ε = true ∧ is_Some (session_of (backend a)).
Proof.
  intros Hb0 Ha Ht. pose proof (reachable_snap_inv _ _ Hb0 Ha) as Hinv.
  pose proof (Forall_lookup_1 _ _ _ _ (snap_targets _ Hinv) Ht) as Hc.
  split; [done|]. intros row k ε Hpend.
  unfold task_comments_on in Hc. rewrite Hpend in Hc.
  rewrite serve_insert_comment_response.
  pose proof (proj1 Hc _ eq_refl). tauto.
Qed.

End stored.

(** ** A comment heals the page *)

Section heal.
Context `{BackendSpec B} (ρ : nat → Env).
Implicit Types (a : App B).

(** C22. A comment heals the page.  Started on a well-formed backend,
    from a state the application can be in with nothing in flight and a
    session, however stale the feed on the page: when the user sends a
    comment that is not blank from a card on the screen and the three
    calls go through, each answer delivered as it comes, the insert is
    accepted, since the feedback of the card exists; the application
    ends with nothing in flight; the backend stores the feed it stored
    with the comment appended to that feedback; and the page shows
    exactly the feed of the backend, of which what it showed before is a
    snapshot. *)
Theorem comment_round_trip b0 a p c s id n :
  wf b0 → reachable b0 a →
  tasks a = [] → page a = Some p → pg_cards p !! id = Some c →
  showComments c.2 = true → ¬ blank (newComment c.2) →
  session_of (backend a) = Some s →
  env_ok (ρ n) = true → env_ok (ρ (S n)) = true →
  env_ok (ρ (S (S n))) = true →
  let new := commented (ρ (S n))
               (comment_row id (session_user s) (newComment c.2))
               (profile_of (backend a) (uid (session_user s))) in
  ∃ a1 a' p',
    step (ACardSend id) a = Some a1 ∧ drain 6 ρ n a1 = Some a' ∧
    tasks a' = [] ∧ page a' = Some p' ∧
    feed_of (backend a') = with_comment id new <$> feed_of (backend a) ∧
    feedbacks (pg_state p') = feed_of (backend a') ∧
    snapshot_of (feedbacks (pg_state p)) (feedbacks (pg_state p')).
Proof.
  intros Hb0 Ha Hts Hp Hc Hopen Htext Hs H0 H1 H2 new.
  pose proof (reachable_snap_inv _ _ Hb0 Ha) as Hinv.
  pose proof (wf_screen _ (wf_page _ (reachable_app_wf _ _ Hb0 Ha) _ Hp))
    as Hsc.
  assert (id ∈ fb_id <$> feed_of (backend a)) as Hid
    by (eapply cards_stored; [done..|by eexists]).
  assert (Hok := serve_insert_comment_ok (ρ (S n))
                   (comment_row id (session_user s) (newComment c.2))
                   (backend a) H1 ltac:(by rewrite Hs) Hid).
  destruct (serve_insert_comment_accepted _ _ _ Hok) as [_ Hfeed].
  destruct (comment_alone ρ n a p (SCard id, c.1) s id (newComment c.2)
              Hp Hs Htext Hid H0 H1 H2)
    as (Hcalls & Hbk & Htasks & p' & Hp' & Hst).
  eexists _, _, p'.
  split_and!; [by eapply send_is_step|by apply drain_alone| |done|..].
  - by rewrite Htasks.
  - by rewrite Hbk.
  - by rewrite Hst, Hbk.
  - rewrite Hst. simpl. rewrite Hfeed. etrans; [|apply snapshot_of_with_comment].
    apply (snap_page a Hinv). unfold page_feed. by rewrite Hp.
Qed.

End heal.

(** ** The theorems at concrete states *)

(** After the race of the two reloads the page shows the card with one
    comment and the backend stores two. *)
Lemma shown_is_stored_witness :
  ∃ p, page (after race_run demo_backend1) = Some p ∧
       snapshot_of (feedbacks (pg_state p))
                   (feed_of (backend (after race_run demo_backend1))).
Proof.
  destruct (page (after race_run demo_backend1)) as [p|] eqn:Hp;
    [|by vm_compute in Hp].
  exists p. split; [done|].
  exact (proj1 (shown_is_stored demo_backend1 _ p demo_backend1_wf
                  (reachable_after _ _ race_run_ok) Hp)).
Defined.

(** The comment of [send_run], before its user lookup is answered. *)
Lemma comment_target_stored_witness :
  ∃ t, tasks (after send_run demo_backend1) !! 0 = Some t ∧
       task_comments_on
         (λ id, id ∈ fb_id <$> feed_of (backend (after send_run demo_backend1)))
         t.
Proof.
  assert (∃ t, tasks (after send_run demo_backend1) !! 0 = Some t) as [t Ht]
    by (vm_compute; eexists; reflexivity).
  exists t. split; [done|].
  exact (proj1 (comment_target_stored demo_backend1 _ 0 t demo_backend1_wf
                  (reachable_after _ _ send_run_ok) Ht)).
Defined.

(** After the race of [race_run] the user types a third comment. *)
Definition heal_run : list AppEvent :=
  race_run ++ [ACardType 100 (js "enfim")].

Lemma heal_run_ok : check_run heal_run (initialApp demo_backend1) = true.
Proof. vm_compute. reflexivity. Defined.

(** Sending it leaves the page with the feed of the backend. *)
Lemma comment_round_trip_witness :
  ∃ a1 a' p',
    step (ACardSend 100) (after heal_run demo_backend1) = Some a1 ∧
    drain 6 demo_env 9 a1 = Some a' ∧
    tasks a' = [] ∧ page a' = Some p' ∧
    feedbacks (pg_state p') = feed_of (backend a').
Proof.
  assert (∃ p c, page (after heal_run demo_backend1) = Some p ∧
                 pg_cards p !! 100%N = Some c ∧ showComments c.2 = true ∧
                 newComment c.2 = js "enfim") as (p & c & Hp & Hc & Ho & Hn)
    by (eexists _, _; split_and!; vm_compute; reflexivity).
  destruct (comment_round_trip demo_env demo_backend1
              (after heal_run demo_backend1) p c demo_session 100%N 9
              demo_backend1_wf (reachable_after _ _ heal_run_ok))
    as (a1 & a' & p' & Hs & Hd & Ht & Hp' & _ & Hf & _);
    [vm_compute; reflexivity|exact Hp|exact Hc|exact Ho| 
    |vm_compute; reflexivity|reflexivity..|].
  - rewrite Hn. apply (bool_decide_eq_false_1 (blank _)).
    vm_compute. reflexivity.
  - exists a1, a', p'. split; [exact Hs|]. split; [exact Hd|].
    split; [exact Ht|]. split; [exact Hp'|exact Hf].
Defined.
