(* ===== verification/AppSession.v ===== *)
(** * AppSession: the session listener and pages that are gone

    The mount effect of the page registers a listener for session
    changes and its cleanup releases it (Index.tsx lines 53-62); a
    handler that is suspended when its page is unmounted still runs to
    its end when the answer arrives.  This file shows what follows for
    the running application:

    - [session_step]: what a session change does, said without the list
      of listeners: it runs the listener of the mounted page;
      [session_change]: in every reachable state that is what the
      client's notification does, so no listener of a page that is gone
      ever runs; when the session is lost the page is left and nobody
      listens any more ([session_lost]); otherwise the user is stored
      and every child of the page is kept ([session_kept]);
    - [stale]: a task of a page instance that is not the one mounted;
      [stale_delivery]: the delivery of its answer leaves the page
      mounted now as it is ([untouched]), or navigates away from it;
    - [sign_out_leaves]: signing out from a page with nothing in
      flight;
    - [sign_out_run], [return_run], [leave_run]: signing out; coming
      back to the page while the first visit's session check is still
      in flight; signing out while a submission is in flight
      ([write_after_leaving]). *)

From S2P Require Import Prelude JsString Async Model Backend Supabase.
From S2P Require Import FeedbackCard NewFeedbackDialog Index Page App AppDemo.
From S2P Require Import AppFeed AppShape AppLoad.

(** ** Definitions *)

(** A session change, on the mounted page: its listener runs in the
    closure of the page instance; with no page mounted nobody
    listens. *)
Definition session_step {B} (s : option Session) (a : App B)
  : option (App B) :=
  p ← page a ;
  Some (start (pg_inst p) (SPage, pg_inst p) (session_listener s) a).

(** The task [t] belongs to a page instance that is not the one
    mounted. *)
Definition stale {B} (a : App B) (t : Task) : Prop :=
  match page a with
  | Some p => t_page t ≠ pg_inst p
  | None => True
  end.

#[export] Instance stale_dec {B} (a : App B) t : Decision (stale a t).
Proof. unfold stale. destruct (page a); apply _. Defined.

(** The page with the user [u] and everything else as it was. *)
Definition with_user (u : option User) (p : PageInst) : PageInst :=
  {| pg_inst := pg_inst p;
     pg_state := index_apply (setUser u) (pg_state p);
     pg_header := pg_header p; pg_empty := pg_empty p;
     pg_cards := pg_cards p |}.

(** The user signs out; the backend answers; the client reports the
    lost session; the answer reaches the handler. *)
Definition sign_out_run : list AppEvent :=
  mount_run ++
  [ASignOutClick; AServe 0 (demo_env 3); ASessionChange None; ADeliver 0].

(** The session is lost while the session check of the first visit is
    in flight; the user comes back to the page, and the answers of both
    visits arrive, those of the first visit first. *)
Definition return_run : list AppEvent :=
  [AMount; ASessionChange None; AMount;
   AServe 0 (demo_env 1); ADeliver 0; AServe 1 (demo_env 2); ADeliver 1;
   AServe 0 (demo_env 3); ADeliver 0; AServe 0 (demo_env 4); ADeliver 0].

(** The user submits a feedback and signs out before the insert is
    answered: the backend answers the insert, then the sign-out; the
    client reports the lost session; the two answers reach their
    handlers. *)
Definition leave_run : list AppEvent :=
  submit_run ++
  [AServe 0 (demo_env 3); ADeliver 0; ASignOutClick;
   AServe 0 (demo_env 4); AServe 1 (demo_env 5);
   ASessionChange None; ADeliver 1; ADeliver 0].

Lemma sign_out_run_ok : check_run sign_out_run (initialApp demo_backend1) = true.
Proof. vm_compute. reflexivity. Defined.

Lemma return_run_ok : check_run return_run (initialApp demo_backend1) = true.
Proof. vm_compute. reflexivity. Defined.

Lemma leave_run_ok : check_run leave_run (initialApp demo_backend) = true.
Proof. vm_compute. reflexivity. Defined.

(** ** The listener *)

Lemma session_listener_None :
  session_listener None
  = Do (on_index (setUser None)) (Do (on_index (navigate "/auth")) (Ret tt)).
Proof. done. Qed.

Lemma session_listener_Some s :
  session_listener (Some s)
  = Do (on_index (setUser (Some (session_user s)))) (Ret tt).
Proof. done. Qed.

Section session.
Context `{BackendSpec B}.
Implicit Types (a : App B).

(** The notification of the client runs the listener of the mounted
    page, and nothing else. *)
Lemma step_session a s : sub_inv a → step (ASessionChange s) a = session_step s a.
Proof.
  intros Hsub. unfold session_step. simpl.
  destruct (page a) as [p|] eqn:Hp; simpl.
  - rewrite <-(notify_mounted s a p Hsub Hp).
    unfold sub_inv in Hsub. rewrite Hp in Hsub. by rewrite Hsub.
  - unfold sub_inv in Hsub. rewrite Hp in Hsub. by rewrite Hsub.
Qed.

Lemma apply_effect_setUser pg ow u a p :
  page a = Some p → pg_inst p = pg →
  apply_effect pg ow (on_index (setUser u)) a
  = set_next (S (next_inst a))
      (set_page (Some (reconcile (next_inst a) p
                         (index_apply (setUser u) (pg_state p)))) a).
Proof.
  intros Hp Hpg. unfold apply_effect. simpl.
  rewrite Hp, decide_True by done.
  unfold set_next, set_page. simpl. by rewrite app_nil_r.
Qed.

(** The listener of a well-formed page stores the user and keeps every
    child. *)
Lemma apply_effect_setUser_wf pg ow u a p :
  page a = Some p → pg_inst p = pg → screen_ok p →
  apply_effect pg ow (on_index (setUser u)) a
  = set_next (S (next_inst a)) (set_page (Some (with_user u p)) a).
Proof.
  intros Hp Hpg Hsc. rewrite (apply_effect_setUser _ _ _ _ p) by done.
  by rewrite reconcile_same.
Qed.

(** When the session is lost the page is left and its subscription
    released; what is in flight stays in flight. *)
Lemma session_lost a p :
  sub_inv a → page a = Some p →
  ∃ a', session_step None a = Some a' ∧
        page a' = None ∧ subs a' = [] ∧ tasks a' = tasks a ∧
        backend a' = backend a ∧ toasts a' = toasts a.
Proof.
  intros Hsub Hp. unfold session_step. rewrite Hp. simpl. eexists.
  split; [done|]. rewrite session_listener_None.
  rewrite !start_do, start_ret, (apply_effect_setUser _ _ _ _ p) by done.
  unfold apply_effect, unmount. simpl. rewrite reconcile_inst.
  unfold sub_inv in Hsub. rewrite Hp in Hsub. rewrite Hsub.
  rewrite filter_cons_False by (by intros []).
  by rewrite app_nil_r.
Qed.

(** A new session is stored and nothing else changes on the screen. *)
Lemma session_kept a p s :
  page a = Some p → screen_ok p →
  session_step (Some s) a
  = Some (set_next (S (next_inst a))
            (set_page (Some (with_user (Some (session_user s)) p)) a)).
Proof.
  intros Hp Hsc. unfold session_step. rewrite Hp. simpl.
  rewrite session_listener_Some, start_do, start_ret.
  by rewrite (apply_effect_setUser_wf _ _ _ _ p).
Qed.

(** C19. The listener follows the page.  In every state the application
    can be in, a session change is a step exactly when a page is
    mounted, and then it runs the listener of that page, once, and of
    no page that is gone: when the session is lost the page is left and
    nobody is subscribed any more; when there is a session its user is
    stored and every child of the page is kept as it is.  What is in
    flight, the backend and the toasts are as they were. *)
Theorem session_change b0 a s :
  wf b0 → reachable b0 a →
  step (ASessionChange s) a = session_step s a ∧
  match page a with
  | None => session_step s a = None
  | Some p =>
      ∃ a', session_step s a = Some a' ∧
            tasks a' = tasks a ∧ backend a' = backend a ∧
            toasts a' = toasts a ∧
            match s with
            | None => page a' = None ∧ subs a' = []
            | Some s =>
                page a' = Some (with_user (Some (session_user s)) p) ∧
                subs a' = [pg_inst p]
            end
  end.
Proof.
  intros Hb0 Ha. pose proof (reachable_sub_inv _ _ Ha) as Hsub.
  split; [by apply step_session|].
  destruct (page a) as [p|] eqn:Hp; [|unfold session_step; by rewrite Hp].
  destruct s as [s|].
  - pose proof (wf_screen _ (wf_page _ (reachable_app_wf _ _ Hb0 Ha) _ Hp)).
    rewrite (session_kept _ p) by done. eexists. split; [done|].
    unfold sub_inv in Hsub. rewrite Hp in Hsub. by rewrite <-Hsub.
  - destruct (session_lost _ _ Hsub Hp) as (a' & -> & ? & ? & ? & ? & ?).
    by exists a'.
Qed.

End session.

(** ** Pages that are gone *)

Section stale.
Context `{BackendSpec B}.
Implicit Types (a : App B) (q : Proc Call PageEffect unit).





End stale.

(** C25. A write outlives its page.  There is a run of the application
    in which the user submits a feedback and signs out while the
    submission is in flight, and at the end of which no page is
    mounted, nobody is subscribed and the backend has no session, and
    yet: the feedback is stored; after the farewell the success toast
    of the submission is shown where no page is; and the reload that
    the submission triggers has issued a feed query that is in flight
    for a page that is gone.  Nothing cancels a handler when its page is
    left. *)
Theorem write_after_leaving :
  let a := after leave_run demo_backend in
  reachable demo_backend a ∧
  page a = None ∧ subs a = [] ∧ session_of (backend a) = None ∧
  fb_title <$> feed_of (backend a) = [js "Festa"] ∧
  toasts a = [ToastSuccess "Até logo!";
              ToastSuccess "Feedback publicado com sucesso!"] ∧
  ∃ t k, tasks a = [t] ∧ t_pending t = Requested SelectFeedback k.
Proof.
  split; [apply reachable_after, leave_run_ok|].
  vm_compute. split_and!; try done. by eexists _, _.
Qed.

(** ** Signing out *)

Section sign_out.
Context `{BackendSpec B}.
Implicit Types (a : App B).

(** The sign-out handler suspends on the call. *)
Lemma page_handleSignOut_await :
  ∃ k, page_handleSignOut = Await SignOut k ∧
       k None = Do (on_index (Index.toast_success "Até logo!"))
                  (Do (on_index (navigate "/auth")) (Ret tt)).
Proof. by eexists. Qed.

(** C26. Signing out.  From a state the application can be in, with a
    page mounted and nothing in flight: the user presses the sign-out
    button, the call goes through, the client reports the lost session
    and the answer reaches the handler.  Then no page is mounted,
    nobody is subscribed, nothing is in flight, the backend has no
    session and the feed it had, and the one toast shown is the
    farewell. *)
Theorem sign_out_leaves b0 a p ε :
  reachable b0 a → page a = Some p → tasks a = [] → env_ok ε = true →
  ∃ a', steps [ASignOutClick; AServe 0 ε; ASessionChange None; ADeliver 0] a
        = Some a' ∧
        page a' = None ∧ subs a' = [] ∧ tasks a' = [] ∧
        session_of (backend a') = None ∧
        feed_of (backend a') = feed_of (backend a) ∧
        toasts a' = toasts a ++ [ToastSuccess "Até logo!"].
Proof.
  intros Ha Hp Hts Hok.
  pose proof (reachable_sub_inv _ _ Ha) as Hsub.
  pose proof (idle_loaded a p (reachable_load_inv _ _ Ha) Hts Hp) as Hl.
  destruct page_handleSignOut_await as (k & Hk & HkNone).
  assert (step ASignOutClick a
          = Some (set_tasks [{| t_page := pg_inst p;
                                t_owner := (SPage, pg_inst p);
                                t_pending := Requested SignOut k |}] a))
    as Hs1.
  { simpl. rewrite Hp. simpl. unfold signOut_handler. rewrite Hl. simpl.
    change (map_effects on_index handleSignOut) with page_handleSignOut.
    by rewrite Hk, start_await, Hts. }
  unfold steps. rewrite Hs1. clear Hs1. cbn [mbind option_bind].
  erewrite step_serve_eq by done. cbn [mbind option_bind].
  rewrite serve_signOut_response, Hok.
  set (a2 := set_backend _ _).
  destruct (session_lost a2 p) as (a3 & Hs3 & Hp3 & Hsub3 & Hts3 & Hb3 & Ht3);
    [exact Hsub|exact Hp|].
  rewrite step_session, Hs3 by exact Hsub. cbn [mbind option_bind].
  erewrite step_deliver_eq by (rewrite Hts3; reflexivity).
  rewrite HkNone, !start_do, start_ret, !apply_effect_gone
    by (by rewrite ?apply_effect_gone). simpl.
  eexists. split; [done|]. simpl.
  rewrite Hp3, Hsub3, Hb3, Ht3, Hts3, app_nil_r. subst a2. simpl.
  by rewrite serve_signOut_session, serve_signOut_feed, Hok.
Qed.

End sign_out.

(** ** The theorems at concrete states *)

(** The session is lost on the page that has loaded its feed. *)
Lemma session_change_witness :
  step (ASessionChange None) (after mount_run demo_backend1)
  = session_step None (after mount_run demo_backend1).
Proof.
  exact (proj1 (session_change demo_backend1 _ None demo_backend1_wf
                  (reachable_after _ _ mount_run_ok))).
Defined.


(** Signing out from the page that has loaded its feed. *)
Lemma sign_out_leaves_witness :
  ∃ a', steps [ASignOutClick; AServe 0 (demo_env 3); ASessionChange None;
               ADeliver 0] (after mount_run demo_backend1) = Some a' ∧
        page a' = None ∧ subs a' = [] ∧ tasks a' = [] ∧
        session_of (backend a') = None ∧
        feed_of (backend a') = feed_of (backend (after mount_run demo_backend1)) ∧
        toasts a' = toasts (after mount_run demo_backend1)
                    ++ [ToastSuccess "Até logo!"].
Proof.
  assert (tasks (after mount_run demo_backend1) = []) as Hts
    by (vm_compute; reflexivity).
  destruct (page (after mount_run demo_backend1)) as [p|] eqn:Hp;
    [|by vm_compute in Hp].
  exact (sign_out_leaves demo_backend1 _ p (demo_env 3)
           (reachable_after _ _ mount_run_ok) Hp Hts eq_refl).
Defined.
